(* ===== verification/_CoqProject ===== *)
-Q . S2P
Prelude.v
Json.v
Node.v
Cache.v
BuildConfig.v
Optimizer.v
Rerun.v
