(* ===== verification/Prelude.v ===== *)
(** * A verification development for vite-plugin-electron-renderer

    The program is a Vite plugin for Electron renderers (src/src/).
    Two files make it up:
    - src/build-config.ts: the [builtins] list of module names and the
      [config] hooks of two plugins. The [builtins] plugin aliases
      [electron] (and, with [nodeIntegration], every built-in module) to
      polyfills and keeps them out of Vite's pre-bundling. The
      [build-config] plugin sets [base], [build.cssCodeSplit],
      [build.assetsDir] and, with [nodeIntegration], the Rollup
      [external] ([withExternal]) and output format ([setOutputFormat]).
      Two helpers edit a Vite configuration in place: [modifyAlias] and
      [modifyOptimizeDeps].
    - src/optimizer.ts: the [optimizer] plugin pre-bundles the [include]d
      dependencies into [node_modules/@sillot/vite-electron-renderer/<name>]
      and aliases each name to its shim. Its [config] hook classifies each
      item as CommonJS or ES module, from the explicit [type], the
      built-in list, the [package.json] [type] field or the resolved
      entry's extension. It then calls [cjsBundling] (a synchronous
      shim) or [esmBundling] (an [async] esbuild build to CommonJS
      followed by a shim) and hands the aliases and exclusions to the two
      helpers. Both bundlers consult the content-hash [Cache], whose
      record is the JSON file [_metadata.json].

    Files, in dependency order:
    - [Prelude]: JavaScript exceptions, the state-and-exception monad
      [ST] (a computation maps the world to an [outcome] and the new
      world, so effects before a [throw] are kept), its [let*] notation,
      the combinators that lift a property of the basic operations to
      a whole computation ([st_keeps]: an invariant of the state;
      [st_post]: a property of the returned value; [st_rel]: a preorder
      between the state before and after, on every path), their tactics
      ([keeps], [post], [rel]), the hint databases and the shared lemmas
      on strings and lists.
    - [Json]: the JSON values, the object operations the code performs
      (property access, [Object.entries], spread, assignment), and the
      [JSON.stringify(v, null, 2)] printer and [JSON.parse] parser.
    - [Node]: [node:path] ([path.join], [path.extname]), [node:fs]
      ([existsSync], [readFileSync], [writeFileSync], [mkdirSync]
      recursive), [Date.now], [console.log] and unhandled rejections,
      over a [world] record (file map, clock, log, rejections).  Path
      strings of normalised paths are injective ([path_str_inj]).
    - [Cache]: class [Cache] of optimizer.ts, lines 224-288 ([getHash],
      [readCache], [checkHash], [writeCache]).
    - [BuildConfig]: all of src/build-config.ts.
    - [Optimizer]: the rest of optimizer.ts. [classify] is one iteration
      of the loop at lines 57-105, [process_dep] of the loop at 107-141,
      [config_hook] is the hook. [cjsBundling], [esmBundling_sync] and
      [esm_task] split [esmBundling] at its first [await].
    - [Rerun]: a second run of the hook over the files the first one
      left (spec section 8, idempotence), and the frame of the dependency
      loop (it writes only in the cache directory).
    Every operation that changes state is a definition: a [NodeM]
    computation, or a function from configuration to configuration for
    the in-place edits of build-config.ts.

    What the theorems show:
    - Cache: [checkHash] refines the abstract predicate "the artifact
      exists and its digest is the stored one" ([checkHash_refines]).
      [writeCache] refines an insertion into the map from paths to
      digests that never prunes ([writeCache_refines]). A write followed
      by a check succeeds ([writeCache_checkHash]). Recording a missing
      file throws ([writeCache_missing]). Read your writes: once
      [writeCache(p)] returns, [readCache()] reads back exactly the
      record it built, through [JSON.stringify] and [JSON.parse]
      ([writeCache_readCache], on the printer/parser round trip
      [Json.parse_stringify]). A [null] record throws instead
      of failing open ([checkHash_null_record]). Writes to other files do
      not change [checkHash] ([checkHash_frame]).
    - Optimizer: every branch of the classification
      ([classify_manifest_module], [classify_manifest_commonjs],
      [classify_explicit_type], [classify_builtin], [classify_resolved],
      [classify_unresolved]). The batch of aliases and exclusions the
      hook emits ([config_hook_batch]). The abort of the whole hook on
      a malformed manifest at any position of [include], with no alias
      for the items already classified ([config_hook_bad_manifest]). A
      [cjsBundling] miss writes, records and validates its shim, and a
      second run is a no-op ([cjsBundling_fresh]). The [esmBundling]
      paths: a cache hit skips the shim ([esmBundling_cached]), a miss
      (also on the first run, where the output directory is created)
      defers to esbuild and changes nothing else ([esmBundling_miss]), a
      missing esbuild becomes an
      unhandled rejection ([esm_task_no_esbuild]), a build with errors is
      neither recorded nor shimmed ([esm_task_build_errors]), and a
      successful build leaves both the bundle and the shim recorded
      ([esm_task_success]). A changed
      entry file does not invalidate the shim ([cjsBundling_entry_change]).
      [buildOptions] overrides the forced esbuild settings
      ([esbuild_options_override]). Every classified dependency is
      named after one [include] item and has exactly one kind
      ([classify_all_kinds]). The batch has at most one alias and one
      pending task per item ([config_hook_bounds]). A name without
      [..] keeps its shim inside the cache directory ([dest_contained]);
      for every package [s], the name [../../s] puts the shim on
      [node_modules/s/index.js], the package's own entry file
      ([dest_escapes]).
    - Rerun: after a dependency loop that returns, every CommonJS shim
      passes [checkHash] and every output directory exists, because a
      [writeCache] of one shim keeps the record of every other shim,
      whose path string differs ([process_all_done]). So a second run of
      the loop, at any later time, rebuilds nothing, writes no file and
      returns the same aliases ([process_all_idempotent]). The loop
      writes only under the cache directory and in the directories above
      it ([process_all_out]), and the classification reads only the
      manifests ([classify_all_local]). So a second run of the whole hook
      also classifies the same dependencies and hands Vite the same
      configuration ([config_hook_idempotent]). Its hypotheses:
      [require.resolve] does not depend on the written files, the
      [node_modules] path is normalised, and no [include] name has a
      [..] segment or its manifest inside the cache directory. The
      second run is taken at any later time because a rebuild would
      record a new timestamp: stating the theorem for every later world
      with the same files is what makes it see a rebuild. Listing the
      [include] items twice hands Vite the batch of one listing twice
      over ([config_hook_repeated_name]).
    - BuildConfig: the [build-config] hook's contract
      ([build_config_contract]: what is external is exactly the
      builtins plus what the user's option marks, for every importer and
      every way of matching a [RegExp]) and the [builtins] hook's
      ([builtins_config_electron]). [modifyOptimizeDeps] keeps order and
      is idempotent, but a new name is pushed as many times as it is
      given
      ([modifyOptimizeDeps_spec], [modifyOptimizeDeps_idem],
      [modifyOptimizeDeps_repeats]). [modifyAlias] keeps the configured
      aliases first, converting an object one entry by entry
      ([modifyAlias_spec]).
    - Node: the file-system invariant [fs_wf] (the root is a directory
      and every entry's parent is one) is kept by every [fs] operation on
      both of its paths ([write_file_wf], [mkdir_go_wf],
      [mkdirSync_recursive_wf]). The Prelude's [st_keeps] and the
      [keeps] tactic lift this to every composite computation. [mkdir]
      changes only the prefixes of its argument ([mkdir_go_outside]), and
      it cannot fail where no file is in the way ([mkdir_go_no_file]).

    The pending esbuild continuations: each is modelled as one run of
    [esm_task] (the [.then] after [esbuild.build] is merged into it), and
    the order in which the event loop runs them is not modelled.

    Bounds and fuel: [json_parse] runs the parser on fuel
    [2 * length s + 1]. [pv_ser] shows that fuel at least [jsize v]
    parses the printed [v]. [jsize v] counts the values and members of
    [v], and [ser_length] shows it never exceeds the printed length, so
    this fuel is never the reason a parse of a printed value fails.
    [N_digits] uses
    [N.size n] digits of fuel, at least the decimal length. Numbers are
    integers: the only number the code writes is [Date.now()].

    Not modelled:
    - The libraries the code only calls are parameters of [Env]: md5
      ([crypto]), [lib-esm], esbuild, [require.resolve] and the module
      loader's [Object.keys(require(id))].
    - [find_node_modules] is replaced by the [node_modules] path
      [env_node_modules].
    - The CommonJS [require] cache: [cjs_require(pkgJson)] is read afresh
      each time.
    - JSON details the record never uses: non-integer numbers, [\u]
      escapes above 255, and the ordering of integer-like keys.
    - [COLOURS] in the log lines.
    - src/index.ts, which the test imports, is not in the repository. *)

From stdpp Require Export base gmap strings list.
From Stdlib Require Export ZArith Ascii.

(** ** JavaScript exceptions *)

Inductive exn :=
  | TypeError (msg : string)
  | SyntaxError (msg : string)
  | Error (msg : string)
  | FsError (code : string) (path : string).

#[export] Instance exn_eq_dec : EqDecision exn.
Proof. solve_decision. Defined.

(** ** Outcomes and the state/exception monad *)

Inductive outcome (A : Type) :=
  | Ret (a : A)
  | Exn (e : exn).
Arguments Ret {A} a.
Arguments Exn {A} e.

Definition ST (S A : Type) : Type := S -> outcome A * S.

Definition st_ret {S A} (a : A) : ST S A := fun s => (Ret a, s).

Definition st_throw {S A} (e : exn) : ST S A := fun s => (Exn e, s).

Definition st_bind {S A B} (m : ST S A) (k : A -> ST S B) : ST S B :=
  fun s =>
    match m s with
    | (Ret a, s') => k a s'
    | (Exn e, s') => (Exn e, s')
    end.

Definition st_get {S} : ST S S := fun s => (Ret s, s).

Definition st_put {S} (s : S) : ST S unit := fun _ => (Ret tt, s).

Definition st_modify {S} (f : S -> S) : ST S unit := fun s => (Ret tt, f s).

(** Lift a pure outcome. *)
Definition st_lift {S A} (o : outcome A) : ST S A := fun s => (o, s).

(** [try { m } catch { h }]: the handler runs in the state reached
    when [m] threw. *)
Definition st_catch {S A} (m : ST S A) (h : exn -> ST S A) : ST S A :=
  fun s =>
    match m s with
    | (Ret a, s') => (Ret a, s')
    | (Exn e, s') => h e s'
    end.

(** Iterate a computation over a list, left to right ([for ... of]). *)
Fixpoint st_iter {S A} (f : A -> ST S unit) (l : list A) : ST S unit :=
  match l with
  | [] => st_ret tt
  | x :: l' => st_bind (f x) (fun _ => st_iter f l')
  end.

Declare Scope st_scope.
Delimit Scope st_scope with st.
Notation "'let*' x ':=' m 'in' k" := (st_bind m (fun x => k))
  (at level 10, x binder, m at level 100, k at level 200) : st_scope.
Notation "m ;;; k" := (st_bind m (fun _ => k))
  (at level 100, right associativity) : st_scope.

(** Pure outcome bind, for the code that reads but does not change the
    world. *)
Definition out_bind {A B} (m : outcome A) (k : A -> outcome B) : outcome B :=
  match m with
  | Ret a => k a
  | Exn e => Exn e
  end.
Notation "'let?' x ':=' m 'in' k" := (out_bind m (fun x => k))
  (at level 10, x binder, m at level 100, k at level 200) : st_scope.

(** ** Monad laws *)

Section MonadLaws.
Context {S : Type}.

Lemma st_bind_ret_l {A B} (a : A) (k : A -> ST S B) s :
  st_bind (st_ret a) k s = k a s.
Proof. reflexivity. Qed.

Lemma st_bind_ret_r {A} (m : ST S A) s : st_bind m st_ret s = m s.
Proof. unfold st_bind, st_ret. by destruct (m s) as [[] ?]. Qed.

Lemma st_bind_assoc {A B C} (m : ST S A) (k : A -> ST S B) (k' : B -> ST S C) s :
  st_bind (st_bind m k) k' s = st_bind m (fun a => st_bind (k a) k') s.
Proof. unfold st_bind. by destruct (m s) as [[] ?]. Qed.

Lemma st_bind_throw {A B} (e : exn) (k : A -> ST S B) s :
  st_bind (st_throw e) k s = (Exn e, s).
Proof. reflexivity. Qed.

Lemma st_bind_ok {A B} (m : ST S A) (k : A -> ST S B) s a s' :
  m s = (Ret a, s') -> st_bind m k s = k a s'.
Proof. unfold st_bind. by intros ->. Qed.

Lemma st_bind_exn {A B} (m : ST S A) (k : A -> ST S B) s e s' :
  m s = (Exn e, s') -> st_bind m k s = (Exn e, s').
Proof. unfold st_bind. by intros ->. Qed.

Lemma st_bind_ret_inv {A B} (m : ST S A) (k : A -> ST S B) s b s'' :
  st_bind m k s = (Ret b, s'') -> exists a s', m s = (Ret a, s') /\ k a s' = (Ret b, s'').
Proof. unfold st_bind. destruct (m s) as [[a|e] s']; [eauto | done]. Qed.

Lemma st_catch_ret_inv {A} (m : ST S A) (h : exn -> ST S A) s b s'' :
  st_catch m h s = (Ret b, s'') ->
  m s = (Ret b, s'') \/ exists e s', m s = (Exn e, s') /\ h e s' = (Ret b, s'').
Proof. unfold st_catch. destruct (m s) as [[a|e] s']; [intros [= -> ->]; auto | eauto]. Qed.

(** An invariant of the state survives a bind when both parts keep it. *)
Lemma st_bind_preserves (P : S -> Prop) {A B} (m : ST S A) (k : A -> ST S B) :
  (forall s, P s -> P (m s).2) ->
  (forall a s, P s -> P (k a s).2) ->
  forall s, P s -> P (st_bind m k s).2.
Proof.
  intros Hm Hk s Hs. unfold st_bind.
  specialize (Hm s Hs). destruct (m s) as [[a|e] s']; simpl in *; auto.
Qed.

Lemma st_iter_preserves (P : S -> Prop) {A} (f : A -> ST S unit) :
  (forall x s, P s -> P (f x s).2) ->
  forall l s, P s -> P (st_iter f l s).2.
Proof.
  intros Hf l. induction l as [|x l IH]; intros s Hs; simpl; [done|].
  apply (st_bind_preserves P); auto.
Qed.
End MonadLaws.

(** ** Read-only computations *)

Definition st_ro {S A} (m : ST S A) : Prop := forall s, (m s).2 = s.

Section ReadOnly.
Context {S : Type}.

Lemma st_ro_ret {A} (a : A) : st_ro (S:=S) (st_ret a).
Proof. done. Qed.

Lemma st_ro_throw {A} e : st_ro (S:=S) (A:=A) (st_throw e).
Proof. done. Qed.

Lemma st_ro_lift {A} (o : outcome A) : st_ro (S:=S) (st_lift o).
Proof. done. Qed.

Lemma st_ro_bind {A B} (m : ST S A) (k : A -> ST S B) :
  st_ro m -> (forall a, st_ro (k a)) -> st_ro (st_bind m k).
Proof.
  intros Hm Hk s. unfold st_bind. specialize (Hm s).
  destruct (m s) as [[a|e] s']; simpl in *; subst; [apply Hk | done].
Qed.

Lemma st_ro_catch {A} (m : ST S A) (h : exn -> ST S A) :
  st_ro m -> (forall e, st_ro (h e)) -> st_ro (st_catch m h).
Proof.
  intros Hm Hh s. unfold st_catch. specialize (Hm s).
  destruct (m s) as [[a|e] s']; simpl in *; subst; [done | apply Hh].
Qed.
End ReadOnly.

(** ** Invariants of the state *)

(** [m] keeps [P]: from a state satisfying [P], whatever [m] returns
    or throws, the state it leaves satisfies [P]. *)
Definition st_keeps {S A} (P : S -> Prop) (m : ST S A) : Prop := forall s, P s -> P (m s).2.

Lemma st_ro_get {S} : st_ro (S:=S) st_get.
Proof. done. Qed.

Section Keeps.
Context {S : Type} (P : S -> Prop).

Lemma st_keeps_ro {A} (m : ST S A) : st_ro m -> st_keeps P m.
Proof. intros Hm s Hs. by rewrite Hm. Qed.

Lemma st_keeps_bind {A B} (m : ST S A) (k : A -> ST S B) :
  st_keeps P m -> (forall a, st_keeps P (k a)) -> st_keeps P (st_bind m k).
Proof. intros Hm Hk. unfold st_keeps. apply (st_bind_preserves P); [exact Hm|]. intros a. apply Hk. Qed.

Lemma st_keeps_catch {A} (m : ST S A) (h : exn -> ST S A) :
  st_keeps P m -> (forall e, st_keeps P (h e)) -> st_keeps P (st_catch m h).
Proof.
  intros Hm Hh s Hs. unfold st_catch. specialize (Hm s Hs).
  destruct (m s) as [[a|e] s']; simpl in *; [done | by apply Hh].
Qed.

Lemma st_keeps_iter {A} (f : A -> ST S unit) l :
  (forall x, st_keeps P (f x)) -> st_keeps P (st_iter f l).
Proof. intros Hf. unfold st_keeps. apply (st_iter_preserves P). intros x. apply Hf. Qed.
End Keeps.

(** ** Postconditions of the returned value *)

(** Every value [m] returns normally satisfies [Q]. *)
Definition st_post {S A} (Q : A -> Prop) (m : ST S A) : Prop :=
  forall s a s', m s = (Ret a, s') -> Q a.

Section Post.
Context {S : Type}.

Lemma st_post_ret {A} (Q : A -> Prop) (a : A) : Q a -> st_post (S:=S) Q (st_ret a).
Proof. intros Ha s b s' [= <- _]. done. Qed.

Lemma st_post_throw {A} (Q : A -> Prop) e : st_post (S:=S) Q (st_throw e).
Proof. by intros s b s'. Qed.

Lemma st_post_bind {A B} (Q : B -> Prop) (m : ST S A) (k : A -> ST S B) :
  (forall a, st_post Q (k a)) -> st_post Q (st_bind m k).
Proof. intros Hk s b s'' (a & s' & _ & H)%st_bind_ret_inv. exact (Hk a s' b s'' H). Qed.

Lemma st_post_catch {A} (Q : A -> Prop) (m : ST S A) (h : exn -> ST S A) :
  st_post Q m -> (forall e, st_post Q (h e)) -> st_post Q (st_catch m h).
Proof.
  intros Hm Hh s b s'' [H | (e & s' & _ & H)]%st_catch_ret_inv; [exact (Hm _ _ _ H) | exact (Hh e _ _ _ H)].
Qed.
End Post.

(** Split a computation into its returning branches. *)
Ltac st_post_step :=
  match goal with
  | |- forall _, _ => intros
  | |- st_post _ (st_bind _ _) => apply st_post_bind
  | |- st_post _ (st_catch _ _) => apply st_post_catch
  | |- st_post _ (st_throw _) => apply st_post_throw
  | |- st_post _ (st_ret _) => apply st_post_ret
  | |- st_post _ (if ?b then _ else _) => destruct b
  | |- st_post _ (match ?x with _ => _ end) => destruct x
  end.

Ltac post := cbv zeta; repeat st_post_step.

(** ** Relations between the states before and after

    [st_rel R m]: whatever [m] does, its final state is related to its
    initial one by the preorder [R] (for instance: the file system only
    grows).  Unlike [st_keeps], this holds on the throwing paths too. *)
Definition st_rel {S A} (R : relation S) (m : ST S A) : Prop := forall s, R s (m s).2.

Section Rel.
Context {S : Type} (R : relation S) `{!PreOrder R}.

Lemma st_rel_ro {A} (m : ST S A) : st_ro m -> st_rel R m.
Proof. intros Hm s. rewrite Hm. simpl. reflexivity. Qed.

Lemma st_rel_bind {A B} (m : ST S A) (k : A -> ST S B) :
  st_rel R m -> (forall a, st_rel R (k a)) -> st_rel R (st_bind m k).
Proof.
  intros Hm Hk s. specialize (Hm s). unfold st_bind.
  destruct (m s) as [[a|e] s']; simpl in *; [|done]. etrans; [exact Hm | apply Hk].
Qed.

(** A bind whose continuation is only related for the values [m]
    returns. *)
Lemma st_rel_bind_post {A B} (Q : A -> Prop) (m : ST S A) (k : A -> ST S B) :
  st_rel R m -> st_post Q m -> (forall a, Q a -> st_rel R (k a)) -> st_rel R (st_bind m k).
Proof.
  intros Hm HQ Hk s. specialize (Hm s). unfold st_bind.
  destruct (m s) as [[a|e] s'] eqn:E; simpl in *; [|done].
  etrans; [exact Hm | apply Hk, (HQ s a s' E)].
Qed.

Lemma st_rel_catch {A} (m : ST S A) (h : exn -> ST S A) :
  st_rel R m -> (forall e, st_rel R (h e)) -> st_rel R (st_catch m h).
Proof.
  intros Hm Hh s. specialize (Hm s). unfold st_catch.
  destruct (m s) as [[a|e] s']; simpl in *; [done|]. etrans; [exact Hm | apply Hh].
Qed.

Lemma st_rel_iter {A} (f : A -> ST S unit) l :
  (forall x, st_rel R (f x)) -> st_rel R (st_iter f l).
Proof.
  intros Hf. induction l as [|x l IH]; simpl; [apply st_rel_ro; done|].
  apply st_rel_bind; auto.
Qed.
End Rel.

(** One step of a proof of [st_rel]; the leaves are left to the hint
    database [renderer] and to the caller. *)
Ltac st_rel_step :=
  match goal with
  | |- forall _, _ => intros
  | |- PreOrder _ => apply _
  | |- st_rel _ (st_bind _ _) => apply st_rel_bind
  | |- st_rel _ (st_catch _ _) => apply st_rel_catch
  | |- st_rel _ (st_iter _ _) => apply st_rel_iter
  | |- st_rel _ (if ?b then _ else _) => destruct b
  | |- st_rel _ (match ?x with _ => _ end) => destruct x
  | |- st_rel _ _ => apply st_rel_ro; first [solve [apply _] | solve [auto 10 with renderer]]
  end.

Ltac rel := cbv zeta; repeat first [solve [eauto with renderer] | st_rel_step].

Create HintDb renderer discriminated.
#[export] Hint Resolve st_ro_ret st_ro_throw st_ro_lift st_ro_bind st_ro_catch st_ro_get : renderer.

(** One step of a proof that a computation keeps an invariant: split
    binds, handlers and loops, and case on the branches of the code. *)
Ltac st_keeps_step :=
  match goal with
  | |- forall _, _ => intros
  | |- st_keeps _ (st_bind _ _) => apply st_keeps_bind
  | |- st_keeps _ (st_catch _ _) => apply st_keeps_catch
  | |- st_keeps _ (st_iter _ _) => apply st_keeps_iter
  | |- st_keeps _ (if ?b then _ else _) => destruct b
  | |- st_keeps _ (match ?x with _ => _ end) => destruct x
  | |- st_keeps _ _ => apply st_keeps_ro; solve [auto 10 with renderer]
  end.

Ltac keeps := cbv zeta; repeat first [solve [eauto with renderer] | st_keeps_step].
Create Rewrite HintDb renderer_rw.
#[export] Hint Rewrite @st_bind_ret_l @st_bind_assoc @st_bind_throw : renderer_rw.

(** Run the monad on a concrete computation: unfold the combinators
    and the [let*] binds, and simplify. *)
Ltac st_simpl :=
  repeat (unfold st_bind, st_ret, st_throw, st_get, st_put, st_modify,
            st_lift, st_catch, out_bind in *; simpl in *).

(** Close a decidable side condition on concrete data by evaluation. *)
Ltac by_decide := apply (bool_decide_unpack _); vm_compute; reflexivity.

(** ** Strings *)

(** stdpp makes [String.append] [simpl never]; this is its step. *)
Lemma str_app_cons x (a b : string) :
  String.append (String x a) b = String x (String.append a b).
Proof. reflexivity. Qed.

Lemma str_app_nil_l (b : string) : String.append "" b = b.
Proof. reflexivity. Qed.

#[export] Hint Rewrite str_app_cons str_app_nil_l : renderer_rw.

Lemma str_app_assoc (a b c : string) :
  String.append a (String.append b c) = String.append (String.append a b) c.
Proof. induction a as [|x a IH]; [done|]. rewrite !str_app_cons. by rewrite IH. Qed.

Lemma str_app_nil_r (a : string) : String.append a "" = a.
Proof. induction a as [|x a IH]; [done|]. rewrite !str_app_cons. by rewrite IH. Qed.

Lemma str_app_length (a b : string) :
  String.length (String.append a b) = String.length a + String.length b.
Proof. induction a as [|x a IH]; [done|]. rewrite !str_app_cons. simpl. by rewrite IH. Qed.

Lemma str_app_inj_l (a b c : string) :
  String.append a b = String.append a c -> b = c.
Proof. induction a as [|x a IH]; [done|]. rewrite !str_app_cons. intros H. injection H. auto. Qed.

#[export] Hint Rewrite str_app_nil_r : renderer_rw.

(** [s] starts with the character [c]. *)
Definition str_head (s : string) : option Ascii.ascii :=
  match s with
  | EmptyString => None
  | String c _ => Some c
  end.

Lemma str_head_app_l (a b : string) c :
  str_head a = Some c -> str_head (String.append a b) = Some c.
Proof. by destruct a. Qed.

(** [str_starts p s]: [p] is a prefix of [s] ([s.startsWith(p)]). *)
Fixpoint str_starts (p s : string) : bool :=
  match p, s with
  | EmptyString, _ => true
  | String c p', String d s' => bool_decide (c = d) && str_starts p' s'
  | String _ _, EmptyString => false
  end.

Lemma str_starts_app (p s : string) : str_starts p (String.append p s) = true.
Proof. induction p as [|c p IH]; [done|]. rewrite str_app_cons. simpl. rewrite IH. by case_bool_decide. Qed.

Lemma str_starts_spec (p s : string) :
  str_starts p s = true <-> exists r, s = String.append p r.
Proof.
  split.
  - revert s. induction p as [|c p IH]; intros [|d s]; simpl; try done.
    + intros _. by exists "".
    + intros _. by exists (String d s).
    + intros [Hcd%bool_decide_eq_true Hs]%andb_prop. subst.
      destruct (IH s Hs) as [r ->]. by exists r.
  - intros [r ->]. apply str_starts_app.
Qed.

(** ** Lists *)

(** [list.includes(x)] on a list of strings. *)
Definition includes (l : list string) (x : string) : bool := bool_decide (x ∈ l).

Lemma includes_spec l x : includes l x = true <-> x ∈ l.
Proof. unfold includes. by rewrite bool_decide_eq_true. Qed.

Lemma includes_false l x : includes l x = false <-> x ∉ l.
Proof. unfold includes. by rewrite bool_decide_eq_false. Qed.

#[export] Hint Resolve -> includes_spec : renderer.
#[export] Hint Resolve <- includes_spec : renderer.
