(* ===== verification/Json.v ===== *)
(** * Json: JSON values, the JavaScript object operations the code uses,
    [JSON.stringify(v, null, 2)] and [JSON.parse]

    The cache file [_metadata.json] (optimizer.ts, class [Cache]) and the
    [package.json] manifests read by the optimizer are JSON documents.
    This file models:
    - [json], the values [JSON.parse] produces (numbers are integers:
      the only number the code writes is [Date.now()]);
    - the JavaScript operations the code applies to them: property access
      [v.k] ([get_field], which throws a [TypeError] on [null]),
      [Object.entries] ([js_entries]), object spread [{...v}]
      ([js_spread]) and computed-key assignment ([obj_set]);
    - the printer of [JSON.stringify(v, null, 2)] ([json_stringify]) and
      the parser of [JSON.parse] ([json_parse]), with the round trip
      [json_parse (json_stringify v) = Some v] for every value whose
      objects have distinct keys. *)

From S2P Require Import Prelude.
Local Open Scope string_scope.

(** ** Values *)

Inductive json :=
  | JNull
  | JBool (b : bool)
  | JNum (n : Z)
  | JStr (s : string)
  | JArr (l : list json)
  | JObj (kvs : list (string * json)).

#[export] Instance json_eq_dec : EqDecision json.
Proof.
  refine (
    fix go (x y : json) : Decision (x = y) :=
      let _ : EqDecision json := go in
      match x, y with
      | JNull, JNull => left _
      | JBool a, JBool b => cast_if (decide (a = b))
      | JNum a, JNum b => cast_if (decide (a = b))
      | JStr a, JStr b => cast_if (decide (a = b))
      | JArr a, JArr b => cast_if (decide (a = b))
      | JObj a, JObj b => cast_if (decide (a = b))
      | _, _ => right _
      end); abstract congruence.
Defined.

(** The nested induction principle (the generated one has no hypothesis
    for the elements of the lists). *)
Section JsonInd.
Context (P : json -> Prop)
  (Pnull : P JNull) (Pbool : forall b, P (JBool b)) (Pnum : forall n, P (JNum n))
  (Pstr : forall s, P (JStr s))
  (Parr : forall l, Forall P l -> P (JArr l))
  (Pobj : forall kvs, Forall (fun kv => P kv.2) kvs -> P (JObj kvs)).

Fixpoint json_ind' (v : json) : P v :=
  match v with
  | JNull => Pnull
  | JBool b => Pbool b
  | JNum n => Pnum n
  | JStr s => Pstr s
  | JArr l =>
      Parr l ((fix go (l : list json) : Forall P l :=
                 match l with
                 | [] => Forall_nil_2 _
                 | x :: l' => Forall_cons_2 _ _ _ (json_ind' x) (go l')
                 end) l)
  | JObj kvs =>
      Pobj kvs ((fix go (kvs : list (string * json)) : Forall (fun kv => P kv.2) kvs :=
                   match kvs with
                   | [] => Forall_nil_2 _
                   | kv :: kvs' => Forall_cons_2 _ _ _ (json_ind' kv.2) (go kvs')
                   end) kvs)
  end.
End JsonInd.

(** ** Object operations *)

(** [o[k] = v] on an object with keys [kvs]: an existing key keeps its
    position and gets the new value, a new key is appended. *)
Fixpoint obj_set (kvs : list (string * json)) (k : string) (v : json) : list (string * json) :=
  match kvs with
  | [] => [(k, v)]
  | (k', v') :: kvs' => if decide (k = k') then (k, v) :: kvs' else (k', v') :: obj_set kvs' k v
  end.

(** [o[k]] on an object: the first binding of [k]. *)
Fixpoint obj_get (kvs : list (string * json)) (k : string) : option json :=
  match kvs with
  | [] => None
  | (k', v') :: kvs' => if decide (k = k') then Some v' else obj_get kvs' k
  end.

(** Distinct keys: what a JavaScript object always has. *)
Definition keys_nodup (kvs : list (string * json)) : Prop := NoDup kvs.*1.

(** Every object inside the value has distinct keys. *)
Fixpoint json_wf (v : json) : Prop :=
  match v with
  | JArr l => (fix go (l : list json) : Prop :=
                 match l with [] => True | x :: l' => json_wf x /\ go l' end) l
  | JObj kvs => keys_nodup kvs /\
      (fix go (kvs : list (string * json)) : Prop :=
         match kvs with [] => True | kv :: kvs' => json_wf kv.2 /\ go kvs' end) kvs
  | _ => True
  end.

(** ** Numbers: [String(n)] for an integer [n] *)

Definition digit_char (d : N) : Ascii.ascii := Ascii.ascii_of_N (48 + d).

(** Decimal digits, least significant first; [fuel] bounds the number
    of digits. *)
Fixpoint N_digits_rev (fuel : nat) (n : N) : list N :=
  match fuel with
  | O => [n]
  | S f => if (n <? 10)%N then [n] else (n mod 10)%N :: N_digits_rev f (n / 10)%N
  end.

Definition N_digits (n : N) : list N := rev (N_digits_rev (N.to_nat (N.size n)) n).

Fixpoint chars_of (l : list Ascii.ascii) : string :=
  match l with [] => "" | c :: l' => String c (chars_of l') end.

Definition N_to_dec (n : N) : string := chars_of (digit_char <$> N_digits n).

Definition Z_to_dec (z : Z) : string :=
  match z with
  | Zneg p => String "-"%char (N_to_dec (Npos p))
  | _ => N_to_dec (Z.to_N z)
  end.

Definition nat_to_dec (n : nat) : string := N_to_dec (N.of_nat n).

(** ** [Object.entries] and object spread *)

Fixpoint index_entries {A} (i : nat) (l : list A) : list (string * A) :=
  match l with
  | [] => []
  | x :: l' => (nat_to_dec i, x) :: index_entries (S i) l'
  end.

Fixpoint str_chars (s : string) : list json :=
  match s with
  | EmptyString => []
  | String c s' => JStr (String c "") :: str_chars s'
  end.

(** The own enumerable properties of a value, as [{...v}] sees them:
    [null], booleans and numbers have none, a string has its characters
    under their indices, an array its elements. *)
Definition js_spread (v : json) : list (string * json) :=
  match v with
  | JObj kvs => kvs
  | JArr l => index_entries 0 l
  | JStr s => index_entries 0 (str_chars s)
  | _ => []
  end.

(** [Object.entries(v)]: the same list, but [null] throws. *)
Definition js_entries (v : json) : outcome (list (string * json)) :=
  match v with
  | JNull => Exn (TypeError "Cannot convert undefined or null to object")
  | _ => Ret (js_spread v)
  end.

(** [v.k], with [None] for [undefined].  Arrays, strings, numbers and
    booleans have none of the property names the code reads
    ([optimized], [hash], [type]). *)
Definition get_field (v : json) (k : string) : outcome (option json) :=
  match v with
  | JNull => Exn (TypeError ("Cannot read properties of null (reading '" +:+ k +:+ "')"))
  | JObj kvs => Ret (obj_get kvs k)
  | _ => Ret None
  end.

(** [const { k = {} } = v]: the default applies to [undefined] only. *)
Definition destructure_default (v : json) (k : string) : outcome json :=
  match get_field v k with
  | Exn e => Exn e
  | Ret None => Ret (JObj [])
  | Ret (Some x) => Ret x
  end.

(** ** [JSON.stringify(v, null, 2)] *)

Definition dq : Ascii.ascii := "034"%char.
Definition bsl : Ascii.ascii := "092"%char.
Definition nl : string := String "010"%char "".

Definition hex_char (d : N) : Ascii.ascii :=
  if (d <? 10)%N then Ascii.ascii_of_N (48 + d) else Ascii.ascii_of_N (87 + d).

(** QuoteJSONString for one character. *)
Definition escape_char (c : Ascii.ascii) : string :=
  if decide (c = dq) then String bsl (String dq "")
  else if decide (c = bsl) then String bsl (String bsl "")
  else if decide (c = "008"%char) then String bsl "b"
  else if decide (c = "012"%char) then String bsl "f"
  else if decide (c = "010"%char) then String bsl "n"
  else if decide (c = "013"%char) then String bsl "r"
  else if decide (c = "009"%char) then String bsl "t"
  else if (Ascii.N_of_ascii c <? 32)%N then
    String bsl (String "u"%char (String "0"%char (String "0"%char
      (String (hex_char (Ascii.N_of_ascii c / 16)) (String (hex_char (Ascii.N_of_ascii c mod 16)) "")))))
  else String c "".

Fixpoint escape (s : string) : string :=
  match s with
  | EmptyString => ""
  | String c s' => escape_char c +:+ escape s'
  end.

Definition quote (s : string) : string := String dq (escape s +:+ String dq "").

(** The pretty printer: one member per line, indented by two spaces per
    level; empty arrays and objects print as [[]] and [{}]. *)
Fixpoint ser (ind : string) (v : json) : string :=
  let ind' := ind +:+ "  " in
  match v with
  | JNull => "null"
  | JBool true => "true"
  | JBool false => "false"
  | JNum n => Z_to_dec n
  | JStr s => quote s
  | JArr [] => "[]"
  | JArr (x :: l) =>
      "[" +:+ nl +:+ ind' +:+ ser ind' x +:+
      (fix go (l : list json) : string :=
         match l with
         | [] => ""
         | y :: l' => "," +:+ nl +:+ ind' +:+ ser ind' y +:+ go l'
         end) l +:+ nl +:+ ind +:+ "]"
  | JObj [] => "{}"
  | JObj ((k, x) :: kvs) =>
      "{" +:+ nl +:+ ind' +:+ quote k +:+ ": " +:+ ser ind' x +:+
      (fix go (kvs : list (string * json)) : string :=
         match kvs with
         | [] => ""
         | (k', y) :: kvs' => "," +:+ nl +:+ ind' +:+ quote k' +:+ ": " +:+ ser ind' y +:+ go kvs'
         end) kvs +:+ nl +:+ ind +:+ "}"
  end.

Definition json_stringify (v : json) : string := ser "" v.

(** ** [JSON.parse]

    A recursive-descent parser for the JSON grammar, with numbers
    restricted to integers (a fraction or an exponent is a parse
    failure) and [\uXXXX] escapes restricted to code units below 256
    (the model's strings are byte strings).  Objects are built with
    [obj_set], so a repeated key keeps its first position and takes its
    last value, as [JSON.parse] does.  [pv], [pelems] and [pmembers]
    parse a value, the rest of an array and the rest of an object; each
    call spends one unit of [fuel]. *)

Definition is_ws (c : Ascii.ascii) : bool :=
  bool_decide (c = " "%char \/ c = "009"%char \/ c = "010"%char \/ c = "013"%char).

Fixpoint skip_ws (s : string) : string :=
  match s with
  | EmptyString => EmptyString
  | String c s' => if is_ws c then skip_ws s' else s
  end.

Definition digit_val (c : Ascii.ascii) : option N :=
  let n := Ascii.N_of_ascii c in
  if (48 <=? n)%N && (n <=? 57)%N then Some (n - 48)%N else None.

Fixpoint parse_digits (s : string) (acc : N) : N * string :=
  match s with
  | EmptyString => (acc, EmptyString)
  | String c s' =>
      match digit_val c with
      | Some d => parse_digits s' (10 * acc + d)%N
      | None => (acc, s)
      end
  end.

(** [0] or a nonzero digit followed by digits. *)
Definition parse_uint (s : string) : option (N * string) :=
  match s with
  | EmptyString => None
  | String c s' =>
      match digit_val c with
      | Some 0%N => Some (0%N, s')
      | Some d => Some (parse_digits s' d)
      | None => None
      end
  end.

Definition frac_or_exp (s : string) : bool :=
  match s with
  | String c _ => bool_decide (c = "."%char \/ c = "e"%char \/ c = "E"%char)
  | EmptyString => false
  end.

Definition parse_number (s : string) : option (Z * string) :=
  let '(neg, s') := match s with
                    | String c s' => if decide (c = "-"%char) then (true, s') else (false, s)
                    | EmptyString => (false, s)
                    end in
  match parse_uint s' with
  | Some (n, r) =>
      if frac_or_exp r then None
      else Some (if neg then (- Z.of_N n)%Z else Z.of_N n, r)
  | None => None
  end.

Definition hex_val (c : Ascii.ascii) : option N :=
  let n := Ascii.N_of_ascii c in
  if (48 <=? n)%N && (n <=? 57)%N then Some (n - 48)%N
  else if (97 <=? n)%N && (n <=? 102)%N then Some (n - 87)%N
  else if (65 <=? n)%N && (n <=? 70)%N then Some (n - 55)%N
  else None.

(** The code unit of [\uXXXX], when it is below 256. *)
Definition hex4 (a b c d : Ascii.ascii) : option Ascii.ascii :=
  match hex_val a, hex_val b, hex_val c, hex_val d with
  | Some x, Some y, Some z, Some w =>
      let n := (((x * 16 + y) * 16 + z) * 16 + w)%N in
      if (n <? 256)%N then Some (Ascii.ascii_of_N n) else None
  | _, _, _, _ => None
  end.

Definition simple_escape (e : Ascii.ascii) : option Ascii.ascii :=
  if decide (e = dq) then Some dq
  else if decide (e = bsl) then Some bsl
  else if decide (e = "/"%char) then Some "/"%char
  else if decide (e = "b"%char) then Some "008"%char
  else if decide (e = "f"%char) then Some "012"%char
  else if decide (e = "n"%char) then Some "010"%char
  else if decide (e = "r"%char) then Some "013"%char
  else if decide (e = "t"%char) then Some "009"%char
  else None.

Definition cons_str (c : Ascii.ascii) (o : option (string * string)) : option (string * string) :=
  match o with
  | Some (t, r) => Some (String c t, r)
  | None => None
  end.

(** The body of a string literal, after its opening quote. *)
Fixpoint parse_str (s : string) : option (string * string) :=
  match s with
  | EmptyString => None
  | String c s' =>
      if decide (c = dq) then Some (EmptyString, s')
      else if decide (c = bsl) then
        match s' with
        | EmptyString => None
        | String e r =>
            if decide (e = "u"%char) then
              match r with
              | String h1 (String h2 (String h3 (String h4 r'))) =>
                  match hex4 h1 h2 h3 h4 with
                  | Some ch => cons_str ch (parse_str r')
                  | None => None
                  end
              | _ => None
              end
            else match simple_escape e with
                 | Some ch => cons_str ch (parse_str r)
                 | None => None
                 end
        end
      else if (Ascii.N_of_ascii c <? 32)%N then None
      else cons_str c (parse_str s')
  end.

(** [str_strip_prefix p s = Some r] when [s = p ++ r]. *)
Fixpoint str_strip_prefix (p s : string) : option string :=
  match p, s with
  | EmptyString, _ => Some s
  | String c p', String d s' => if decide (c = d) then str_strip_prefix p' s' else None
  | String _ _, EmptyString => None
  end.

Fixpoint pv (fuel : nat) (s : string) {struct fuel} : option (json * string) :=
  match fuel with
  | O => None
  | S f =>
      let s0 := skip_ws s in
      match str_strip_prefix "null" s0 with Some r => Some (JNull, r) | None =>
      match str_strip_prefix "true" s0 with Some r => Some (JBool true, r) | None =>
      match str_strip_prefix "false" s0 with Some r => Some (JBool false, r) | None =>
      match s0 with
      | EmptyString => None
      | String c r =>
          if decide (c = dq) then
            match parse_str r with Some (t, r') => Some (JStr t, r') | None => None end
          else if decide (c = "["%char) then
            match skip_ws r with
            | String c' r' => if decide (c' = "]"%char) then Some (JArr [], r') else pelems f [] r
            | EmptyString => None
            end
          else if decide (c = "{"%char) then
            match skip_ws r with
            | String c' r' => if decide (c' = "}"%char) then Some (JObj [], r') else pmembers f [] r
            | EmptyString => None
            end
          else match parse_number s0 with Some (n, r') => Some (JNum n, r') | None => None end
      end end end end
  end
with pelems (fuel : nat) (acc : list json) (s : string) {struct fuel} : option (json * string) :=
  match fuel with
  | O => None
  | S f =>
      match pv f s with
      | None => None
      | Some (v, r) =>
          match skip_ws r with
          | String c r' =>
              if decide (c = ","%char) then pelems f (acc ++ [v]) r'
              else if decide (c = "]"%char) then Some (JArr (acc ++ [v]), r')
              else None
          | EmptyString => None
          end
      end
  end
with pmembers (fuel : nat) (acc : list (string * json)) (s : string) {struct fuel}
    : option (json * string) :=
  match fuel with
  | O => None
  | S f =>
      match skip_ws s with
      | String c r =>
          if decide (c = dq) then
            match parse_str r with
            | None => None
            | Some (k, r1) =>
                match skip_ws r1 with
                | String c1 r2 =>
                    if decide (c1 = ":"%char) then
                      match pv f r2 with
                      | None => None
                      | Some (v, r3) =>
                          match skip_ws r3 with
                          | String c3 r4 =>
                              if decide (c3 = ","%char) then pmembers f (obj_set acc k v) r4
                              else if decide (c3 = "}"%char) then Some (JObj (obj_set acc k v), r4)
                              else None
                          | EmptyString => None
                          end
                      end
                    else None
                | EmptyString => None
                end
            end
          else None
      | EmptyString => None
      end
  end.

(** A document is one value, surrounded by whitespace.  Every call
    chain consumes a character at least every second call, so
    [2 * length + 1] units of fuel parse every document. *)
Definition json_parse (s : string) : option json :=
  match pv (2 * String.length s + 1) s with
  | Some (v, r) => if decide (skip_ws r = EmptyString) then Some v else None
  | None => None
  end.

(** ** The round trip [json_parse (json_stringify v) = Some v] *)

(** *** Numbers *)

Definition digits_value (ds : list N) (acc : N) : N :=
  fold_left (fun a d => (10 * a + d)%N) ds acc.

Lemma N_digits_rev_value fuel n :
  digits_value (rev (N_digits_rev fuel n)) 0 = n.
Proof.
  revert n. induction fuel as [|f IH]; intros n; simpl; [done|].
  destruct (n <? 10)%N; [done|]. unfold digits_value in *.
  cbn [rev]. rewrite fold_left_app, IH. simpl. pose proof (N.div_mod n 10). lia.
Qed.

Lemma N_digits_rev_bound fuel n :
  (n < 10 ^ N.of_nat fuel)%N -> Forall (fun d => d < 10)%N (N_digits_rev fuel n).
Proof.
  revert n. induction fuel as [|f IH]; intros n Hn; simpl.
  - simpl in Hn. constructor; [lia | constructor].
  - destruct (N.ltb_spec n 10); [constructor; [lia | constructor]|].
    constructor; [apply N.mod_lt; lia|]. apply IH.
    apply N.Private_NDivProp.div_lt_upper_bound; [lia|].
    rewrite Nat2N.inj_succ, N.pow_succ_r' in Hn. lia.
Qed.

Lemma N_digits_rev_last fuel n :
  (0 < n)%N -> exists ds d, N_digits_rev fuel n = (ds ++ [d])%list /\ (0 < d)%N.
Proof.
  revert n. induction fuel as [|f IH]; intros n Hn; simpl.
  - by exists [], n.
  - destruct (N.ltb_spec n 10); [by exists [], n|].
    destruct (IH (n / 10)%N) as (ds & d & -> & Hd).
    { apply N.div_str_pos. lia. }
    by exists ((n mod 10)%N :: ds), d.
Qed.

Lemma N_digits_bound n : Forall (fun d => d < 10)%N (N_digits n).
Proof.
  unfold N_digits. apply Forall_rev, N_digits_rev_bound.
  rewrite N2Nat.id. pose proof (N.size_gt n).
  assert (2 ^ N.size n <= 10 ^ N.size n)%N by (apply N.pow_le_mono_l; lia). lia.
Qed.

Lemma digit_val_digit_char d : (d < 10)%N -> digit_val (digit_char d) = Some d.
Proof.
  intros Hd. unfold digit_val, digit_char.
  rewrite N_ascii_embedding by lia.
  replace ((48 <=? 48 + d)%N && (48 + d <=? 57)%N) with true
    by (symmetry; apply andb_true_intro; split; apply N.leb_le; lia).
  f_equal. lia.
Qed.

(** What may follow a value in a printed document. *)
Definition delim (r : string) : Prop :=
  match r with
  | EmptyString => True
  | String c _ => c ∈ [","; "]"; "}"; " "; "009"; "010"; "013"]%char
  end.

Lemma delim_digit r : delim r -> match r with String c _ => digit_val c = None | _ => True end.
Proof. destruct r as [|c r]; [done|]. simpl. intros Hc. by repeat (inversion Hc as [|? ? ? Hc']; subst; clear Hc; try rename Hc' into Hc). Qed.

Lemma delim_frac r : delim r -> frac_or_exp r = false.
Proof. destruct r as [|c r]; [done|]. simpl. intros Hc. by repeat (inversion Hc as [|? ? ? Hc']; subst; clear Hc; try rename Hc' into Hc). Qed.

Lemma parse_digits_chars ds acc r :
  Forall (fun d => d < 10)%N ds -> delim r ->
  parse_digits (chars_of (digit_char <$> ds) +:+ r) acc = (digits_value ds acc, r).
Proof.
  intros Hds Hr. revert acc. induction Hds as [|d ds Hd Hds IH]; intros acc; simpl.
  - pose proof (delim_digit r Hr). destruct r as [|c r]; simpl; [done|].
    match goal with H : digit_val c = None |- _ => by rewrite H end.
  - rewrite ?str_app_cons. simpl. rewrite digit_val_digit_char by done. apply IH.
Qed.

Lemma parse_uint_dec n r : delim r -> parse_uint (N_to_dec n +:+ r) = Some (n, r).
Proof.
  intros Hr. unfold N_to_dec. pose proof (N_digits_bound n) as Hb.
  destruct (N.eq_dec n 0) as [->|Hn].
  - reflexivity.
  - unfold N_digits in *.
    destruct (N_digits_rev_last (N.to_nat (N.size n)) n) as (ds & d & Hds & Hd); [lia|].
    pose proof (N_digits_rev_value (N.to_nat (N.size n)) n) as Hv.
    rewrite Hds, rev_app_distr in *. simpl in *.
    apply Forall_cons in Hb as [Hd10 Hb].
    rewrite ?str_app_cons. simpl. rewrite digit_val_digit_char by done.
    destruct d as [|p]; [lia|]. rewrite parse_digits_chars by done. by rewrite <- Hv.
Qed.

Lemma N_to_dec_head n : exists d t, N_to_dec n = String (digit_char d) t /\ (d < 10)%N.
Proof.
  unfold N_to_dec. pose proof (N_digits_bound n) as Hb.
  destruct (N.eq_dec n 0) as [->|Hn]; [by exists 0%N, ""|].
  unfold N_digits in *.
  destruct (N_digits_rev_last (N.to_nat (N.size n)) n) as (ds & d & Hds & _); [lia|].
  rewrite Hds, rev_app_distr in *. simpl in *. apply Forall_cons in Hb as [Hd _].
  by eexists _, _.
Qed.

Lemma digit_char_not_minus d : (d < 10)%N -> digit_char d <> "-"%char.
Proof.
  intros Hd Heq. apply (f_equal Ascii.N_of_ascii) in Heq. unfold digit_char in Heq.
  rewrite N_ascii_embedding in Heq by lia. simpl in Heq. lia.
Qed.

Lemma parse_number_N n r : delim r -> parse_number (N_to_dec n +:+ r) = Some (Z.of_N n, r).
Proof.
  intros Hr. destruct (N_to_dec_head n) as (d & t & Ht & Hd).
  unfold parse_number. rewrite Ht, str_app_cons.
  rewrite decide_False by (by apply digit_char_not_minus).
  rewrite <- str_app_cons, <- Ht, parse_uint_dec, delim_frac by done. done.
Qed.

Lemma parse_number_dec z r : delim r -> parse_number (Z_to_dec z +:+ r) = Some (z, r).
Proof.
  intros Hr. destruct z as [|p|p].
  - apply (parse_number_N 0 r Hr).
  - apply (parse_number_N (N.pos p) r Hr).
  - unfold Z_to_dec, parse_number. rewrite str_app_cons. simpl.
    rewrite parse_uint_dec, delim_frac by done. done.
Qed.

(** *** Strings and whitespace *)

Lemma parse_str_escape_char c t :
  parse_str (escape_char c +:+ t) = cons_str c (parse_str t).
Proof. destruct c as [[] [] [] [] [] [] [] []]; reflexivity. Qed.

Lemma parse_str_escape s r : parse_str (escape s +:+ String dq r) = Some (s, r).
Proof.
  induction s as [|c s IH]; [reflexivity|].
  cbn [escape]. rewrite <- str_app_assoc, parse_str_escape_char, IH. reflexivity.
Qed.

Fixpoint all_ws (s : string) : bool :=
  match s with
  | EmptyString => true
  | String c s' => is_ws c && all_ws s'
  end.

Lemma skip_ws_app w s : all_ws w = true -> skip_ws (w +:+ s) = skip_ws s.
Proof.
  induction w as [|c w IH]; [done|]. simpl. intros [-> Hw]%andb_prop. by apply IH.
Qed.

Lemma all_ws_app w w' : all_ws w = true -> all_ws w' = true -> all_ws (w +:+ w') = true.
Proof.
  induction w as [|c w IH]; [done|]. simpl. intros [-> Hw]%andb_prop Hw'. by apply IH.
Qed.

Lemma all_ws_indent ind : all_ws ind = true -> all_ws (ind +:+ "  ") = true.
Proof. intros H. by apply all_ws_app. Qed.

Lemma skip_ws_idem s : skip_ws (skip_ws s) = skip_ws s.
Proof.
  induction s as [|c s IH]; [done|]. simpl. destruct (is_ws c) eqn:E; [done|].
  simpl. by rewrite E.
Qed.

Lemma skip_ws_nonws c t : is_ws c = false -> skip_ws (String c t) = String c t.
Proof. simpl. by intros ->. Qed.

Lemma pv_skip_ws f s : pv f s = pv f (skip_ws s).
Proof. destruct f; [done|]. simpl. by rewrite skip_ws_idem. Qed.

Lemma pv_ws f w s : all_ws w = true -> pv f (w +:+ s) = pv f s.
Proof. intros Hw. by rewrite pv_skip_ws, skip_ws_app, <- pv_skip_ws. Qed.

Lemma pmembers_ws f acc w s : all_ws w = true -> pmembers f acc (w +:+ s) = pmembers f acc s.
Proof.
  intros Hw. destruct f; [done|]. simpl. rewrite skip_ws_app by done.
  destruct (skip_ws s) eqn:E; [done|]. reflexivity.
Qed.

(** *** Shapes of the printed text *)

Definition ser_elems (ind : string) : list json -> string :=
  fix go (l : list json) : string :=
    match l with
    | [] => ""
    | y :: l' => "," +:+ nl +:+ ind +:+ ser ind y +:+ go l'
    end.

Definition ser_members (ind : string) : list (string * json) -> string :=
  fix go (kvs : list (string * json)) : string :=
    match kvs with
    | [] => ""
    | (k', y) :: kvs' => "," +:+ nl +:+ ind +:+ quote k' +:+ ": " +:+ ser ind y +:+ go kvs'
    end.

Lemma ser_arr_cons ind x l :
  ser ind (JArr (x :: l)) =
  "[" +:+ nl +:+ (ind +:+ "  ") +:+ ser (ind +:+ "  ") x +:+ ser_elems (ind +:+ "  ") l
      +:+ nl +:+ ind +:+ "]".
Proof. reflexivity. Qed.

Lemma ser_obj_cons ind k x kvs :
  ser ind (JObj ((k, x) :: kvs)) =
  "{" +:+ nl +:+ (ind +:+ "  ") +:+ quote k +:+ ": " +:+ ser (ind +:+ "  ") x
      +:+ ser_members (ind +:+ "  ") kvs +:+ nl +:+ ind +:+ "}".
Proof. reflexivity. Qed.

Lemma ser_elems_cons ind y l :
  ser_elems ind (y :: l) = "," +:+ nl +:+ ind +:+ ser ind y +:+ ser_elems ind l.
Proof. reflexivity. Qed.

Lemma ser_elems_cons_app ind y l t :
  ser_elems ind (y :: l) +:+ t = "," +:+ nl +:+ ind +:+ ser ind y +:+ ser_elems ind l +:+ t.
Proof. by rewrite ser_elems_cons, <- !str_app_assoc. Qed.

Lemma ser_members_cons ind k y kvs :
  ser_members ind ((k, y) :: kvs) =
  "," +:+ nl +:+ ind +:+ quote k +:+ ": " +:+ ser ind y +:+ ser_members ind kvs.
Proof. reflexivity. Qed.

Lemma ser_members_cons_app ind k y kvs t :
  ser_members ind ((k, y) :: kvs) +:+ t =
  "," +:+ nl +:+ ind +:+ quote k +:+ ": " +:+ ser ind y +:+ ser_members ind kvs +:+ t.
Proof. by rewrite ser_members_cons, <- !str_app_assoc. Qed.

(** The number of [pv]/[pelems]/[pmembers] calls parsing a value needs. *)
Fixpoint jsize (v : json) : nat :=
  match v with
  | JArr l => S ((fix go (l : list json) : nat :=
                    match l with [] => 0 | x :: l' => S (jsize x + go l') end) l)
  | JObj kvs => S ((fix go (kvs : list (string * json)) : nat :=
                      match kvs with [] => 0 | kv :: kvs' => S (jsize kv.2 + go kvs') end) kvs)
  | _ => 1
  end.

Definition elems_size : list json -> nat :=
  fix go (l : list json) : nat := match l with [] => 0 | x :: l' => S (jsize x + go l') end.

Definition members_size : list (string * json) -> nat :=
  fix go (kvs : list (string * json)) : nat :=
    match kvs with [] => 0 | kv :: kvs' => S (jsize kv.2 + go kvs') end.

Lemma elems_size_cons x l : elems_size (x :: l) = S (jsize x + elems_size l).
Proof. reflexivity. Qed.

Lemma members_size_cons kv kvs : members_size (kv :: kvs) = S (jsize kv.2 + members_size kvs).
Proof. reflexivity. Qed.

Lemma jsize_arr l : jsize (JArr l) = S (elems_size l).
Proof. reflexivity. Qed.

Lemma jsize_obj kvs : jsize (JObj kvs) = S (members_size kvs).
Proof. reflexivity. Qed.

Lemma json_wf_arr l : json_wf (JArr l) <-> Forall json_wf l.
Proof.
  induction l as [|x l IH]; simpl; [split; auto|].
  rewrite Forall_cons. simpl in IH. by rewrite IH.
Qed.

Lemma json_wf_obj kvs :
  json_wf (JObj kvs) <-> keys_nodup kvs /\ Forall (fun kv => json_wf kv.2) kvs.
Proof.
  simpl. apply and_iff_compat_l.
  induction kvs as [|kv kvs IH]; simpl; [split; auto|].
  rewrite Forall_cons. by rewrite IH.
Qed.

(** A printed value starts with a character that is neither whitespace
    nor a closing bracket. *)
Definition value_head (c : Ascii.ascii) : Prop :=
  is_ws c = false /\ c <> "]"%char /\ c <> "}"%char.

Lemma digit_char_head d : (d < 10)%N -> value_head (digit_char d).
Proof.
  intros Hd.
  assert (d = 0 \/ d = 1 \/ d = 2 \/ d = 3 \/ d = 4 \/ d = 5 \/ d = 6 \/ d = 7 \/ d = 8 \/ d = 9)%N
    as Hcases by lia.
  repeat destruct Hcases as [-> | Hcases]; subst; vm_compute; repeat split; discriminate.
Qed.

Lemma ser_head ind v : exists c t, ser ind v = String c t /\ value_head c.
Proof.
  destruct v as [| [] |[|p|p]|s|[|x l]|[|[k x] kvs]]; simpl;
    try (eexists _, _; split; [reflexivity | vm_compute; repeat split; discriminate]).
  destruct (N_to_dec_head (N.pos p)) as (d & t & Ht & Hd). eexists _, _.
  split; [apply Ht|]. by apply digit_char_head.
Qed.

(** *** The parser inverts the printer *)

Definition pv_ok (v : json) : Prop :=
  forall ind r f, json_wf v -> all_ws ind = true -> delim r -> jsize v <= f ->
    pv f (ser ind v +:+ r) = Some (v, r).

Lemma delim_comma s : delim (String ","%char s).
Proof. simpl. set_solver. Qed.

Lemma delim_nl s : delim (nl +:+ s).
Proof. simpl. set_solver. Qed.

Lemma all_ws_nl ind : all_ws ind = true -> all_ws (nl +:+ ind) = true.
Proof. intros H. by apply all_ws_app. Qed.

#[local] Hint Resolve delim_comma delim_nl all_ws_nl all_ws_indent : renderer.

(** A value, preceded by a newline and its indentation. *)
Lemma pv_ser_nl x ind r f :
  pv_ok x -> json_wf x -> all_ws ind = true -> delim r -> jsize x <= f ->
  pv f (nl +:+ ind +:+ ser ind x +:+ r) = Some (x, r).
Proof.
  intros Hx Hwf Hind Hr Hf. rewrite str_app_assoc, pv_ws by auto with renderer. by apply Hx.
Qed.

Ltac rt_side :=
  first [ assumption | by apply all_ws_indent | by apply all_ws_nl | apply delim_nl
        | apply delim_comma
        | rewrite ?elems_size_cons, ?members_size_cons in *; cbn [elems_size members_size snd] in *; lia ].

Lemma pelems_ser ind0 x l acc r f :
  all_ws ind0 = true -> pv_ok x -> Forall pv_ok l -> json_wf x -> Forall json_wf l ->
  delim r -> S (jsize x + elems_size l) <= f ->
  pelems f acc (nl +:+ (ind0 +:+ "  ") +:+ ser (ind0 +:+ "  ") x +:+
                ser_elems (ind0 +:+ "  ") l +:+ nl +:+ ind0 +:+ "]" +:+ r)
  = Some (JArr (acc ++ x :: l), r).
Proof.
  intros Hind0. revert x acc f.
  induction l as [|y l IH]; intros x acc f Hx Hl Hwx Hwl Hr Hf;
    destruct f as [|f]; [lia| |lia|]; cbn [pelems].
  - cbn [ser_elems]. rewrite str_app_nil_l.
    rewrite pv_ser_nl by rt_side.
    rewrite str_app_assoc, skip_ws_app by rt_side. done.
  - apply Forall_cons in Hl as [Hy Hl]. apply Forall_cons in Hwl as [Hwy Hwl].
    rewrite ser_elems_cons_app.
    rewrite pv_ser_nl by rt_side.
    rewrite str_app_cons, str_app_nil_l, skip_ws_nonws by reflexivity.
    rewrite decide_True by done.
    rewrite IH by rt_side.
    by rewrite <- app_assoc.
Qed.

Lemma obj_set_fresh acc k v : k ∉ acc.*1 -> obj_set acc k v = (acc ++ [(k, v)])%list.
Proof.
  induction acc as [|[k' v'] acc IH]; intros Hk; [done|]. simpl in *.
  rewrite decide_False by set_solver. f_equal. apply IH. set_solver.
Qed.

Lemma skip_ws_value c t s : value_head c -> skip_ws (String c t +:+ s) = String c (t +:+ s).
Proof. intros [Hc _]. by rewrite str_app_cons, skip_ws_nonws. Qed.

Lemma pmembers_ser ind0 k x kvs acc r f :
  all_ws ind0 = true -> pv_ok x -> Forall (fun kv => pv_ok kv.2) kvs -> json_wf x ->
  Forall (fun kv => json_wf kv.2) kvs -> NoDup (acc ++ (k, x) :: kvs)%list.*1 ->
  delim r -> S (jsize x + members_size kvs) <= f ->
  pmembers f acc (nl +:+ (ind0 +:+ "  ") +:+ quote k +:+ ": " +:+ ser (ind0 +:+ "  ") x +:+
                  ser_members (ind0 +:+ "  ") kvs +:+ nl +:+ ind0 +:+ "}" +:+ r)
  = Some (JObj (acc ++ (k, x) :: kvs)%list, r).
Proof.
  intros Hind0. revert k x acc f.
  induction kvs as [|[k' y] kvs IH]; intros k x acc f Hx Hl Hwx Hwl Hnd Hr Hf;
    (destruct f as [|f]; [cbn [members_size] in Hf; lia|]);
    rewrite str_app_assoc, pmembers_ws by rt_side; cbn [pmembers];
    unfold quote; rewrite str_app_cons, skip_ws_nonws by reflexivity;
    rewrite decide_True by done;
    rewrite <- str_app_assoc, str_app_cons, str_app_nil_l, parse_str_escape;
    rewrite str_app_cons, skip_ws_nonws by reflexivity; rewrite decide_True by done;
    rewrite pv_ws by reflexivity;
    pose proof Hnd as Hnd0;
    rewrite fmap_app in Hnd; simpl in Hnd;
    apply NoDup_app in Hnd as (Hnd1 & Hnd2 & Hnd3);
    assert (Hfresh : obj_set acc k x = (acc ++ [(k, x)])%list)
      by (apply obj_set_fresh; intros Hin; apply (Hnd2 k Hin); set_solver).
  - cbn [ser_members]. rewrite str_app_nil_l.
    rewrite Hx by rt_side.
    rewrite str_app_assoc, skip_ws_app by rt_side. rewrite Hfresh.
    rewrite str_app_cons, str_app_nil_l, skip_ws_nonws by reflexivity. reflexivity.
  - apply Forall_cons in Hl as [Hy Hl]. apply Forall_cons in Hwl as [Hwy Hwl].
    rewrite ser_members_cons_app.
    rewrite Hx by rt_side.
    rewrite str_app_cons, str_app_nil_l, skip_ws_nonws by reflexivity.
    rewrite decide_True by done. rewrite Hfresh.
    rewrite IH; try first [rt_side | by rewrite <- app_assoc].
Qed.

(** One step of [pv], after the whitespace. *)
Definition pv_tok (f : nat) (s0 : string) : option (json * string) :=
  match str_strip_prefix "null" s0 with Some r => Some (JNull, r) | None =>
  match str_strip_prefix "true" s0 with Some r => Some (JBool true, r) | None =>
  match str_strip_prefix "false" s0 with Some r => Some (JBool false, r) | None =>
  match s0 with
  | EmptyString => None
  | String c r =>
      if decide (c = dq) then
        match parse_str r with Some (t, r') => Some (JStr t, r') | None => None end
      else if decide (c = "["%char) then
        match skip_ws r with
        | String c' r' => if decide (c' = "]"%char) then Some (JArr [], r') else pelems f [] r
        | EmptyString => None
        end
      else if decide (c = "{"%char) then
        match skip_ws r with
        | String c' r' => if decide (c' = "}"%char) then Some (JObj [], r') else pmembers f [] r
        | EmptyString => None
        end
      else match parse_number s0 with Some (n, r') => Some (JNum n, r') | None => None end
  end end end end.

Lemma pv_S f s : pv (S f) s = pv_tok f (skip_ws s).
Proof. reflexivity. Qed.

Lemma str_strip_prefix_ne c p d s : c <> d -> str_strip_prefix (String c p) (String d s) = None.
Proof. intros H. simpl. by rewrite decide_False. Qed.

Ltac char_neq := unfold dq, bsl; first [discriminate | set_solver].

Lemma pv_tok_str f s : pv_tok f (String dq s) =
  match parse_str s with Some (t, r') => Some (JStr t, r') | None => None end.
Proof. unfold pv_tok. rewrite !str_strip_prefix_ne by char_neq. by rewrite decide_True. Qed.

Lemma pv_tok_arr f s c t : skip_ws s = String c t -> c <> "]"%char ->
  pv_tok f (String "[" s) = pelems f [] s.
Proof.
  intros Hs Hc. unfold pv_tok. rewrite !str_strip_prefix_ne by char_neq.
  rewrite decide_False by char_neq. rewrite decide_True by done. rewrite Hs.
  by rewrite decide_False.
Qed.

Lemma pv_tok_obj f s c t : skip_ws s = String c t -> c <> "}"%char ->
  pv_tok f (String "{" s) = pmembers f [] s.
Proof.
  intros Hs Hc. unfold pv_tok. rewrite !str_strip_prefix_ne by char_neq.
  rewrite !decide_False by char_neq. rewrite decide_True by done. rewrite Hs.
  by rewrite decide_False.
Qed.

Lemma pv_tok_num f c t : c ∉ ["n"; "t"; "f"; dq; "["; "{"]%char ->
  pv_tok f (String c t) =
  match parse_number (String c t) with Some (n, r') => Some (JNum n, r') | None => None end.
Proof.
  intros Hc. unfold pv_tok. rewrite !str_strip_prefix_ne by set_solver.
  rewrite !decide_False by set_solver. done.
Qed.

Lemma Z_to_dec_head z : exists c t, Z_to_dec z = String c t /\
  value_head c /\ c ∉ ["n"; "t"; "f"; dq; "["; "{"]%char.
Proof.
  destruct z as [|p|p].
  - exists "0"%char, "". split; [done|]. split; [vm_compute; repeat split; discriminate|].
    unfold dq. set_solver.
  - destruct (N_to_dec_head (N.pos p)) as (d & t & Ht & Hd). exists (digit_char d), t.
    split; [apply Ht|]. split; [by apply digit_char_head|].
    assert (d = 0 \/ d = 1 \/ d = 2 \/ d = 3 \/ d = 4 \/ d = 5 \/ d = 6 \/ d = 7 \/ d = 8 \/ d = 9)%N
      as Hcases by lia.
    unfold dq. repeat destruct Hcases as [-> | Hcases]; subst; vm_compute; set_solver.
  - eexists _, _. split; [reflexivity|]. split; [vm_compute; repeat split; discriminate|].
    unfold dq. set_solver.
Qed.

Lemma ser_arr_cons_app ind x l r :
  ser ind (JArr (x :: l)) +:+ r =
  "[" +:+ (nl +:+ (ind +:+ "  ") +:+ ser (ind +:+ "  ") x +:+ ser_elems (ind +:+ "  ") l
      +:+ nl +:+ ind +:+ "]" +:+ r).
Proof. rewrite ser_arr_cons. by rewrite <- !str_app_assoc. Qed.

Lemma ser_obj_cons_app ind k x kvs r :
  ser ind (JObj ((k, x) :: kvs)) +:+ r =
  "{" +:+ (nl +:+ (ind +:+ "  ") +:+ quote k +:+ ": " +:+ ser (ind +:+ "  ") x
      +:+ ser_members (ind +:+ "  ") kvs +:+ nl +:+ ind +:+ "}" +:+ r).
Proof. rewrite ser_obj_cons. by rewrite <- !str_app_assoc. Qed.

Lemma skip_ws_nl_ser ind v s :
  all_ws ind = true -> exists c t, skip_ws (nl +:+ ind +:+ ser ind v +:+ s) = String c t /\ value_head c.
Proof.
  intros Hind. rewrite str_app_assoc, skip_ws_app by rt_side.
  destruct (ser_head ind v) as (c & t & -> & Hc). rewrite skip_ws_value by done. eauto.
Qed.

Theorem pv_ser v : pv_ok v.
Proof.
  induction v as [| b | z | s | l IHl | kvs IHkvs] using json_ind';
    intros ind r f Hwf Hind Hr Hf; (destruct f as [|f]; [simpl in Hf; lia|]); rewrite pv_S.
  - reflexivity.
  - by destruct b.
  - destruct (Z_to_dec_head z) as (c & t & Hz & Hc & Hc').
    cbn [ser]. rewrite Hz, skip_ws_value, pv_tok_num by done.
    by rewrite <- str_app_cons, <- Hz, parse_number_dec.
  - cbn [ser]. unfold quote. rewrite str_app_cons, skip_ws_nonws by reflexivity.
    rewrite pv_tok_str, <- str_app_assoc, str_app_cons, str_app_nil_l, parse_str_escape. done.
  - destruct l as [|x l]; [reflexivity|].
    apply json_wf_arr, Forall_cons in Hwf as [Hwx Hwl]. apply Forall_cons in IHl as [IHx IHl].
    rewrite ser_arr_cons_app, str_app_cons, str_app_nil_l, skip_ws_nonws by reflexivity.
    destruct (skip_ws_nl_ser (ind +:+ "  ") x (ser_elems (ind +:+ "  ") l +:+ nl +:+ ind +:+ "]" +:+ r))
      as (c & t & Hs & Hc & Hc1 & _); [rt_side|].
    rewrite (pv_tok_arr f _ c t) by done.
    rewrite pelems_ser by (try rt_side; rewrite jsize_arr, elems_size_cons in Hf; lia).
    done.
  - destruct kvs as [|[k x] kvs]; [reflexivity|].
    apply json_wf_obj in Hwf as [Hnd Hwf]. apply Forall_cons in Hwf as [Hwx Hwkvs].
    apply Forall_cons in IHkvs as [IHx IHkvs].
    rewrite ser_obj_cons_app, str_app_cons, str_app_nil_l, skip_ws_nonws by reflexivity.
    rewrite (pv_tok_obj f _ dq (escape k +:+ String dq "" +:+ ": " +:+ ser (ind +:+ "  ") x +:+
      ser_members (ind +:+ "  ") kvs +:+ nl +:+ ind +:+ "}" +:+ r)).
    2: { rewrite str_app_assoc, skip_ws_app by rt_side. unfold quote.
         rewrite str_app_cons, skip_ws_nonws by reflexivity. by rewrite <- !str_app_assoc. }
    2: char_neq.
    rewrite pmembers_ser by (try rt_side; rewrite ?jsize_obj, ?members_size_cons in Hf; simpl in *; lia).
    done.
Qed.

(** The printed text is at least as long as the fuel its parse needs. *)
Lemma ser_elems_length ind l :
  Forall (fun v => forall ind, jsize v <= String.length (ser ind v)) l ->
  elems_size l <= String.length (ser_elems ind l).
Proof.
  induction 1 as [|y l Hy Hl IH]; [simpl; lia|].
  rewrite ser_elems_cons, elems_size_cons, !str_app_length. specialize (Hy ind). simpl. lia.
Qed.

Lemma ser_members_length ind kvs :
  Forall (fun kv => forall ind, jsize kv.2 <= String.length (ser ind kv.2)) kvs ->
  members_size kvs <= String.length (ser_members ind kvs).
Proof.
  induction 1 as [|[k y] kvs Hy Hl IH]; [simpl; lia|].
  rewrite ser_members_cons, members_size_cons, !str_app_length. specialize (Hy ind). simpl in *. lia.
Qed.

Lemma ser_length ind v : jsize v <= String.length (ser ind v).
Proof.
  revert ind. induction v as [| b | z | s | l IHl | kvs IHkvs] using json_ind'; intros ind.
  - simpl. lia.
  - destruct b; simpl; lia.
  - destruct (Z_to_dec_head z) as (c & t & Hz & _). cbn [ser]. rewrite Hz. simpl. lia.
  - simpl. lia.
  - destruct l as [|x l]; [simpl; lia|]. apply Forall_cons in IHl as [IHx IHl].
    rewrite ser_arr_cons, jsize_arr, elems_size_cons, !str_app_length.
    pose proof (ser_elems_length (ind +:+ "  ") l IHl). specialize (IHx (ind +:+ "  ")).
    simpl. lia.
  - destruct kvs as [|[k x] kvs]; [simpl; lia|]. apply Forall_cons in IHkvs as [IHx IHkvs].
    rewrite ser_obj_cons, jsize_obj, members_size_cons, !str_app_length.
    pose proof (ser_members_length (ind +:+ "  ") kvs IHkvs). specialize (IHx (ind +:+ "  ")).
    simpl in *. lia.
Qed.

(** [JSON.parse(JSON.stringify(v, null, 2))] gives back [v], for every
    value whose objects have distinct keys. *)
Lemma parse_stringify v : json_wf v -> json_parse (json_stringify v) = Some v.
Proof.
  intros Hwf. unfold json_parse, json_stringify.
  pose proof (pv_ser v "" "" (2 * String.length (ser "" v) + 1) Hwf eq_refl I) as H.
  rewrite str_app_nil_r in H. rewrite H; [done|].
  pose proof (ser_length "" v). lia.
Qed.

(** ** Object lemmas *)

Lemma obj_get_set_eq kvs k v : obj_get (obj_set kvs k v) k = Some v.
Proof.
  induction kvs as [|[k' v'] kvs IH]; simpl; [by rewrite decide_True|].
  case_decide; simpl; [by rewrite decide_True|]. by rewrite decide_False.
Qed.

Lemma obj_get_set_ne kvs k v k2 : k2 <> k -> obj_get (obj_set kvs k v) k2 = obj_get kvs k2.
Proof.
  intros Hne. induction kvs as [|[k' v'] kvs IH]; simpl; [by rewrite decide_False|].
  case_decide; simpl; subst.
  - by rewrite !decide_False.
  - case_decide; [done|]. apply IH.
Qed.

Lemma obj_set_keys kvs k v x : x ∈ (obj_set kvs k v).*1 -> x = k \/ x ∈ kvs.*1.
Proof.
  induction kvs as [|[k' v'] kvs IH]; simpl; [set_solver|].
  case_decide; simpl; [set_solver|]. rewrite !elem_of_cons. naive_solver.
Qed.

Lemma obj_set_nodup kvs k v : keys_nodup kvs -> keys_nodup (obj_set kvs k v).
Proof.
  unfold keys_nodup. induction kvs as [|[k' v'] kvs IH]; simpl; intros Hnd.
  - constructor; [set_solver | constructor].
  - apply NoDup_cons in Hnd as [Hk' Hnd]. case_decide; simpl; subst.
    + by constructor.
    + constructor; [|by apply IH]. intros [->|]%obj_set_keys; done.
Qed.

Lemma obj_set_values (P : json -> Prop) kvs k v :
  Forall (fun kv => P kv.2) kvs -> P v -> Forall (fun kv => P kv.2) (obj_set kvs k v).
Proof.
  induction 1 as [|[k' v'] kvs Hv' Hkvs IH]; simpl; intros Hv; [by constructor|].
  case_decide; constructor; auto.
Qed.

Lemma obj_set_wf kvs k v : json_wf (JObj kvs) -> json_wf v -> json_wf (JObj (obj_set kvs k v)).
Proof.
  rewrite !json_wf_obj. intros [Hnd Hwf] Hv. split; [by apply obj_set_nodup|].
  by apply obj_set_values.
Qed.

(** Whatever [JSON.parse] returns is well formed. *)
Lemma parse_wf_fuel f :
  (forall s v r, pv f s = Some (v, r) -> json_wf v) /\
  (forall acc s v r, pelems f acc s = Some (v, r) -> Forall json_wf acc -> json_wf v) /\
  (forall acc s v r, pmembers f acc s = Some (v, r) -> json_wf (JObj acc) -> json_wf v).
Proof.
  induction f as [|f (IHv & IHe & IHm)]; [repeat split; done|]. repeat split.
  - intros s v r Hp. rewrite pv_S in Hp. unfold pv_tok in Hp.
    repeat case_match; simplify_eq; try done; try (split; [constructor | done]).
    + eapply IHe; [eassumption | constructor].
    + eapply IHm; [eassumption | split; [constructor | done]].
  - intros acc s v r Hp Hacc. cbn [pelems] in Hp. repeat case_match; simplify_eq.
    + eapply IHe; [eassumption|]. apply Forall_app; split; [done|]. constructor; [|done].
      by eapply IHv.
    + apply json_wf_arr, Forall_app. split; [done|]. constructor; [|done]. by eapply IHv.
  - intros acc s v r Hp Hacc. cbn [pmembers] in Hp. repeat case_match; simplify_eq.
    + eapply IHm; [eassumption|]. apply obj_set_wf; [done|]. by eapply IHv.
    + apply obj_set_wf; [done|]. by eapply IHv.
Qed.

Lemma json_parse_wf s v : json_parse s = Some v -> json_wf v.
Proof.
  unfold json_parse. destruct (pv _ s) as [[v' r]|] eqn:E; [|done].
  case_decide; [|done]. intros [= <-]. by eapply (proj1 (parse_wf_fuel _)).
Qed.

Lemma N_to_dec_inj a b : N_to_dec a = N_to_dec b -> a = b.
Proof.
  intros H. pose proof (parse_uint_dec a "" I) as Ha. pose proof (parse_uint_dec b "" I) as Hb.
  rewrite H in Ha. congruence.
Qed.

Lemma nat_to_dec_inj a b : nat_to_dec a = nat_to_dec b -> a = b.
Proof. unfold nat_to_dec. intros H%N_to_dec_inj. lia. Qed.

Lemma index_entries_keys {A} i (l : list A) x :
  x ∈ (index_entries i l).*1 -> exists j, i <= j /\ x = nat_to_dec j.
Proof.
  revert i. induction l as [|y l IH]; intros i; simpl; [set_solver|].
  rewrite elem_of_cons. intros [->|Hx]; [exists i; split; [lia|done]|].
  destruct (IH (S i) Hx) as (j & ? & ->). exists j. split; [lia|done].
Qed.

Lemma index_entries_nodup {A} i (l : list A) : NoDup (index_entries i l).*1.
Proof.
  revert i. induction l as [|y l IH]; intros i; simpl; [constructor|].
  constructor; [|apply IH]. intros (j & Hj & Heq)%index_entries_keys.
  apply nat_to_dec_inj in Heq. lia.
Qed.

Lemma index_entries_values {A} (P : A -> Prop) i (l : list A) :
  Forall P l -> Forall (fun kv => P kv.2) (index_entries i l).
Proof.
  intros Hl. revert i. induction Hl as [|y l Hy Hl IH]; intros i; simpl; constructor; auto.
Qed.

(** [{...v}] of a well-formed value has distinct keys and well-formed
    values. *)
Lemma js_spread_wf v : json_wf v -> json_wf (JObj (js_spread v)).
Proof.
  intros Hv. apply json_wf_obj. destruct v as [| | | s | l | kvs]; simpl.
  1-3: split; [constructor | constructor].
  - split; [apply index_entries_nodup|]. apply index_entries_values.
    clear Hv. induction s as [|c s IH]; simpl; [apply Forall_nil_2 | apply Forall_cons_2; [done | exact IH]].
  - split; [apply index_entries_nodup|]. apply index_entries_values. by apply json_wf_arr.
  - by apply json_wf_obj.
Qed.

Lemma obj_get_absent kvs k : k ∉ kvs.*1 -> obj_get kvs k = None.
Proof.
  induction kvs as [|[k' v'] kvs IH]; simpl; [done|]. rewrite elem_of_cons.
  intros Hk. rewrite decide_False by naive_solver. naive_solver.
Qed.

Lemma obj_get_elem kvs k v : obj_get kvs k = Some v -> (k, v) ∈ kvs.
Proof.
  induction kvs as [|[k' v'] kvs IH]; simpl; [done|].
  case_decide; [intros [= <-]; subst; left|intros; right; auto].
Qed.
