(* ===== verification/Node.v ===== *)
(** * Node: the parts of the Node.js runtime the plugin calls

    optimizer.ts uses [node:path] ([path.join], [path.extname]),
    [node:fs] ([existsSync], [readFileSync], [writeFileSync],
    [mkdirSync] with [recursive: true]), [Date.now()] and
    [console.log].  They are library code: this file models the
    behaviour the plugin relies on, over an explicit [world]:
    - a path is the list of segments of an absolute POSIX path;
      [path_join] is [path.join] (split on ['/'], drop empty and ['.']
      segments, let ['..'] remove the previous segment);
    - the file system is a finite map from paths to [Dir] or [File]
      contents; [fs_wf] (the root is a directory and the parent of every
      entry is a directory) is preserved by every operation;
    - [fs] calls throw [FsError code path] as Node does ([ENOENT],
      [EISDIR], [ENOTDIR]). *)

From S2P Require Import Prelude.
Local Open Scope string_scope.

(** ** Paths *)

Notation path := (list string).

Definition path_str (p : path) : string := "/" +:+ String.concat "/" p.

(** Split a relative path on ['/']. *)
Fixpoint split_segs_go (cur : string) (s : string) : list string :=
  match s with
  | EmptyString => [cur]
  | String c s' =>
      if decide (c = "/"%char) then cur :: split_segs_go "" s'
      else split_segs_go (cur +:+ String c "") s'
  end.

Definition split_segs (s : string) : list string := split_segs_go "" s.

(** Append segments to a normalised absolute path. *)
Fixpoint push_segs (base : path) (segs : list string) : path :=
  match segs with
  | [] => base
  | s :: segs' =>
      if decide (s = "" \/ s = ".") then push_segs base segs'
      else if decide (s = "..") then push_segs (removelast base) segs'
      else push_segs (base ++ [s])%list segs'
  end.

(** [path.join(base, rel)] for an absolute, normalised [base]. *)
Definition path_join (base : path) (rel : string) : path := push_segs base (split_segs rel).

(** [path.extname] of the last segment: from its last ['.'], unless the
    segment starts with it. *)
Fixpoint last_dot_go (i : nat) (best : option nat) (s : string) : option nat :=
  match s with
  | EmptyString => best
  | String c s' => last_dot_go (S i) (if decide (c = "."%char) then Some i else best) s'
  end.

Definition extname (p : path) : string :=
  match last p with
  | None => ""
  | Some seg =>
      match last_dot_go 0 None seg with
      | Some (S i) => String.substring (S i) (String.length seg - S i) seg
      | _ => ""
      end
  end.

(** ** The world *)

Inductive node := Dir | File (contents : string).

#[export] Instance node_eq_dec : EqDecision node.
Proof. solve_decision. Defined.

Record world := mkWorld {
  w_fs : gmap path node;
  w_now : Z;              (** what [Date.now()] returns *)
  w_log : list string;    (** the lines written by [console.log], in order *)
  w_unhandled : list exn; (** rejections of promises nobody awaits *)
}.

Definition set_fs (w : world) (fs : gmap path node) : world :=
  mkWorld fs (w_now w) (w_log w) (w_unhandled w).

Definition NodeM := ST world.

Local Open Scope st_scope.

(** ** [node:fs] *)

Definition exists_sync (w : world) (p : path) : bool := bool_decide (is_Some (w_fs w !! p)).

Definition existsSync (p : path) : NodeM bool := fun w => (Ret (exists_sync w p), w).

Definition read_file (fs : gmap path node) (p : path) : outcome string :=
  match fs !! p with
  | Some (File c) => Ret c
  | Some Dir => Exn (FsError "EISDIR" (path_str p))
  | None => Exn (FsError "ENOENT" (path_str p))
  end.

Definition readFileSync (p : path) : NodeM string := fun w => (read_file (w_fs w) p, w).

(** [fs.writeFileSync(p, c)]: the parent must be a directory and [p]
    must not be one. *)
Definition write_file (fs : gmap path node) (p : path) (c : string) : outcome (gmap path node) :=
  match p with
  | [] => Exn (FsError "EISDIR" (path_str p))
  | _ =>
      match fs !! removelast p with
      | Some Dir =>
          match fs !! p with
          | Some Dir => Exn (FsError "EISDIR" (path_str p))
          | _ => Ret (<[p := File c]> fs)
          end
      | Some (File _) => Exn (FsError "ENOTDIR" (path_str p))
      | None => Exn (FsError "ENOENT" (path_str p))
      end
  end.

Definition writeFileSync (p : path) (c : string) : NodeM unit := fun w =>
  match write_file (w_fs w) p c with
  | Ret fs => (Ret tt, set_fs w fs)
  | Exn e => (Exn e, w)
  end.

(** [fs.mkdirSync(p, { recursive: true })]: create the missing
    directories from the root down; a file on the way throws [ENOTDIR]
    and leaves the directories already created. *)
Fixpoint mkdir_go (fs : gmap path node) (cur : path) (rest : list string)
    : outcome (gmap path node) * gmap path node :=
  match rest with
  | [] => (Ret fs, fs)
  | s :: rest' =>
      let p := (cur ++ [s])%list in
      match fs !! p with
      | Some Dir => mkdir_go fs p rest'
      | Some (File _) => (Exn (FsError "ENOTDIR" (path_str p)), fs)
      | None => mkdir_go (<[p := Dir]> fs) p rest'
      end
  end.

Definition mkdirSync_recursive (p : path) : NodeM unit := fun w =>
  match mkdir_go (w_fs w) [] p with
  | (Ret fs, _) => (Ret tt, set_fs w fs)
  | (Exn e, fs) => (Exn e, set_fs w fs)
  end.

(** [!fs.existsSync(p) && fs.mkdirSync(p, { recursive: true })] *)
Definition ensure_dir (p : path) : NodeM unit :=
  let* ex := existsSync p in
  if ex then st_ret tt else mkdirSync_recursive p.

Definition console_log (msg : string) : NodeM unit := fun w =>
  (Ret tt, mkWorld (w_fs w) (w_now w) (w_log w ++ [msg])%list (w_unhandled w)).

(** A promise that nobody awaits rejects with [e]. *)
Definition unhandled_rejection (e : exn) : NodeM unit := fun w =>
  (Ret tt, mkWorld (w_fs w) (w_now w) (w_log w) (w_unhandled w ++ [e])%list).

(** Run [m] as the body of an [async] function whose promise is dropped:
    an exception becomes an unhandled rejection instead of propagating. *)
Definition detached (m : NodeM unit) : NodeM unit :=
  st_catch m unhandled_rejection.

Definition date_now : NodeM Z := fun w => (Ret (w_now w), w).

(** ** The tree invariant and the frame of each operation *)

Definition fs_wf (fs : gmap path node) : Prop :=
  fs !! [] = Some Dir /\
  forall p n, fs !! p = Some n -> p <> [] -> fs !! removelast p = Some Dir.

Definition world_wf (w : world) : Prop := fs_wf (w_fs w).

Lemma removelast_snoc (p : path) s : removelast (p ++ [s])%list = p.
Proof. apply removelast_last. Qed.

(** The string of [p ++ [s]] is the string of [p], a separator unless
    [p] is the root, and [s]. *)
Lemma path_str_snoc (p : path) s :
  path_str (p ++ [s])%list = path_str p +:+ (match p with [] => "" | _ => "/" end) +:+ s.
Proof.
  unfold path_str. rewrite <- !str_app_assoc. f_equal.
  induction p as [|x p IH]; [done|]. destruct p as [|y p]; [done|].
  change (String.concat "/" ((x :: y :: p) ++ [s])%list) with (x +:+ "/" +:+ String.concat "/" ((y :: p) ++ [s])%list).
  change (String.concat "/" (x :: y :: p)) with (x +:+ "/" +:+ String.concat "/" (y :: p)).
  rewrite IH. by rewrite <- !str_app_assoc.
Qed.

(** Two files of one directory have different path strings. *)
Lemma path_str_snoc_ne (p : path) s1 s2 : s1 <> s2 -> path_str (p ++ [s1])%list <> path_str (p ++ [s2])%list.
Proof. rewrite !path_str_snoc. intros Hs H. by apply str_app_inj_l, str_app_inj_l in H. Qed.

Lemma removelast_ne (p : path) : p <> [] -> removelast p <> p.
Proof.
  intros Hp Heq. destruct (exists_last Hp) as (p' & s & ->).
  rewrite removelast_snoc in Heq. apply (f_equal length) in Heq.
  rewrite length_app in Heq. simpl in Heq. lia.
Qed.

(** *** Path strings of normalised paths are injective

    A normalised path has no empty segment and no segment with a ['/']
    ([seg_ok]); [path.join] only builds such paths from such a base, and
    on them [path_str] forgets nothing. *)
Fixpoint no_slash (s : string) : bool :=
  match s with
  | EmptyString => true
  | String c s' => negb (bool_decide (c = "/"%char)) && no_slash s'
  end.

Definition seg_ok (s : string) : Prop := s <> "" /\ no_slash s = true.

#[export] Instance seg_ok_dec s : Decision (seg_ok s).
Proof. unfold seg_ok. apply _. Defined.

Lemma no_slash_app a b : no_slash (a +:+ b) = no_slash a && no_slash b.
Proof. induction a as [|c a IH]; [done|]. simpl. rewrite IH. by destruct (bool_decide _), (no_slash a). Qed.

Lemma concat_cons_str (x : string) l :
  String.concat "/" (x :: l) = x +:+ match l with [] => "" | _ => "/" +:+ String.concat "/" l end.
Proof. destruct l; simpl; [by rewrite str_app_nil_r | done]. Qed.

Lemma slash_split_inj x y r r' :
  no_slash x = true -> no_slash y = true -> x +:+ "/" +:+ r = y +:+ "/" +:+ r' -> x = y /\ r = r'.
Proof.
  revert y. induction x as [|c x IH]; intros [|d y] Hx Hy; simpl in *; intros H.
  - by injection H.
  - injection H as Hd _. subst d. by rewrite bool_decide_eq_true_2 in Hy.
  - injection H as Hc _. subst c. by rewrite bool_decide_eq_true_2 in Hx.
  - apply andb_prop in Hx as [_ Hx], Hy as [_ Hy]. injection H as -> H.
    destruct (IH y Hx Hy H) as [-> ->]. done.
Qed.

Lemma no_slash_sep x r : no_slash (x +:+ "/" +:+ r) = false.
Proof. rewrite !no_slash_app. simpl. by destruct (no_slash x). Qed.

Lemma concat_slash_inj l1 l2 :
  Forall seg_ok l1 -> Forall seg_ok l2 -> String.concat "/" l1 = String.concat "/" l2 -> l1 = l2.
Proof.
  revert l2. induction l1 as [|x l1 IH]; intros [|y l2] H1 H2; rewrite ?concat_cons_str; try done.
  - intros H. apply Forall_cons in H2 as [[Hy _] _]. destruct y; [done|]. by destruct l2.
  - intros H. apply Forall_cons in H1 as [[Hx _] _]. destruct x; [done|]. by destruct l1.
  - apply Forall_cons in H1 as [[_ Hx] H1], H2 as [[_ Hy] H2].
    destruct l1 as [|x' l1], l2 as [|y' l2]; rewrite ?str_app_nil_r.
    + by intros ->.
    + intros ->. by rewrite no_slash_sep in Hx.
    + intros <-. by rewrite no_slash_sep in Hy.
    + intros H. destruct (slash_split_inj x y _ _ Hx Hy H) as [-> H'].
      f_equal. by apply IH.
Qed.

Lemma path_str_inj p1 p2 : Forall seg_ok p1 -> Forall seg_ok p2 -> path_str p1 = path_str p2 -> p1 = p2.
Proof. unfold path_str. simpl. intros H1 H2 [= H]. by apply concat_slash_inj. Qed.

Lemma split_segs_go_no_slash cur s :
  no_slash cur = true -> Forall (fun x => no_slash x = true) (split_segs_go cur s).
Proof.
  revert cur. induction s as [|c s IH]; intros cur Hcur; simpl; [by constructor|].
  case_decide; [constructor; [done|by apply IH]|].
  apply IH. rewrite no_slash_app. simpl. rewrite bool_decide_eq_false_2 by done. by rewrite Hcur.
Qed.

(** A string without ['/'] is one segment. *)
Lemma split_segs_go_noslash cur s : no_slash s = true -> split_segs_go cur s = [cur +:+ s].
Proof.
  revert cur. induction s as [|c s IH]; intros cur Hs; simpl; [by rewrite str_app_nil_r|].
  simpl in Hs. apply andb_prop in Hs as [Hc Hs].
  rewrite decide_False by (intros ->; by rewrite bool_decide_eq_true_2 in Hc).
  rewrite IH by done. by rewrite <- str_app_assoc.
Qed.

Lemma Forall_removelast {A} (P : A -> Prop) l : Forall P l -> Forall P (removelast l).
Proof. induction 1 as [|x l Hx Hl IH]; [done|]. destruct l; simpl; auto. Qed.

Lemma push_segs_ok base segs :
  Forall seg_ok base -> Forall (fun x => no_slash x = true) segs -> Forall seg_ok (push_segs base segs).
Proof.
  revert base. induction segs as [|s segs IH]; intros base Hb Hs; simpl; [done|].
  apply Forall_cons in Hs as [Hs1 Hs]. repeat case_decide; apply IH; try done.
  - by apply Forall_removelast.
  - apply Forall_app. split; [done|]. apply Forall_singleton. split; [|done]. naive_solver.
Qed.

(** [path.join] of a normalised base is normalised. *)
Lemma path_join_ok base rel : Forall seg_ok base -> Forall seg_ok (path_join base rel).
Proof. intros Hb. apply push_segs_ok; [done|]. by apply split_segs_go_no_slash. Qed.

Lemma write_file_ok fs p c fs' :
  write_file fs p c = Ret fs' ->
  p <> [] /\ fs !! removelast p = Some Dir /\ fs !! p <> Some Dir /\ fs' = <[p := File c]> fs.
Proof.
  unfold write_file. destruct p as [|s p]; [done|].
  destruct (fs !! removelast (s :: p)) as [[|]|]; try done.
  destruct (fs !! (s :: p)) as [[|]|] eqn:E; intros [= <-]; repeat split; congruence.
Qed.

Lemma write_file_wf fs p c fs' : fs_wf fs -> write_file fs p c = Ret fs' -> fs_wf fs'.
Proof.
  intros [Hroot Hwf] (Hp & Hpar & Hnd & ->)%write_file_ok. split.
  - by rewrite lookup_insert_ne by congruence.
  - intros q n Hq Hqne. destruct (decide (q = p)) as [->|Hne].
    + rewrite lookup_insert_ne; [done|]. intros Heq. by apply (removelast_ne p).
    + rewrite lookup_insert_ne in Hq by congruence.
      pose proof (Hwf q n Hq Hqne) as Hd.
      rewrite lookup_insert_ne; [done|]. intros Heq. rewrite <- Heq in Hd. congruence.
Qed.

(** [writeFileSync] changes only the written path. *)
Lemma write_file_frame fs p c fs' q :
  write_file fs p c = Ret fs' -> q <> p -> fs' !! q = fs !! q.
Proof. intros (_ & _ & _ & ->)%write_file_ok Hq. by rewrite lookup_insert_ne by congruence. Qed.

Lemma write_file_lookup fs p c fs' : write_file fs p c = Ret fs' -> fs' !! p = Some (File c).
Proof. intros (_ & _ & _ & ->)%write_file_ok. apply lookup_insert_eq. Qed.

(** Writing into an existing directory succeeds. *)
Lemma write_file_succeeds fs p c :
  p <> [] -> fs !! removelast p = Some Dir -> fs !! p <> Some Dir ->
  write_file fs p c = Ret (<[p := File c]> fs).
Proof.
  intros Hp Hpar Hnd. unfold write_file. destruct p as [|s p']; [done|].
  rewrite Hpar. destruct (fs !! (s :: p')) as [[|]|]; congruence.
Qed.

Lemma mkdir_go_wf fs cur rest :
  fs_wf fs -> fs !! cur = Some Dir -> fs_wf (mkdir_go fs cur rest).2.
Proof.
  revert fs cur. induction rest as [|s rest IH]; intros fs cur Hwf Hcur; simpl; [done|].
  destruct (fs !! (cur ++ [s])%list) as [[|]|] eqn:E; simpl; auto.
  apply IH; [|apply lookup_insert_eq].
  destruct Hwf as [Hroot Hwf]. split.
  - rewrite lookup_insert_ne; [done|]. intros Hc. by destruct cur.
  - intros q n Hq Hqne. destruct (decide (q = (cur ++ [s])%list)) as [->|Hne].
    + rewrite removelast_snoc, lookup_insert_ne; [done|].
      intros Heq. apply (f_equal length) in Heq. rewrite length_app in Heq. simpl in Heq. lia.
    + rewrite lookup_insert_ne in Hq by congruence. specialize (Hwf q n Hq Hqne).
      rewrite lookup_insert_ne; [done|]. intros Heq. rewrite <- Heq in Hwf. congruence.
Qed.

(** [mkdir] never changes an existing entry. *)
Lemma mkdir_go_frame fs cur rest q :
  is_Some (fs !! q) -> (mkdir_go fs cur rest).2 !! q = fs !! q.
Proof.
  revert fs cur. induction rest as [|s rest IH]; intros fs cur Hq; simpl; [done|].
  destruct (fs !! (cur ++ [s])%list) as [[|]|] eqn:E; simpl; auto.
  rewrite IH.
  - rewrite lookup_insert_ne; [done|]. intros <-. destruct Hq. congruence.
  - rewrite lookup_insert. case_decide; [done|]. done.
Qed.

(** When [mkdir] returns, the whole path is a directory. *)
Lemma mkdir_go_ok fs cur rest fs' :
  fs !! cur = Some Dir -> (mkdir_go fs cur rest).1 = Ret fs' ->
  fs' = (mkdir_go fs cur rest).2 /\ fs' !! (cur ++ rest)%list = Some Dir.
Proof.
  revert fs cur. induction rest as [|s rest IH]; intros fs cur Hcur; simpl.
  - intros [= <-]. by rewrite app_nil_r.
  - destruct (fs !! (cur ++ [s])%list) as [[|]|] eqn:E; simpl; try done;
      intros H; (apply IH in H; [by rewrite <- app_assoc in H | try apply lookup_insert_eq; done]).
Qed.

Section MkdirFrame.
Local Open Scope list_scope.

Lemma mkdir_go_ret_snd fs cur rest fs' :
  (mkdir_go fs cur rest).1 = Ret fs' -> fs' = (mkdir_go fs cur rest).2.
Proof.
  revert fs cur. induction rest as [|s rest IH]; intros fs cur; simpl; [by intros [= ->]|].
  destruct (fs !! (cur ++ [s])) as [[|]|]; [apply IH | done | apply IH].
Qed.

(** [mkdir] creates only prefixes of its argument. *)
Lemma mkdir_go_outside fs cur rest q : ~ q `prefix_of` cur ++ rest -> (mkdir_go fs cur rest).2 !! q = fs !! q.
Proof.
  revert fs cur. induction rest as [|s rest IH]; intros fs cur Hq; simpl; [done|].
  assert (Hq' : ~ q `prefix_of` (cur ++ [s]) ++ rest) by by rewrite <- app_assoc.
  destruct (fs !! (cur ++ [s])) as [[|]|]; simpl; [by apply IH | done|].
  rewrite IH by done. rewrite lookup_insert_ne; [done|]. intros <-. apply Hq'. by eexists.
Qed.

(** No prefix of [p] (the root included) is a file: [mkdirSync(p,
    { recursive: true })] cannot fail with [ENOTDIR]. *)
Definition no_file_on (fs : gmap path node) (p : path) : bool :=
  forallb (fun k => match fs !! take k p with Some (File _) => false | _ => true end) (seq 0 (S (length p))).

Lemma no_file_on_spec fs p q c : no_file_on fs p = true -> q `prefix_of` p -> fs !! q <> Some (File c).
Proof.
  unfold no_file_on. rewrite forallb_forall. intros H [k ->] Hq.
  specialize (H (length q)). rewrite take_app_length, Hq in H.
  assert (Hin : In (length q) (seq 0 (S (length (q ++ k))))) by (apply in_seq; rewrite length_app; lia).
  by specialize (H Hin).
Qed.

Lemma mkdir_go_no_file fs cur rest :
  (forall q c, q `prefix_of` cur ++ rest -> fs !! q <> Some (File c)) ->
  (mkdir_go fs cur rest).1 = Ret (mkdir_go fs cur rest).2.
Proof.
  revert fs cur. induction rest as [|s rest IH]; intros fs cur H; simpl; [done|].
  assert (Hp : (cur ++ [s]) `prefix_of` cur ++ s :: rest) by (exists rest; by rewrite <- app_assoc).
  destruct (fs !! (cur ++ [s])) as [[|c]|] eqn:E.
  - apply IH. by rewrite <- app_assoc.
  - by destruct (H _ c Hp).
  - apply IH. rewrite <- app_assoc. intros q c Hq. destruct (decide (q = cur ++ [s])) as [->|Hne].
    + by rewrite lookup_insert_eq.
    + rewrite lookup_insert_ne by congruence. by apply H.
Qed.
End MkdirFrame.

Lemma existsSync_ro p : st_ro (existsSync p).
Proof. done. Qed.

Lemma readFileSync_ro p : st_ro (readFileSync p).
Proof. done. Qed.

Lemma date_now_ro : st_ro date_now.
Proof. done. Qed.

#[export] Hint Resolve existsSync_ro readFileSync_ro date_now_ro : renderer.

(** *** Every [node:fs] operation keeps the tree well formed *)

Lemma writeFileSync_wf p c : st_keeps world_wf (writeFileSync p c).
Proof.
  intros w Hw. unfold writeFileSync. destruct (write_file (w_fs w) p c) as [fs|e] eqn:E; [|done].
  by eapply write_file_wf.
Qed.

(** On both paths: a [ENOTDIR] half-way leaves the directories already
    made, and they hang under directories. *)
Lemma mkdirSync_recursive_wf p : st_keeps world_wf (mkdirSync_recursive p).
Proof.
  intros w Hw. unfold mkdirSync_recursive.
  pose proof (mkdir_go_wf (w_fs w) [] p Hw (proj1 Hw)) as Hwf.
  destruct (mkdir_go (w_fs w) [] p) as [[fs|e] fs2] eqn:E; simpl in *; [|done].
  destruct (mkdir_go_ok (w_fs w) [] p fs (proj1 Hw)) as [-> _]; by rewrite E.
Qed.

Lemma console_log_wf msg : st_keeps world_wf (console_log msg).
Proof. by intros w Hw. Qed.

Lemma unhandled_rejection_wf e : st_keeps world_wf (unhandled_rejection e).
Proof. by intros w Hw. Qed.

#[export] Hint Resolve writeFileSync_wf mkdirSync_recursive_wf console_log_wf unhandled_rejection_wf : renderer.

Lemma ensure_dir_wf p : st_keeps world_wf (ensure_dir p).
Proof. unfold ensure_dir. keeps. Qed.

Lemma detached_wf m : st_keeps world_wf m -> st_keeps world_wf (detached m).
Proof. intros Hm. unfold detached. keeps. Qed.

#[export] Hint Resolve ensure_dir_wf detached_wf : renderer.

(** A decision procedure for [fs_wf] on a concrete file system. *)
Lemma fs_wf_check fs :
  fs !! [] = Some Dir ->
  map_Forall (fun p _ => p = [] \/ fs !! removelast p = Some Dir) fs -> fs_wf fs.
Proof.
  intros Hroot Hall. split; [done|]. intros p n Hp Hne.
  destruct (Hall p n Hp) as [|]; [done|done].
Qed.

Ltac decide_fs_wf :=
  apply fs_wf_check; [reflexivity | apply (bool_decide_unpack _); vm_compute; reflexivity].

(** A small tree: [/], [/a], [/a/f]. *)
Definition ex_fs : gmap path node :=
  list_to_map [([], Dir); (["a"], Dir); (["a"; "f"], File "x")].

Lemma write_file_wf_witness :
  fs_wf ex_fs /\ write_file ex_fs ["a"; "g"] "y" = Ret (<[["a"; "g"] := File "y"]> ex_fs) /\
  fs_wf (<[["a"; "g"] := File "y"]> ex_fs).
Proof.
  assert (H1 : fs_wf ex_fs) by decide_fs_wf.
  assert (H2 : write_file ex_fs ["a"; "g"] "y" = Ret (<[["a"; "g"] := File "y"]> ex_fs))
    by (vm_compute; reflexivity).
  split; [exact H1|]. split; [exact H2|]. exact (write_file_wf ex_fs ["a"; "g"] "y" _ H1 H2).
Defined.

Lemma mkdir_go_wf_witness :
  fs_wf ex_fs /\ ex_fs !! [] = Some Dir /\ fs_wf (mkdir_go ex_fs [] ["a"; "b"; "c"]).2.
Proof.
  assert (H1 : fs_wf ex_fs) by decide_fs_wf.
  assert (H2 : ex_fs !! [] = Some Dir) by reflexivity.
  split; [exact H1|]. split; [exact H2|]. exact (mkdir_go_wf ex_fs [] ["a"; "b"; "c"] H1 H2).
Defined.
