(* ===== verification/Cache.v ===== *)
(** * Cache: the content-hash cache of optimizer.ts (class [Cache],
    lines 224-288)

    The cache keeps one JSON file, [<root>/_metadata.json], of shape
    [{ timestamp, optimized: { [absolute path]: { hash } } }].
    - [getHash] is the md5 hex digest of a file's bytes; the digest
      function is a parameter [md5_hex] of the section (any function:
      no theorem relies on md5 being collision-free unless it says so);
    - [readCache] parses the file and falls back to [{}] on any error;
    - [checkHash] answers "is this artifact unchanged since it was
      recorded"; it fails open (returns [false]) when the file is
      missing or unreadable, but a cache file whose content is [null],
      or whose [optimized] is [null], makes it throw a [TypeError];
    - [writeCache] merges [{ [filename]: { hash } }] into the record and
      rewrites the whole file with [JSON.stringify(newCache, null, 2)].

    The theorems show the cache refines the abstract store of the
    design: a finite map from artifact path to digest, with [checkHash]
    as "the file exists and its digest is the stored one" and
    [writeCache] as an insertion. *)

From S2P Require Import Prelude Json Node.
Local Open Scope string_scope.
Local Open Scope st_scope.

(** The cache object: [new Cache(root)] sets [cacheFile] to
    [path.join(root, '_metadata.json')]. *)
Record Cache := mkCache { root : path; cacheFile : path }.

Definition new_Cache (r : path) : Cache := mkCache r (path_join r "_metadata.json").

Section CacheOps.
Context (md5_hex : string -> string).

(** [static getHash(filename)] *)
Definition getHash (filename : path) : NodeM string :=
  let* buf := readFileSync filename in
  st_ret (md5_hex buf).

(** [readCache()]: any exception (missing file, [JSON.parse] error)
    gives [{}]. *)
Definition readCache (c : Cache) : NodeM json :=
  st_catch
    (let* s := readFileSync (cacheFile c) in
     match json_parse s with
     | Some v => st_ret v
     | None => st_throw (SyntaxError "Unexpected token in JSON")
     end)
    (fun _ => st_ret (JObj [])).

(** The loop of [checkHash]:
    [if (filename === file && hash === meta.hash) return true];
    [meta.hash] is read only when the key matches. *)
Fixpoint find_entry (filename hash : string) (entries : list (string * json)) : outcome bool :=
  match entries with
  | [] => Ret false
  | (file, meta) :: rest =>
      if decide (filename = file) then
        match get_field meta "hash" with
        | Exn e => Exn e
        | Ret mh => if decide (mh = Some (JStr hash)) then Ret true else find_entry filename hash rest
        end
      else find_entry filename hash rest
  end.

(** [checkHash(filename)] *)
Definition checkHash (c : Cache) (filename : path) : NodeM bool :=
  let* ex := existsSync filename in
  if negb ex then st_ret false else
  let* oh := st_catch (let* h := getHash filename in st_ret (Some h)) (fun _ => st_ret None) in
  match oh with
  | None => st_ret false
  | Some hash =>
      let* cache := readCache c in
      let* optimized := st_lift (destructure_default cache "optimized") in
      let* entries := st_lift (js_entries optimized) in
      st_lift (find_entry (path_str filename) hash entries)
  end.

(** The record [writeCache] builds. *)
Definition new_cache_record (now : Z) (optimized : json) (filename : path) (hash : string) : json :=
  JObj [("timestamp", JNum now);
        ("optimized", JObj (obj_set (js_spread optimized) (path_str filename)
                                    (JObj [("hash", JStr hash)])))].

(** [writeCache(filename)] *)
Definition writeCache (c : Cache) (filename : path) : NodeM unit :=
  let* ex := existsSync filename in
  if negb ex then st_throw (Error (path_str filename +:+ " is not exist!")) else
  let* cache := readCache c in
  let* optimized := st_lift (destructure_default cache "optimized") in
  let* now := date_now in
  let* hash := getHash filename in
  writeFileSync (cacheFile c) (json_stringify (new_cache_record now optimized filename hash)).
End CacheOps.

(** ** The cache as seen through the file system *)

(** The value [readCache] returns. *)
Definition cache_value (fs : gmap path node) (c : Cache) : json :=
  match read_file fs (cacheFile c) with
  | Ret s => match json_parse s with Some v => v | None => JObj [] end
  | Exn _ => JObj []
  end.

(** The digest a record entry holds, when [meta.hash] is a string. *)
Definition entry_hash (meta : json) : option string :=
  match meta with
  | JObj kvs => match obj_get kvs "hash" with Some (JStr h) => Some h | _ => None end
  | _ => None
  end.

(** The abstract store: the digest recorded for an artifact path. *)
Definition stored (ents : list (string * json)) (k : string) : option string :=
  obj_get ents k ≫= entry_hash.

(** The entries of [optimized] in the cache file. *)
Definition cache_entries (fs : gmap path node) (c : Cache) : list (string * json) :=
  match destructure_default (cache_value fs c) "optimized" with
  | Ret opt => js_spread opt
  | Exn _ => []
  end.

(** The record can be read without a [TypeError]: neither the document,
    nor [optimized], nor any entry is [null]. *)
Definition cache_ok (fs : gmap path node) (c : Cache) : Prop :=
  exists opt, destructure_default (cache_value fs c) "optimized" = Ret opt /\ opt <> JNull /\
    Forall (fun kv => kv.2 <> JNull) (js_spread opt).

Lemma readCache_spec c w : readCache c w = (Ret (cache_value (w_fs w) c), w).
Proof.
  unfold readCache, cache_value, st_catch, st_bind, readFileSync, st_ret, st_throw.
  destruct (read_file (w_fs w) (cacheFile c)) as [s|e]; [|done].
  by destruct (json_parse s).
Qed.

Lemma cache_value_wf fs c : json_wf (cache_value fs c).
Proof.
  unfold cache_value. destruct (read_file fs (cacheFile c)) as [s|]; [|split; constructor].
  destruct (json_parse s) eqn:E; [by eapply json_parse_wf | split; constructor].
Qed.

Lemma obj_get_wf kvs k v : json_wf (JObj kvs) -> obj_get kvs k = Some v -> json_wf v.
Proof.
  intros [_ Hwf]%json_wf_obj. induction Hwf as [|[k' v'] kvs Hv' Hkvs IH]; simpl; [done|].
  case_decide; [by intros [= <-] | done].
Qed.

Lemma destructure_default_wf v k o : json_wf v -> destructure_default v k = Ret o -> json_wf o.
Proof.
  unfold destructure_default, get_field. destruct v; try (intros _ [= <-]; split; constructor).
  intros Hv. destruct (obj_get kvs k) eqn:E; intros [= <-]; [by eapply obj_get_wf|split; constructor].
Qed.

Lemma find_entry_absent k h ents : k ∉ ents.*1 -> find_entry k h ents = Ret false.
Proof.
  induction ents as [|[k' meta] ents IH]; simpl; [done|]. rewrite elem_of_cons.
  intros Hk. rewrite decide_False by naive_solver. naive_solver.
Qed.

(** With distinct keys and no [null] entry, the loop of [checkHash]
    finds the entry of [k] and compares its digest. *)
Lemma find_entry_spec k h ents :
  keys_nodup ents -> Forall (fun kv => kv.2 <> JNull) ents ->
  find_entry k h ents = Ret (bool_decide (stored ents k = Some h)).
Proof.
  unfold keys_nodup, stored. intros Hnd Hnn.
  induction ents as [|[k' meta] ents IH]; simpl; [done|].
  rewrite fmap_cons in Hnd. apply NoDup_cons in Hnd as [Hk' Hnd].
  apply Forall_cons in Hnn as [Hm Hnn]. simpl in Hm.
  cbn [find_entry obj_get]. destruct (decide (k = k')) as [<-|Hne]; simpl; [|by apply IH].
  rewrite find_entry_absent by done.
  destruct meta as [| | | | | kvs]; simpl; try done.
  destruct (obj_get kvs "hash") as [[| | |s| |]|]; simpl; repeat case_decide; naive_solver.
Qed.

Lemma js_entries_nonnull v : v <> JNull -> js_entries v = Ret (js_spread v).
Proof. by destruct v. Qed.

Lemma record_wf now opt p h : json_wf opt -> json_wf (new_cache_record now opt p h).
Proof.
  intros Hopt. apply json_wf_obj. split.
  - unfold keys_nodup. simpl. constructor; [set_solver | constructor; [set_solver | constructor]].
  - apply Forall_cons_2; [done|]. apply Forall_cons_2; [|apply Forall_nil_2]. simpl.
    apply obj_set_wf; [by apply js_spread_wf|].
    apply json_wf_obj. split; [constructor; [set_solver | constructor]|].
    apply Forall_cons_2; [done | apply Forall_nil_2].
Qed.

Lemma stored_obj_set ents k meta k' :
  stored (obj_set ents k meta) k' = if decide (k' = k) then entry_hash meta else stored ents k'.
Proof.
  unfold stored. case_decide; subst; [by rewrite obj_get_set_eq|by rewrite obj_get_set_ne].
Qed.

Section Refinement.
Context (md5_hex : string -> string) (c : Cache).

(** The design's [isValid(p)] over an abstract store [st]: the file
    exists and its digest is the one stored for it. *)
Definition valid_spec (st : string -> option string) (fs : gmap path node) (p : path) : bool :=
  match fs !! p with
  | Some (File content) => bool_decide (st (path_str p) = Some (md5_hex content))
  | _ => false
  end.

(** The state the cache file is in once [writeCache(p)] has run. *)
Definition recorded_fs (w : world) (p : path) (content : string) : gmap path node :=
  let opt := match destructure_default (cache_value (w_fs w) c) "optimized" with
             | Ret o => o | Exn _ => JNull end in
  <[cacheFile c := File (json_stringify (new_cache_record (w_now w) opt p (md5_hex content)))]> (w_fs w).
End Refinement.

Lemma readCache_ro c : st_ro (readCache c).
Proof. intros w. by rewrite readCache_spec. Qed.

Lemma getHash_ro md5_hex p : st_ro (getHash md5_hex p).
Proof. unfold getHash. auto with renderer. Qed.

#[export] Hint Resolve readCache_ro getHash_ro : renderer.

(** The cache keeps the file tree well formed. *)
Lemma checkHash_wf md5_hex c p : st_keeps world_wf (checkHash md5_hex c p).
Proof. unfold checkHash. keeps. Qed.

Lemma writeCache_wf md5_hex c p : st_keeps world_wf (writeCache md5_hex c p).
Proof. unfold writeCache. keeps. Qed.

#[export] Hint Resolve checkHash_wf writeCache_wf : renderer.

(** [checkHash] reads and never writes, on every path. *)
Lemma checkHash_readonly md5_hex c p : st_ro (checkHash md5_hex c p).
Proof.
  unfold checkHash. apply st_ro_bind; [auto with renderer|]. intros ex.
  destruct (negb ex); [auto with renderer|].
  apply st_ro_bind; [auto with renderer|]. intros [h|]; auto 10 with renderer.
Qed.

#[export] Hint Resolve checkHash_readonly : renderer.

(** [checkHash] on a missing artifact is [false] (the file check comes
    first). *)
Lemma checkHash_missing md5_hex c p w :
  w_fs w !! p = None -> checkHash md5_hex c p w = (Ret false, w).
Proof.
  intros Hp. unfold checkHash, existsSync, exists_sync, st_bind, st_ret.
  rewrite Hp. rewrite bool_decide_eq_false_2; [done|]. by intros [? ?].
Qed.

Lemma existsSync_some p w : is_Some (w_fs w !! p) -> existsSync p w = (Ret true, w).
Proof. intros H. unfold existsSync, exists_sync. by rewrite bool_decide_eq_true_2. Qed.

Lemma existsSync_none p w : w_fs w !! p = None -> existsSync p w = (Ret false, w).
Proof. intros H. unfold existsSync, exists_sync. rewrite H. by rewrite bool_decide_eq_false_2 by (by intros [? ?]). Qed.

Lemma try_getHash_file md5_hex p w content :
  w_fs w !! p = Some (File content) ->
  st_catch (let* h := getHash md5_hex p in st_ret (Some h)) (fun _ => st_ret None) w
  = (Ret (Some (md5_hex content)), w).
Proof. intros H. cbv beta delta [st_catch st_bind getHash readFileSync read_file st_ret]. by rewrite H. Qed.

Lemma try_getHash_dir md5_hex p w :
  w_fs w !! p = Some Dir ->
  st_catch (let* h := getHash md5_hex p in st_ret (Some h)) (fun _ => st_ret None) w
  = (Ret None, w).
Proof. intros H. cbv beta delta [st_catch st_bind getHash readFileSync read_file st_ret]. by rewrite H. Qed.

(** [checkHash] refines the design's [isValid]: with a readable record,
    it answers whether the artifact exists and its digest is the one
    the record stores for it. *)
Lemma checkHash_eval md5_hex c p w :
  cache_ok (w_fs w) c ->
  checkHash md5_hex c p w =
  (Ret (valid_spec md5_hex (stored (cache_entries (w_fs w) c)) (w_fs w) p), w).
Proof.
  intros (opt & Hopt & Hnn & Hents).
  destruct (w_fs w !! p) as [[|content]|] eqn:Hp;
    [ |  | rewrite checkHash_missing by done; unfold valid_spec; by rewrite Hp ];
    (assert (Hex : existsSync p w = (Ret true, w)) by (apply existsSync_some; rewrite Hp; eauto));
    unfold checkHash; rewrite (st_bind_ok _ _ _ _ _ Hex); cbn [negb].
  - rewrite (st_bind_ok _ _ w None w) by (by apply try_getHash_dir).
    unfold valid_spec. by rewrite Hp.
  - rewrite (st_bind_ok _ _ w (Some (md5_hex content)) w) by (by apply try_getHash_file).
    cbn iota beta. rewrite (st_bind_ok _ _ w _ w (readCache_spec c w)).
    rewrite (st_bind_ok _ _ w opt w) by (unfold st_lift; by rewrite Hopt).
    rewrite (st_bind_ok _ _ w (js_spread opt) w) by (unfold st_lift; by rewrite js_entries_nonnull).
    unfold st_lift. rewrite find_entry_spec; [| |done].
    + unfold valid_spec, cache_entries. by rewrite Hp, Hopt.
    + assert (Hw : json_wf (JObj (js_spread opt))).
      { apply js_spread_wf. eapply destructure_default_wf; [apply cache_value_wf | done]. }
      by apply json_wf_obj in Hw as [? _].
Qed.

Lemma cache_opt_wf fs c opt :
  destructure_default (cache_value fs c) "optimized" = Ret opt -> json_wf opt.
Proof. intros H. eapply destructure_default_wf; [apply cache_value_wf | done]. Qed.

Lemma cache_value_recorded md5_hex c w p content opt :
  destructure_default (cache_value (w_fs w) c) "optimized" = Ret opt ->
  cache_value (recorded_fs md5_hex c w p content) c =
  new_cache_record (w_now w) opt p (md5_hex content).
Proof.
  intros Hopt. unfold cache_value, recorded_fs, read_file. rewrite Hopt, lookup_insert_eq.
  rewrite parse_stringify; [done|]. apply record_wf. by eapply cache_opt_wf.
Qed.

(** [writeCache] refines the design's [record(p)]: on a readable
    record whose directory exists, it succeeds, only the cache file
    changes, the record stays readable, and the stored digest of [p]
    becomes the digest of its current content while every other entry
    keeps its digest (the record is merged, never pruned). *)
Lemma writeCache_eval md5_hex c p w content :
  cache_ok (w_fs w) c ->
  w_fs w !! p = Some (File content) ->
  p <> cacheFile c -> cacheFile c <> [] ->
  w_fs w !! removelast (cacheFile c) = Some Dir -> w_fs w !! cacheFile c <> Some Dir ->
  writeCache md5_hex c p w = (Ret tt, set_fs w (recorded_fs md5_hex c w p content)) /\
  cache_ok (recorded_fs md5_hex c w p content) c /\
  forall k, stored (cache_entries (recorded_fs md5_hex c w p content) c) k =
            if decide (k = path_str p) then Some (md5_hex content)
            else stored (cache_entries (w_fs w) c) k.
Proof.
  intros (opt & Hopt & Hnn & Hents) Hp Hpc Hc Hdir Hnd.
  pose proof (cache_value_recorded md5_hex c w p content opt Hopt) as Hrec.
  split; [|split].
  - unfold writeCache.
    rewrite (st_bind_ok _ _ w true w) by (apply existsSync_some; rewrite Hp; eauto). cbn [negb].
    rewrite (st_bind_ok _ _ w _ w (readCache_spec c w)).
    rewrite (st_bind_ok _ _ w opt w) by (unfold st_lift; by rewrite Hopt).
    rewrite (st_bind_ok _ _ w (w_now w) w) by done.
    rewrite (st_bind_ok _ _ w (md5_hex content) w)
      by (cbv beta delta [getHash st_bind readFileSync read_file st_ret]; by rewrite Hp).
    unfold writeFileSync. rewrite write_file_succeeds by done.
    unfold recorded_fs. by rewrite Hopt.
  - exists (JObj (obj_set (js_spread opt) (path_str p) (JObj [("hash", JStr (md5_hex content))]))).
    rewrite Hrec. split; [done|]. split; [done|]. simpl. by apply (obj_set_values (fun v => v <> JNull)).
  - intros k. unfold cache_entries. rewrite Hrec, Hopt. simpl. rewrite stored_obj_set.
    by case_decide.
Qed.

(** The record written for [p] validates [p]. *)
Lemma recorded_valid md5_hex c p w content :
  cache_ok (w_fs w) c ->
  w_fs w !! p = Some (File content) ->
  p <> cacheFile c -> cacheFile c <> [] ->
  w_fs w !! removelast (cacheFile c) = Some Dir -> w_fs w !! cacheFile c <> Some Dir ->
  valid_spec md5_hex (stored (cache_entries (recorded_fs md5_hex c w p content) c))
    (recorded_fs md5_hex c w p content) p = true.
Proof.
  intros Hok Hp Hpc Hc Hdir Hnd.
  destruct (writeCache_eval md5_hex c p w content) as (_ & _ & Hst); [done..|].
  assert (Hl : recorded_fs md5_hex c w p content !! p = Some (File content))
    by (unfold recorded_fs; by rewrite lookup_insert_ne by congruence).
  unfold valid_spec. rewrite Hl, Hst, decide_True by done. by apply bool_decide_eq_true_2.
Qed.

(** Writing any file but the cache file leaves the record as it was. *)
Lemma cache_value_insert_ne fs c q x :
  q <> cacheFile c -> cache_value (<[q := x]> fs) c = cache_value fs c.
Proof. intros Hq. unfold cache_value, read_file. by rewrite lookup_insert_ne by congruence. Qed.

Lemma cache_ok_insert_ne fs c q x :
  q <> cacheFile c -> cache_ok (<[q := x]> fs) c <-> cache_ok fs c.
Proof. intros Hq. unfold cache_ok. by rewrite cache_value_insert_ne. Qed.

Lemma cache_entries_insert_ne fs c q x :
  q <> cacheFile c -> cache_entries (<[q := x]> fs) c = cache_entries fs c.
Proof. intros Hq. unfold cache_entries. by rewrite cache_value_insert_ne. Qed.

(** Writing a file other than the artifact and the cache file does not
    change the answer of [checkHash]. *)
Lemma valid_spec_insert_ne md5_hex st fs p q x :
  q <> p -> valid_spec md5_hex st (<[q := x]> fs) p = valid_spec md5_hex st fs p.
Proof. intros Hq. unfold valid_spec. by rewrite lookup_insert_ne by done. Qed.

Lemma checkHash_frame md5_hex c p q x w :
  cache_ok (w_fs w) c -> q <> p -> q <> cacheFile c ->
  checkHash md5_hex c p (set_fs w (<[q := x]> (w_fs w))) =
  ((checkHash md5_hex c p w).1, set_fs w (<[q := x]> (w_fs w))).
Proof.
  intros Hok Hp Hc. rewrite !checkHash_eval by (simpl; try apply cache_ok_insert_ne; done).
  simpl. by rewrite cache_entries_insert_ne, valid_spec_insert_ne.
Qed.

Lemma valid_spec_file md5_hex st fs p :
  valid_spec md5_hex st fs p = true -> exists content, fs !! p = Some (File content).
Proof. unfold valid_spec. destruct (fs !! p) as [[|content]|]; eauto; done. Qed.

(** A decision procedure for [cache_ok]. *)
Definition cache_okb (fs : gmap path node) (c : Cache) : bool :=
  match destructure_default (cache_value fs c) "optimized" with
  | Ret opt => bool_decide (opt <> JNull) && forallb (fun kv => bool_decide (kv.2 <> JNull)) (js_spread opt)
  | Exn _ => false
  end.

Lemma cache_okb_sound fs c : cache_okb fs c = true -> cache_ok fs c.
Proof.
  unfold cache_okb. destruct (destructure_default (cache_value fs c) "optimized") as [opt|] eqn:E; [|done].
  intros [Hn Hall]%andb_prop. exists opt. split; [done|]. split; [by apply bool_decide_eq_true in Hn|].
  apply Forall_forall. intros kv Hkv. apply list_elem_of_In in Hkv.
  apply (bool_decide_eq_true (kv.2 <> JNull)). exact (proj1 (forallb_forall _ _) Hall kv Hkv).
Qed.

(** C1: [checkHash] refines the design's [isValid]: with a readable
    record it answers, without touching the world, whether the artifact
    exists as a file whose digest is the one the record stores for its
    path. *)
Theorem checkHash_refines md5_hex c p w :
  cache_ok (w_fs w) c ->
  checkHash md5_hex c p w =
  (Ret (valid_spec md5_hex (stored (cache_entries (w_fs w) c)) (w_fs w) p), w).
Proof. apply checkHash_eval. Qed.

(** C2: [writeCache(p)] refines the design's [record]: it rewrites the
    cache file only, keeps the record readable, stores the digest of
    [p]'s current content under [p]'s path and keeps every other entry
    (entries are merged, never pruned). *)
Theorem writeCache_refines md5_hex c p w content :
  cache_ok (w_fs w) c ->
  w_fs w !! p = Some (File content) ->
  p <> cacheFile c -> cacheFile c <> [] ->
  w_fs w !! removelast (cacheFile c) = Some Dir -> w_fs w !! cacheFile c <> Some Dir ->
  writeCache md5_hex c p w = (Ret tt, set_fs w (recorded_fs md5_hex c w p content)) /\
  cache_ok (recorded_fs md5_hex c w p content) c /\
  forall k, stored (cache_entries (recorded_fs md5_hex c w p content) c) k =
            if decide (k = path_str p) then Some (md5_hex content)
            else stored (cache_entries (w_fs w) c) k.
Proof. apply writeCache_eval. Qed.

(** C3: recording an artifact makes the next [checkHash] of it succeed:
    the write-then-check round trip of the cache. *)
Corollary writeCache_checkHash md5_hex c p w content :
  cache_ok (w_fs w) c ->
  w_fs w !! p = Some (File content) ->
  p <> cacheFile c -> cacheFile c <> [] ->
  w_fs w !! removelast (cacheFile c) = Some Dir -> w_fs w !! cacheFile c <> Some Dir ->
  exists w', writeCache md5_hex c p w = (Ret tt, w') /\ checkHash md5_hex c p w' = (Ret true, w').
Proof.
  intros Hok Hp Hpc Hc Hdir Hnd.
  destruct (writeCache_eval md5_hex c p w content) as (Hw & Hok' & _); [done..|].
  eexists. split; [exact Hw|]. rewrite checkHash_eval by done. simpl.
  by rewrite (recorded_valid md5_hex c p w content).
Qed.

(** C26: [writeCache] of a missing artifact throws [Error("<path> is not
    exist!")] before reading or writing anything. *)
Theorem writeCache_missing md5_hex c p w :
  w_fs w !! p = None -> writeCache md5_hex c p w = (Exn (Error (path_str p +:+ " is not exist!")), w).
Proof. intros H. unfold writeCache. by rewrite (st_bind_ok _ _ w false w) by (by apply existsSync_none). Qed.

(** ** [checkHash] as a function of the file map *)

(** What [checkHash] returns, read off the file map alone. *)
Definition checkHash_out (md5_hex : string -> string) (c : Cache) (p : path) (fs : gmap path node)
    : outcome bool :=
  match fs !! p with
  | Some (File content) =>
      match destructure_default (cache_value fs c) "optimized" with
      | Exn e => Exn e
      | Ret opt =>
          match js_entries opt with
          | Exn e => Exn e
          | Ret ents => find_entry (path_str p) (md5_hex content) ents
          end
      end
  | _ => Ret false
  end.

Lemma checkHash_out_eq md5_hex c p w : checkHash md5_hex c p w = (checkHash_out md5_hex c p (w_fs w), w).
Proof.
  unfold checkHash_out. destruct (w_fs w !! p) as [[|content]|] eqn:Hp;
    [ | | by rewrite checkHash_missing ];
    (assert (Hex : existsSync p w = (Ret true, w)) by (apply existsSync_some; rewrite Hp; eauto));
    unfold checkHash; rewrite (st_bind_ok _ _ _ _ _ Hex); cbn [negb].
  - by rewrite (st_bind_ok _ _ w None w) by (by apply try_getHash_dir).
  - rewrite (st_bind_ok _ _ w (Some (md5_hex content)) w) by (by apply try_getHash_file).
    cbn iota beta. rewrite (st_bind_ok _ _ w _ w (readCache_spec c w)).
    unfold st_bind at 1, st_lift. destruct (destructure_default _ _) as [opt|e]; [|done].
    unfold st_bind. by destruct (js_entries opt).
Qed.

(** [checkHash] reads the artifact and the cache file, nothing else. *)
Lemma checkHash_out_local md5_hex c p fs1 fs2 :
  fs1 !! p = fs2 !! p -> fs1 !! cacheFile c = fs2 !! cacheFile c ->
  checkHash_out md5_hex c p fs1 = checkHash_out md5_hex c p fs2.
Proof. intros H1 H2. unfold checkHash_out, cache_value, read_file. by rewrite H1, H2. Qed.

(** A [true] answer needs both files. *)
Lemma checkHash_out_true_files md5_hex c p fs :
  checkHash_out md5_hex c p fs = Ret true ->
  (exists s, fs !! p = Some (File s)) /\ (exists s, fs !! cacheFile c = Some (File s)).
Proof.
  unfold checkHash_out. destruct (fs !! p) as [[|content]|]; try done.
  intros H. split; [eauto|]. revert H. unfold cache_value, read_file.
  destruct (fs !! cacheFile c) as [[|s]|]; [done | eauto | done].
Qed.

Lemma find_entry_obj_set_ne k k' h m ents :
  k <> k' -> find_entry k h (obj_set ents k' m) = find_entry k h ents.
Proof.
  intros Hk. induction ents as [|[k2 v2] ents IH]; simpl.
  - by rewrite decide_False.
  - destruct (decide (k' = k2)) as [<-|Hne]; simpl.
    + by rewrite !decide_False.
    + destruct (decide (k = k2)); [|exact IH].
      destruct (get_field v2 "hash"); [|done]. case_decide; [done | exact IH].
Qed.

Lemma find_entry_obj_set_eq k h ents : find_entry k h (obj_set ents k (JObj [("hash", JStr h)])) = Ret true.
Proof.
  induction ents as [|[k2 v2] ents IH]; simpl.
  - rewrite decide_True by done. simpl. by rewrite decide_True.
  - destruct (decide (k = k2)) as [<-|Hne]; simpl.
    + rewrite decide_True by done. simpl. by rewrite decide_True.
    + by rewrite decide_False.
Qed.

(** What a [writeCache] that returns has done. *)
Lemma writeCache_ret md5_hex c p w w' :
  writeCache md5_hex c p w = (Ret tt, w') ->
  exists opt content,
    destructure_default (cache_value (w_fs w) c) "optimized" = Ret opt /\
    w_fs w !! p = Some (File content) /\ w' = set_fs w (recorded_fs md5_hex c w p content).
Proof.
  unfold writeCache. intros (ex & w1 & Hex & H)%st_bind_ret_inv.
  unfold existsSync in Hex. injection Hex as <- <-.
  destruct (exists_sync _ _); [|done]. cbn [negb] in H.
  apply st_bind_ret_inv in H as (cache & w2 & Hr & H). rewrite readCache_spec in Hr. injection Hr as <- <-.
  apply st_bind_ret_inv in H as (opt & w3 & Ho & H). unfold st_lift in Ho.
  destruct (destructure_default _ _) as [o|] eqn:Hopt; [injection Ho as -> <-|done].
  apply st_bind_ret_inv in H as (now & w4 & Hn & H). injection Hn as <- <-.
  apply st_bind_ret_inv in H as (h & w5 & Hh & H).
  unfold getHash in Hh. apply st_bind_ret_inv in Hh as (content & w6 & Hc & Hh).
  unfold readFileSync, read_file in Hc. destruct (w_fs w !! p) as [[|s]|] eqn:Hp; try done.
  injection Hc as <- <-. injection Hh as <- <-.
  exists opt, s. split; [done|]. split; [done|].
  unfold writeFileSync in H. destruct (write_file _ _ _) as [fs|] eqn:Hw; [|done].
  injection H as <-. apply write_file_ok in Hw as (_ & _ & _ & ->). unfold recorded_fs. by rewrite Hopt.
Qed.

Lemma record_optimized now opt p h :
  destructure_default (new_cache_record now opt p h) "optimized" =
  Ret (JObj (obj_set (js_spread opt) (path_str p) (JObj [("hash", JStr h)]))).
Proof. reflexivity. Qed.

(** After [writeCache(p)], [checkHash(p)] succeeds and every other
    artifact keeps a [true] answer. *)
Lemma recorded_checkHash_self md5_hex c w p content opt :
  destructure_default (cache_value (w_fs w) c) "optimized" = Ret opt ->
  p <> cacheFile c -> w_fs w !! p = Some (File content) ->
  checkHash_out md5_hex c p (recorded_fs md5_hex c w p content) = Ret true.
Proof.
  intros Hopt Hpc Hp. unfold checkHash_out. rewrite (cache_value_recorded md5_hex c w p content opt Hopt).
  unfold recorded_fs. rewrite lookup_insert_ne by congruence. rewrite Hp.
  apply find_entry_obj_set_eq.
Qed.

Lemma recorded_checkHash_other md5_hex c w p content opt q :
  destructure_default (cache_value (w_fs w) c) "optimized" = Ret opt ->
  q <> cacheFile c -> path_str q <> path_str p ->
  checkHash_out md5_hex c q (w_fs w) = Ret true ->
  checkHash_out md5_hex c q (recorded_fs md5_hex c w p content) = Ret true.
Proof.
  intros Hopt Hqc Hs. unfold checkHash_out. rewrite (cache_value_recorded md5_hex c w p content opt Hopt).
  unfold recorded_fs at 1. rewrite lookup_insert_ne by congruence. rewrite Hopt.
  destruct (w_fs w !! q) as [[|s]|]; try done. rewrite record_optimized. cbn [js_entries js_spread].
  rewrite find_entry_obj_set_ne by done. by destruct opt.
Qed.

(** C16: read your writes: once [writeCache(p)] has returned, a
    [readCache()] reads back exactly the record [writeCache] built
    through [JSON.stringify] and [JSON.parse]: the timestamp, every
    entry the record held before, and the digest of [p]'s content
    under [p]'s path. *)
Theorem writeCache_readCache md5_hex c p w w' :
  writeCache md5_hex c p w = (Ret tt, w') ->
  exists opt content,
    destructure_default (cache_value (w_fs w) c) "optimized" = Ret opt /\
    w_fs w !! p = Some (File content) /\
    readCache c w' = (Ret (new_cache_record (w_now w) opt p (md5_hex content)), w').
Proof.
  intros H. destruct (writeCache_ret _ _ _ _ _ H) as (opt & content & Hopt & Hp & ->).
  exists opt, content. split; [done|]. split; [done|].
  rewrite readCache_spec. cbn [w_fs set_fs]. by rewrite (cache_value_recorded _ _ _ _ _ _ Hopt).
Qed.

(** ** Witnesses *)

Definition ex_md5 (s : string) : string := "md5:" +:+ s.
Definition ex_cache : Cache := new_Cache ["nm"; "c"].
Definition ex_cfs : gmap path node :=
  list_to_map [([], Dir); (["nm"], Dir); (["nm"; "c"], Dir); (["nm"; "c"; "x"], Dir);
               (["nm"; "c"; "x"; "index.js"], File "abc")].
Definition ex_cw : world := mkWorld ex_cfs 42 [] [].
Definition ex_p : path := ["nm"; "c"; "x"; "index.js"].

Lemma ex_cache_ok : cache_ok ex_cfs ex_cache.
Proof. exists (JObj []). split; [reflexivity|]. split; [discriminate | constructor]. Qed.

Lemma checkHash_refines_witness :
  cache_ok (w_fs ex_cw) ex_cache /\
  checkHash ex_md5 ex_cache ex_p ex_cw =
  (Ret (valid_spec ex_md5 (stored (cache_entries (w_fs ex_cw) ex_cache)) (w_fs ex_cw) ex_p), ex_cw).
Proof. split; [exact ex_cache_ok | apply checkHash_refines; exact ex_cache_ok]. Defined.

Lemma writeCache_refines_witness :
  cache_ok (w_fs ex_cw) ex_cache /\ w_fs ex_cw !! ex_p = Some (File "abc") /\
  ex_p <> cacheFile ex_cache /\ cacheFile ex_cache <> [] /\
  w_fs ex_cw !! removelast (cacheFile ex_cache) = Some Dir /\
  w_fs ex_cw !! cacheFile ex_cache <> Some Dir /\
  (writeCache ex_md5 ex_cache ex_p ex_cw =
     (Ret tt, set_fs ex_cw (recorded_fs ex_md5 ex_cache ex_cw ex_p "abc")) /\
   cache_ok (recorded_fs ex_md5 ex_cache ex_cw ex_p "abc") ex_cache /\
   forall k, stored (cache_entries (recorded_fs ex_md5 ex_cache ex_cw ex_p "abc") ex_cache) k =
     if decide (k = path_str ex_p) then Some (ex_md5 "abc")
     else stored (cache_entries (w_fs ex_cw) ex_cache) k).
Proof.
  assert (H2 : w_fs ex_cw !! ex_p = Some (File "abc")) by reflexivity.
  assert (H3 : ex_p <> cacheFile ex_cache) by by_decide.
  assert (H4 : cacheFile ex_cache <> []) by by_decide.
  assert (H5 : w_fs ex_cw !! removelast (cacheFile ex_cache) = Some Dir) by reflexivity.
  assert (H6 : w_fs ex_cw !! cacheFile ex_cache <> Some Dir) by by_decide.
  repeat (split; [assumption || exact ex_cache_ok|]).
  exact (writeCache_refines ex_md5 ex_cache ex_p ex_cw "abc" ex_cache_ok H2 H3 H4 H5 H6).
Defined.

Lemma writeCache_checkHash_witness :
  cache_ok (w_fs ex_cw) ex_cache /\ w_fs ex_cw !! ex_p = Some (File "abc") /\
  ex_p <> cacheFile ex_cache /\ cacheFile ex_cache <> [] /\
  w_fs ex_cw !! removelast (cacheFile ex_cache) = Some Dir /\
  w_fs ex_cw !! cacheFile ex_cache <> Some Dir /\
  exists w', writeCache ex_md5 ex_cache ex_p ex_cw = (Ret tt, w') /\
             checkHash ex_md5 ex_cache ex_p w' = (Ret true, w').
Proof.
  assert (H2 : w_fs ex_cw !! ex_p = Some (File "abc")) by reflexivity.
  assert (H3 : ex_p <> cacheFile ex_cache) by by_decide.
  assert (H4 : cacheFile ex_cache <> []) by by_decide.
  assert (H5 : w_fs ex_cw !! removelast (cacheFile ex_cache) = Some Dir) by reflexivity.
  assert (H6 : w_fs ex_cw !! cacheFile ex_cache <> Some Dir) by by_decide.
  repeat (split; [assumption || exact ex_cache_ok|]).
  exact (writeCache_checkHash ex_md5 ex_cache ex_p ex_cw "abc" ex_cache_ok H2 H3 H4 H5 H6).
Defined.

Lemma checkHash_missing_witness :
  w_fs ex_cw !! ["nm"; "c"; "y"; "index.js"] = None /\
  checkHash ex_md5 ex_cache ["nm"; "c"; "y"; "index.js"] ex_cw = (Ret false, ex_cw).
Proof.
  assert (H : w_fs ex_cw !! ["nm"; "c"; "y"; "index.js"] = None) by reflexivity.
  split; [exact H | exact (checkHash_missing ex_md5 ex_cache _ ex_cw H)].
Defined.

(** ** Where the cache does not fail open *)

(** C25: A cache file whose content is [null] parses, and the destructuring
    [const { optimized = {} } = this.readCache()] then throws: [checkHash]
    of an existing artifact raises a [TypeError] instead of answering
    [false]. *)
Theorem checkHash_null_record md5_hex c p w content :
  w_fs w !! p = Some (File content) ->
  w_fs w !! cacheFile c = Some (File "null") ->
  exists e, checkHash md5_hex c p w = (Exn (TypeError e), w).
Proof.
  intros Hp Hc. eexists. unfold checkHash.
  rewrite (st_bind_ok _ _ w true w) by (apply existsSync_some; rewrite Hp; eauto). cbn [negb].
  rewrite (st_bind_ok _ _ w (Some (md5_hex content)) w) by (by apply try_getHash_file).
  cbn iota beta. rewrite (st_bind_ok _ _ w _ w (readCache_spec c w)).
  unfold cache_value, read_file. rewrite Hc. reflexivity.
Qed.

Lemma checkHash_null_record_witness :
  w_fs (set_fs ex_cw (<[cacheFile ex_cache := File "null"]> ex_cfs)) !! ex_p = Some (File "abc") /\
  w_fs (set_fs ex_cw (<[cacheFile ex_cache := File "null"]> ex_cfs)) !! cacheFile ex_cache
    = Some (File "null") /\
  exists e, checkHash ex_md5 ex_cache ex_p (set_fs ex_cw (<[cacheFile ex_cache := File "null"]> ex_cfs))
            = (Exn (TypeError e), set_fs ex_cw (<[cacheFile ex_cache := File "null"]> ex_cfs)).
Proof.
  assert (H1 : w_fs (set_fs ex_cw (<[cacheFile ex_cache := File "null"]> ex_cfs)) !! ex_p
    = Some (File "abc")) by reflexivity.
  assert (H2 : w_fs (set_fs ex_cw (<[cacheFile ex_cache := File "null"]> ex_cfs)) !! cacheFile ex_cache
    = Some (File "null")) by reflexivity.
  split; [exact H1|]. split; [exact H2|]. exact (checkHash_null_record ex_md5 _ _ _ _ H1 H2).
Defined.

Lemma writeCache_missing_witness :
  w_fs ex_cw !! ["nm"; "c"; "y"; "index.js"] = None /\
  writeCache ex_md5 ex_cache ["nm"; "c"; "y"; "index.js"] ex_cw =
  (Exn (Error (path_str ["nm"; "c"; "y"; "index.js"] +:+ " is not exist!")), ex_cw).
Proof.
  assert (H : w_fs ex_cw !! ["nm"; "c"; "y"; "index.js"] = None) by reflexivity.
  split; [exact H | exact (writeCache_missing ex_md5 ex_cache _ ex_cw H)].
Defined.

Lemma writeCache_readCache_witness :
  writeCache ex_md5 ex_cache ex_p ex_cw = (Ret tt, (writeCache ex_md5 ex_cache ex_p ex_cw).2) /\
  exists opt content,
    destructure_default (cache_value (w_fs ex_cw) ex_cache) "optimized" = Ret opt /\
    w_fs ex_cw !! ex_p = Some (File content) /\
    readCache ex_cache (writeCache ex_md5 ex_cache ex_p ex_cw).2
      = (Ret (new_cache_record (w_now ex_cw) opt ex_p (ex_md5 content)),
         (writeCache ex_md5 ex_cache ex_p ex_cw).2).
Proof.
  assert (H : writeCache ex_md5 ex_cache ex_p ex_cw = (Ret tt, (writeCache ex_md5 ex_cache ex_p ex_cw).2))
    by (vm_compute; reflexivity).
  split; [exact H | exact (writeCache_readCache _ _ _ _ _ H)].
Defined.
