(* ===== verification/BuildConfig.v ===== *)
(** * BuildConfig: src/build-config.ts

    - [builtins]: ['electron'], the Node built-in module names that do
      not start with ['_'], and the same names prefixed with ['node:'];
    - [modifyAlias]: turns an object-form [resolve.alias] into the array
      form and appends the new aliases;
    - [modifyOptimizeDeps]: appends to [optimizeDeps.exclude] the names
      it does not already hold;
    - [withExternal] and [setOutputFormat]: the Rollup options the
      [build-config] plugin forces when [nodeIntegration] is on;
    - the two plugins' [config] hooks.

    The Vite configuration is a record of optional fields ([None] is
    [undefined]); [x ??= v] is [default_to]. *)

From S2P Require Import Prelude.
Local Open Scope string_scope.
Local Open Scope list_scope.

(** ** [builtins] (lines 9-13) *)

Definition not_underscore (m : string) : bool := negb (str_starts "_" m).

Definition builtins (builtinModules : list string) : list string :=
  ["electron"] ++ filter not_underscore builtinModules
  ++ map (fun m => "node:" +:+ m) (filter not_underscore builtinModules).

(** ** The Vite configuration the hooks touch *)

(** [find] of an alias: a string, or a [RegExp] given by its source. *)
Inductive AliasFind := FindStr (s : string) | FindRegExp (source : string).

#[export] Instance AliasFind_eq_dec : EqDecision AliasFind.
Proof. solve_decision. Defined.

Record Alias := mkAlias { find : AliasFind; replacement : string }.

#[export] Instance Alias_eq_dec : EqDecision Alias.
Proof.
  intros [f1 r1] [f2 r2].
  destruct (decide (f1 = f2)), (decide (r1 = r2)); [left; congruence | right; congruence..].
Defined.

(** [resolve.alias]: an array of aliases or an object [{ find: replacement }]. *)
Inductive AliasOption := AliasArray (l : list Alias) | AliasObject (kvs : list (string * string)).

(** [rollupOptions.external]: a string, a [RegExp], an array of both, or
    a function [(source, importer, isResolved) => boolean | undefined]. *)
Inductive ExternalItem := ExtItemStr (s : string) | ExtItemRegExp (source : string).

#[export] Instance ExternalItem_eq_dec : EqDecision ExternalItem.
Proof. solve_decision. Defined.

Inductive ExternalOption :=
  | ExtString (s : string)
  | ExtRegExp (source : string)
  | ExtArray (l : list ExternalItem)
  | ExtFunction (f : string -> option string -> bool -> option bool).

Record OutputOptions := mkOutput { format : option string; output_rest : list (string * string) }.

Inductive OutputOption := OutputOne (o : OutputOptions) | OutputMany (l : list OutputOptions).

Record RollupOptions := mkRollup { external : option ExternalOption; output : option OutputOption }.

Record BuildOptions := mkBuild {
  cssCodeSplit : option bool;
  assetsDir : option string;
  rollupOptions : option RollupOptions;
}.

Record UserConfig := mkConfig {
  base : option string;
  build : option BuildOptions;
  resolve_alias : option (option AliasOption);   (** [resolve] and [resolve.alias] *)
  optimizeDeps_exclude : option (option (list string));  (** [optimizeDeps] and its [exclude] *)
}.

(** [x ??= v] *)
Definition default_to {A} (x : option A) (v : A) : A :=
  match x with Some a => a | None => v end.

(** ** [modifyOptimizeDeps] (lines 111-115) *)

(** [exclude.push(...list.filter(e => !exclude.includes(e)))]: the filter
    runs before the push, so a name repeated in [l] is pushed twice. *)
Definition push_new (exclude l : list string) : list string :=
  exclude ++ filter (fun e => negb (includes exclude e)) l.

Definition modifyOptimizeDeps (config : UserConfig) (exclude : list string) : UserConfig :=
  let od := default_to (optimizeDeps_exclude config) None in
  let ex := default_to od [] in
  mkConfig (base config) (build config) (resolve_alias config) (Some (Some (push_new ex exclude))).

(** ** [modifyAlias] (lines 117-126) *)

(** [Object.entries(alias).reduce((memo, [find, replacement]) =>
    memo.concat({ find, replacement }), [])] *)
Definition alias_reduce (kvs : list (string * string)) : list Alias :=
  fold_left (fun memo '(f, r) => memo ++ [mkAlias (FindStr f) r]) kvs [].

Definition alias_array (a : AliasOption) : list Alias :=
  match a with
  | AliasArray l => l
  | AliasObject kvs => alias_reduce kvs
  end.

Definition modifyAlias (config : UserConfig) (aliases : list Alias) : UserConfig :=
  let r := default_to (resolve_alias config) None in
  let a := default_to r (AliasArray []) in
  mkConfig (base config) (build config) (Some (Some (AliasArray (alias_array a ++ aliases))))
           (optimizeDeps_exclude config).

(** ** [withExternal] (lines 77-97) *)

(** [builtins.concat(external)]: an array is flattened one level, a
    string or a [RegExp] is appended as one item. *)
Definition ext_items (e : ExternalOption) : list ExternalItem :=
  match e with
  | ExtString s => [ExtItemStr s]
  | ExtRegExp r => [ExtItemRegExp r]
  | ExtArray l => l
  | ExtFunction _ => []
  end.

Definition withExternal (bm : list string) (external : option ExternalOption) : ExternalOption :=
  match external with
  | Some (ExtFunction original) =>
      ExtFunction (fun source importer isResolved =>
        if includes (builtins bm) source then Some true else original source importer isResolved)
  | Some e => ExtArray (map ExtItemStr (builtins bm) ++ ext_items e)
  | None => ExtArray (map ExtItemStr (builtins bm))
  end.

(** Whether Rollup treats [source] as external: a string item equal to
    it, a [RegExp] item that matches it ([rx pattern source] is the
    regular-expression test, left abstract), or the function answering
    [true] for the given [importer] and [isResolved]. *)
Definition item_hit (rx : string -> string -> bool) (source : string) (it : ExternalItem) : bool :=
  match it with
  | ExtItemStr s => bool_decide (s = source)
  | ExtItemRegExp r => rx r source
  end.

Definition external_hit (rx : string -> string -> bool) (e : ExternalOption) (source : string)
    (importer : option string) (isResolved : bool) : bool :=
  match e with
  | ExtFunction f => bool_decide (f source importer isResolved = Some true)
  | e => existsb (item_hit rx source) (ext_items e)
  end.

(** ** [setOutputFormat] (lines 100-109) *)

(** [o.format ??= 'cjs'] *)
Definition default_format (o : OutputOptions) : OutputOptions :=
  mkOutput (Some (default_to (format o) "cjs")) (output_rest o).

Definition setOutputFormat (r : RollupOptions) : RollupOptions :=
  let out := default_to (output r) (OutputOne (mkOutput None [])) in
  mkRollup (external r)
    (Some (match out with
           | OutputMany l => OutputMany (map default_format l)
           | OutputOne o => OutputOne (default_format o)
           end)).

(** ** The [builtins] plugin's [config] hook (lines 17-46) *)

Definition polyfill (m : string) : string := "@sillot/vite-plugin-electron-renderer/builtins/" +:+ m.

Definition builtin_aliases (nodeIntegration : bool) (bm : list string) : list Alias :=
  mkAlias (FindStr "electron") (polyfill "electron")
  :: (if nodeIntegration then
        map (fun m => mkAlias (FindRegExp ("^(node:)?" +:+ m +:+ "$")) (polyfill m))
          (filter (fun m => negb (str_starts "node:" m))
             (filter (fun m => bool_decide (m <> "electron")) (builtins bm)))
      else []).

Definition builtins_config (nodeIntegration : bool) (bm : list string) (config : UserConfig) : UserConfig :=
  let aliases := builtin_aliases nodeIntegration bm in
  modifyOptimizeDeps (modifyAlias config aliases)
    (if nodeIntegration then builtins bm ++ map replacement aliases
     else ["electron"; polyfill "electron"]).

(** ** The [build-config] plugin's [config] hook (lines 47-73) *)

Definition build_config (nodeIntegration : bool) (bm : list string) (config : UserConfig) : UserConfig :=
  let b := default_to (build config) (mkBuild None None None) in
  let b := mkBuild (Some (default_to (cssCodeSplit b) false)) (Some (default_to (assetsDir b) ""))
                   (rollupOptions b) in
  let b := if nodeIntegration then
             let r := default_to (rollupOptions b) (mkRollup None None) in
             let r := mkRollup (Some (withExternal bm (external r))) (output r) in
             mkBuild (cssCodeSplit b) (assetsDir b) (Some (setOutputFormat r))
           else b in
  mkConfig (Some (default_to (base config) "./")) (Some b) (resolve_alias config)
           (optimizeDeps_exclude config).

(** [buildConfig(nodeIntegration)]: the plugins in order, with the
    command they apply to ([None]: both). *)
Definition plugin_names : list (string * option string) :=
  [("@sillot/vite-plugin-electron-renderer:builtins", None);
   ("@sillot/vite-plugin-electron-renderer:build-config", Some "build")].

(** ** Theorems *)

Lemma existsb_str_items rx (l : list string) source :
  existsb (item_hit rx source) (map ExtItemStr l) = includes l source.
Proof.
  unfold includes. induction l as [|m l IH]; simpl; [done|]. rewrite IH.
  destruct (decide (m = source)) as [->|Hne]; repeat case_bool_decide; simplify_eq/=;
    first [done | set_solver].
Qed.

(** [withExternal] makes every built-in module external and keeps what
    the user marked external: for every importer and every way of
    matching a [RegExp], the answer is exactly "a built-in, or external
    for the user's option". *)
Theorem withExternal_hit bm ext rx source importer isResolved :
  external_hit rx (withExternal bm ext) source importer isResolved =
  includes (builtins bm) source ||
  match ext with Some e => external_hit rx e source importer isResolved | None => false end.
Proof.
  destruct ext as [[s|r|l|f]|]; cbn [withExternal external_hit ext_items];
    rewrite ?existsb_app, ?existsb_str_items; cbn [existsb]; rewrite ?orb_false_r; try done.
  destruct (includes (builtins bm) source); simpl; done.
Qed.

Definition outputs (o : option OutputOption) : list OutputOptions :=
  match o with Some (OutputOne x) => [x] | Some (OutputMany l) => l | None => [] end.

Lemma default_format_kept o :
  format (default_format o) = Some "cjs" \/ (exists f, format (default_format o) = Some f /\ format o = Some f).
Proof. unfold default_format; simpl. destruct (format o); eauto. Qed.

(** Every output of the Rollup options ends with a format; a format the
    user gave is kept, a missing one becomes ['cjs']; there is at least
    one output. *)
Theorem setOutputFormat_formats r :
  external (setOutputFormat r) = external r /\
  Forall (fun o => format o = Some "cjs" \/ exists f, format o = Some f /\
          exists o0, o0 ∈ outputs (output r) /\ format o0 = Some f) (outputs (output (setOutputFormat r))) /\
  (output r = None -> outputs (output (setOutputFormat r)) = [mkOutput (Some "cjs") []]).
Proof.
  destruct r as [ext [[o|l]|]]; cbn; (split; [done|]).
  - split; [|intros [=]]. apply Forall_singleton.
    destruct (default_format_kept o) as [?|(f & ? & ?)]; [by left|].
    right. exists f. split; [done|]. exists o. split; [set_solver|done].
  - split; [|intros [=]]. apply Forall_forall. intros o' (o & -> & Ho)%list_elem_of_fmap.
    destruct (default_format_kept o) as [?|(f & ? & ?)]; [by left|].
    right. exists f. split; [done|]. by exists o.
  - split; [apply Forall_singleton; by left | done].
Qed.

(** C17: With [nodeIntegration], the [build-config] hook keeps the user's
    [base] (default ['./']), makes every built-in module external on top
    of the user's [external] (strings, [RegExp]s and functions alike, for
    every importer and every [RegExp] matcher), gives every Rollup output a format, and
    leaves the aliases and the exclusions alone. *)
Theorem build_config_contract bm config :
  base (build_config true bm config) = Some (default_to (base config) "./") /\
  exists b r e,
    build (build_config true bm config) = Some b /\ rollupOptions b = Some r /\ external r = Some e /\
    (forall rx m importer isResolved, external_hit rx e m importer isResolved =
       includes (builtins bm) m ||
       match (build config ≫= rollupOptions) ≫= external with
       | Some e0 => external_hit rx e0 m importer isResolved | None => false end) /\
    Forall (fun o => is_Some (format o)) (outputs (output r)) /\
    resolve_alias (build_config true bm config) = resolve_alias config /\
    optimizeDeps_exclude (build_config true bm config) = optimizeDeps_exclude config.
Proof.
  split; [done|]. do 3 eexists. split; [reflexivity|]. split; [reflexivity|]. split; [reflexivity|].
  split; [|split; [|done]].
  - intros rx m i r. rewrite withExternal_hit. by destruct (build config) as [[? ? [[? ?]|]]|].
  - match goal with |- Forall _ (outputs (output (setOutputFormat ?r))) =>
      destruct (setOutputFormat_formats r) as (_ & Hf & _) end.
    eapply Forall_impl; [exact Hf|]. intros o [->|(f & -> & _)]; eauto.
Qed.

(** *** [modifyOptimizeDeps] *)

Lemma push_new_covers ex l x : x ∈ ex \/ x ∈ l -> x ∈ push_new ex l.
Proof.
  unfold push_new. rewrite elem_of_app, list_elem_of_filter. intros [H|H]; [by left|].
  destruct (decide (x ∈ ex)) as [|Hn]; [by left|right]. split; [|done].
  apply includes_false in Hn. by rewrite Hn.
Qed.

Lemma push_new_nothing_new ex l : (forall x, x ∈ l -> x ∈ ex) -> push_new ex l = ex.
Proof.
  intros H. unfold push_new. rewrite <-(app_nil_r ex) at 2. f_equal.
  induction l as [|y l IH]; [done|]. rewrite filter_cons_False; [apply IH; set_solver|].
  assert (Hy : includes ex y = true) by (apply includes_spec; set_solver). rewrite Hy. simpl. tauto.
Qed.

(** C20: Running [modifyOptimizeDeps] twice with the same names changes
    nothing the second time: a name already excluded is not pushed
    again. *)
Theorem modifyOptimizeDeps_idem config l :
  modifyOptimizeDeps (modifyOptimizeDeps config l) l = modifyOptimizeDeps config l.
Proof.
  unfold modifyOptimizeDeps. simpl. do 3 f_equal.
  apply push_new_nothing_new. intros x Hx. apply push_new_covers. by right.
Qed.

(** C19: [modifyOptimizeDeps] keeps the exclusions already configured, in
    order, and excludes every given name; it adds no duplicate to a list
    without one when the given names are distinct. *)
Theorem modifyOptimizeDeps_spec config l :
  exists ex ex', optimizeDeps_exclude (modifyOptimizeDeps config l) = Some (Some (ex ++ ex')) /\
    default_to (default_to (optimizeDeps_exclude config) None) [] = ex /\
    (forall x, x ∈ l -> x ∈ ex ++ ex') /\ (forall x, x ∈ ex' -> x ∈ l) /\
    (NoDup ex -> NoDup l -> NoDup (ex ++ ex')).
Proof.
  eexists _, _. split; [reflexivity|]. split; [done|]. split; [|split].
  - intros x Hx. apply push_new_covers. by right.
  - intros x (_ & Hx)%list_elem_of_filter. done.
  - intros Hex Hl. apply NoDup_app. split; [done|]. split; [|by apply NoDup_filter].
    intros x Hx (Hn & _)%list_elem_of_filter. apply includes_spec in Hx. rewrite Hx in Hn. done.
Qed.

(** The exclusions a configuration lists ([[]] when unset). *)
Definition excluded (config : UserConfig) : list string :=
  default_to (default_to (optimizeDeps_exclude config) None) [].

(** C29: [modifyOptimizeDeps] filters against the list as it was before
    the push: a name already excluded is not added again, and a new name
    is excluded as many times as it is given, so a name given twice is
    excluded twice. *)
Theorem modifyOptimizeDeps_repeats config l n :
  length (filter (fun x => x = n) (excluded (modifyOptimizeDeps config l))) =
  length (filter (fun x => x = n) (excluded config)) +
  (if decide (n ∈ excluded config) then 0 else length (filter (fun x => x = n) l)).
Proof.
  unfold excluded at 1, modifyOptimizeDeps, push_new. cbn [optimizeDeps_exclude default_to].
  fold (excluded config). rewrite filter_app, length_app, list_filter_filter. f_equal.
  case_decide as Hn.
  - induction l as [|x l IH]; [done|]. rewrite filter_cons. case_decide as Hx; [|exact IH].
    destruct Hx as [-> Hx]. apply includes_spec in Hn. rewrite Hn in Hx. by destruct Hx.
  - f_equal. apply list_filter_iff. intros x. split; [by intros [-> _] | intros ->].
    split; [done|]. apply includes_false in Hn. by rewrite Hn.
Qed.

(** *** [modifyAlias] *)

Lemma alias_reduce_acc kvs memo :
  fold_left (fun memo '(f, r) => memo ++ [mkAlias (FindStr f) r]) kvs memo
  = memo ++ map (fun '(f, r) => mkAlias (FindStr f) r) kvs.
Proof.
  revert memo. induction kvs as [|[f r] kvs IH]; intros memo; simpl; [by rewrite app_nil_r|].
  by rewrite IH, <- app_assoc.
Qed.

(** C33: [modifyAlias] always leaves an array of aliases: the aliases
    already configured come first, in order (an object becomes one
    string alias per entry), then the new ones. *)
Theorem modifyAlias_spec config aliases :
  resolve_alias (modifyAlias config aliases) =
  Some (Some (AliasArray
    (match resolve_alias config with
     | Some (Some (AliasArray l)) => l
     | Some (Some (AliasObject kvs)) => map (fun '(f, r) => mkAlias (FindStr f) r) kvs
     | _ => []
     end ++ aliases))) /\
  base (modifyAlias config aliases) = base config /\ build (modifyAlias config aliases) = build config /\
  optimizeDeps_exclude (modifyAlias config aliases) = optimizeDeps_exclude config.
Proof.
  unfold modifyAlias. split; [|done].
  destruct (resolve_alias config) as [[[l|kvs]|]|]; cbn [default_to alias_array]; try done.
  unfold alias_reduce. by rewrite alias_reduce_acc.
Qed.

(** *** The [builtins] plugin *)

(** C18: The [builtins] hook always aliases [electron] to its polyfill and
    keeps both out of Vite's pre-bundling; with [nodeIntegration] every
    built-in module name is excluded as well. *)
Theorem builtins_config_electron ni bm config :
  (exists l, resolve_alias (builtins_config ni bm config) = Some (Some (AliasArray l)) /\
     mkAlias (FindStr "electron") (polyfill "electron") ∈ l) /\
  (exists ex, optimizeDeps_exclude (builtins_config ni bm config) = Some (Some ex) /\
     "electron" ∈ ex /\ polyfill "electron" ∈ ex /\
     (ni = true -> forall m, m ∈ builtins bm -> m ∈ ex)).
Proof.
  split.
  - eexists. split; [reflexivity|]. apply elem_of_app. right. by left.
  - eexists. split; [reflexivity|].
    destruct ni; (split; [|split; [|intros ?]]); try discriminate;
      intros; apply push_new_covers; right; simpl; set_solver.
Qed.
