(* ===== verification/Optimizer.v ===== *)
(** * Optimizer: the pre-bundling pipeline of src/optimizer.ts

    [optimizer(options).config(config)] runs in two phases:
    - synchronously ([config_hook]): the classification loop
      ([classify], lines 57-105) turns each [include] item into a
      dependency [{ cjs | esm, filename? }]; the dependency loop
      ([process_dep], lines 107-141) resolves the entry, runs
      [cjsBundling] (synchronous) or the synchronous prefix of the
      [async] [esmBundling], and pushes the alias and the exclusion;
      then [modifyAlias] and [modifyOptimizeDeps] are applied once;
    - later ([esm_task]): each [esmBundling] call that missed the cache
      continues after [await import('esbuild')]; nobody awaits it, so
      its errors are unhandled rejections and it runs after the aliases
      were handed to Vite.  A continuation is modelled as one run of
      [esm_task]; the order in which the event loop runs them is not.

    The collaborators the code only calls are the fields of [Env]:
    Node's [require.resolve] and module loading, [lib-esm], md5 and
    esbuild. *)

From S2P Require Import Prelude Json Node Cache BuildConfig.
Local Open Scope string_scope.
Local Open Scope list_scope.
Local Open Scope st_scope.

Definition CACHE_DIR : string := "./@sillot/vite-electron-renderer".

(** ** Inputs and collaborators *)

(** An [include] item: a name, or [{ name, type }] ([type] is any string
    at run time; only ['module'] and ['commonjs'] are recognised). *)
Inductive IncludeItem := IncName (name : string) | IncObj (name : string) (type : option string).

(** What [esbuild.build] does: it writes its output files and resolves
    with a result whose [errors] may be empty, or it rejects. *)
Inductive BuildResult :=
  | BuildResolved (outputs : list (path * string)) (errors : list string)
  | BuildRejected (e : exn).

Record Env := mkEnv {
  env_node_modules : path;                (** [find_node_modules(root)[0]] *)
  env_builtinModules : list string;       (** [builtinModules] of [node:module] *)
  env_resolve : gmap path node -> string -> option path;  (** [cjs_require.resolve]; [None]: throws *)
  env_exports : gmap path node -> path -> outcome (list string);  (** [Object.keys(cjs_require(id))] *)
  env_lib_esm : list string -> string;    (** [libEsm({ exports }).exports] *)
  env_md5 : string -> string;             (** md5 hex digest *)
  env_esbuild : option (gmap path node -> list (string * json) -> BuildResult);
      (** [None]: [import('esbuild')] fails *)
  env_buildOptions : list (string * json);  (** [options.buildOptions] *)
}.

(** A dependency: [{ esm?, cjs?, filename? }]. *)
Record Dep := mkDep { dep_esm : option string; dep_cjs : option string; dep_filename : option path }.

(** JavaScript truthiness of an optional string, and [a || b]. *)
Definition truthy (o : option string) : bool :=
  match o with Some s => negb (bool_decide (s = "")) | None => false end.

Definition js_or (a b : option string) : option string := if truthy a then a else b.

(** [name = item] or [name = item.name] (lines 60-65). *)
Definition item_name (item : IncludeItem) : string :=
  match item with IncName n => n | IncObj n _ => n end.

(** ** [dest(name)] (lines 208-220) *)

Record Dest := mkDest {
  destpath : path; name_js : string; name_cjs : string; destname : path; destname_cjs : path }.

Definition dest_paths (nm : path) (name : string) : Dest :=
  let dp := path_join (path_join nm CACHE_DIR) name in
  mkDest dp "index.js" "index.cjs" (path_join dp "index.js") (path_join dp "index.cjs").

Definition dest (nm : path) (name : string) : NodeM Dest :=
  let d := dest_paths nm name in
  ensure_dir (destpath d) ;;; st_ret d.

Section Pipeline.
Context (env : Env).
Let nm := env_node_modules env.
Let md5 := env_md5 env.

(** [cjs_require(p)] of a [.json] file. *)
Definition require_json (fs : gmap path node) (p : path) : outcome json :=
  match read_file fs p with
  | Ret s => match json_parse s with Some v => Ret v | None => Exn (SyntaxError (path_str p)) end
  | Exn e => Exn e
  end.

(** ** The classification loop (lines 57-105) *)
Definition classify (item : IncludeItem) : NodeM (option Dep) :=
  let '(name, type) := match item with IncName n => (n, None) | IncObj n t => (n, t) end in
  if decide (type = Some "module") then st_ret (Some (mkDep (Some name) None None)) else
  if decide (type = Some "commonjs") then st_ret (Some (mkDep None (Some name) None)) else
  if includes (builtins (env_builtinModules env)) name then st_ret None else
  let pkgJson := path_join (path_join nm name) "package.json" in
  let* ex := existsSync pkgJson in
  if ex then
    let* w := st_get in
    let* pkg := st_lift (require_json (w_fs w) pkgJson) in
    let* ty := st_lift (get_field pkg "type") in
    if decide (ty = Some (JStr "module")) then st_ret (Some (mkDep (Some name) None None))
    else st_ret (Some (mkDep None (Some name) None))
  else
    let pkgPath := path_join nm name in
    let* w := st_get in
    match env_resolve env (w_fs w) (path_str pkgPath) with
    | Some filename =>
        if decide (extname filename = ".mjs") then st_ret (Some (mkDep (Some name) None (Some filename)))
        else st_ret (Some (mkDep None (Some name) (Some filename)))
    | None => console_log ("Can not resolve path: " +:+ path_str pkgPath) ;;; st_ret None
    end.

Fixpoint classify_all (items : list IncludeItem) : NodeM (list Dep) :=
  match items with
  | [] => st_ret []
  | it :: items' =>
      let* od := classify it in
      let* ds := classify_all items' in
      st_ret (match od with Some d => d :: ds | None => ds end)
  end.
End Pipeline.

(** ** Bundling (lines 149-206) *)

(** The pending rest of an [esmBundling] call. *)
Record EsmTask := mkTask { task_name : string; task_entry : path; task_dest : Dest }.

(** The require target of the shim of a module dependency:
    [`${CACHE_DIR}/${name}/${name_cjs}`]. *)
Definition esm_require (name : string) : string := CACHE_DIR +:+ "/" +:+ name +:+ "/" +:+ "index.cjs".

Definition esbuild_missing : exn :=
  Error ("[Pre-Bundling] dependency " +:+ String dq ("esbuild" +:+ String dq ". Did you install it?")).

Section Bundling.
Context (env : Env).
Let nm := env_node_modules env.
Let md5 := env_md5 env.

(** [cache = new Cache(path.join(node_modules_path, CACHE_DIR))] *)
Definition the_cache : Cache := new_Cache (path_join nm CACHE_DIR).

(** [const _M_ = require("${require}");\n${exports}] *)
Definition shim_code (require : string) (keys : list string) : string :=
  "const _M_ = require(" +:+ String dq (require +:+ String dq ");") +:+ nl +:+ env_lib_esm env keys.

Definition cjsBundling (name require : string) (requireId : path) : NodeM unit :=
  let* d := dest nm name in
  let* valid := checkHash md5 the_cache (destname d) in
  if valid then st_ret tt else
  let* w := st_get in
  let* keys := st_lift (env_exports env (w_fs w) requireId) in
  ensure_dir (destpath d) ;;;
  writeFileSync (destname d) (shim_code require keys) ;;;
  writeCache md5 the_cache (destname d) ;;;
  console_log ("Pre-bundling: " +:+ name).

(** The options object handed to [esbuild.build]: the defaults, then
    [...buildOptions] spread over them. *)
Definition esbuild_options (entry outfile : path) : list (string * json) :=
  let bm := env_builtinModules env in
  fold_left (fun acc kv => obj_set acc kv.1 kv.2) (env_buildOptions env)
    [("entryPoints", JArr [JStr (path_str entry)]); ("outfile", JStr (path_str outfile));
     ("target", JStr "node14"); ("format", JStr "cjs"); ("bundle", JBool true);
     ("sourcemap", JBool true);
     ("external", JArr (map JStr (bm ++ map (fun m => "node:" +:+ m) bm)))].

(** The synchronous prefix of [esmBundling]: [dest(name)] and the
    cache check of the bundle; an exception here rejects the promise. *)
Definition esm_prefix (name : string) (entry : path) : NodeM (option EsmTask) :=
  let* d := dest nm name in
  let* valid := checkHash md5 the_cache (destname_cjs d) in
  if valid then st_ret None else st_ret (Some (mkTask name entry d)).

Definition esmBundling_sync (name : string) (entry : path) : NodeM (option EsmTask) :=
  st_catch (esm_prefix name entry) (fun e => unhandled_rejection e ;;; st_ret None).

(** What esbuild writes. *)
Definition write_outputs (outputs : list (path * string)) : NodeM unit :=
  st_iter (fun '(p, c) => ensure_dir (removelast p) ;;; writeFileSync p c) outputs.

(** The rest of [esmBundling], after [await import('esbuild')]. *)
Definition esm_continue (t : EsmTask) : NodeM unit :=
  match env_esbuild env with
  | None => st_throw esbuild_missing
  | Some build =>
      let d := task_dest t in
      let* w := st_get in
      match build (w_fs w) (esbuild_options (task_entry t) (destname_cjs d)) with
      | BuildRejected e => st_throw e
      | BuildResolved outputs errors =>
          write_outputs outputs ;;;
          if decide (errors = []) then
            writeCache md5 the_cache (destname_cjs d) ;;;
            cjsBundling (task_name t) (esm_require (task_name t)) (destname_cjs d)
          else st_ret tt
      end
  end.

Definition esm_task (t : EsmTask) : NodeM unit := detached (esm_continue t).

(** ** The dependency loop (lines 107-141) *)

Definition resolve_filename (dep : Dep) : NodeM (option path) :=
  match dep_filename dep with
  | Some f => st_ret (Some f)
  | None =>
      let m := js_or (dep_cjs dep) (dep_esm dep) in
      let* w := st_get in
      match m ≫= env_resolve env (w_fs w) with
      | Some f => st_ret (Some f)
      | None => console_log ("Can not resolve module: " +:+ default "undefined" m) ;;; st_ret None
      end
  end.

(** One dependency: the alias [(name, destname)] it contributes and the
    [esmBundling] continuation it leaves pending. *)
Definition process_dep (dep : Dep) : NodeM (option (string * path) * option EsmTask) :=
  let* fo := resolve_filename dep in
  match fo with
  | None => st_ret (None, None)
  | Some f =>
      let* task :=
        if truthy (dep_cjs dep) then
          (let c := default "" (dep_cjs dep) in cjsBundling c c f ;;; st_ret None)
        else if truthy (dep_esm dep) then esmBundling_sync (default "" (dep_esm dep)) f
        else st_ret None in
      let name := js_or (dep_cjs dep) (dep_esm dep) in
      if truthy name then
        let n := default "" name in
        let* d := dest nm n in
        st_ret (Some (n, destname d), task)
      else st_ret (None, task)
  end.

Fixpoint process_all (deps : list Dep) : NodeM (list (string * path) * list EsmTask) :=
  match deps with
  | [] => st_ret ([], [])
  | dep :: deps' =>
      let* '(oa, ot) := process_dep dep in
      let* '(aliases, tasks) := process_all deps' in
      st_ret ((option_list oa ++ aliases)%list, (option_list ot ++ tasks)%list)
  end.

Definition alias_of (a : string * path) : Alias := mkAlias (FindStr a.1) (path_str a.2).

(** ** The [config] hook (lines 43-145) *)
Definition config_hook (include : list IncludeItem) (config : UserConfig)
    : NodeM (UserConfig * list EsmTask) :=
  if decide (include = []) then st_ret (config, []) else
  let* deps := classify_all env include in
  let* '(aliases, tasks) := process_all deps in
  st_ret (modifyOptimizeDeps (modifyAlias config (map alias_of aliases)) aliases.*1, tasks).

End Bundling.

(** ** Theorems *)

Lemma ensure_dir_exists p w : is_Some (w_fs w !! p) -> ensure_dir p w = (Ret tt, w).
Proof. intros H. unfold ensure_dir, st_bind, existsSync, exists_sync. by rewrite bool_decide_eq_true_2. Qed.

(** Where no file is in the way, [ensure_dir p] leaves [p] a directory
    and changes nothing but the prefixes of [p]. *)
Lemma ensure_dir_created p w :
  world_wf w -> no_file_on (w_fs w) p = true ->
  exists w1, ensure_dir p w = (Ret tt, w1) /\ w_fs w1 !! p = Some Dir /\
    (forall q, ~ q `prefix_of` p -> w_fs w1 !! q = w_fs w !! q) /\
    w_now w1 = w_now w /\ w_log w1 = w_log w /\ w_unhandled w1 = w_unhandled w.
Proof.
  intros Hw Hn. pose proof (fun q c => no_file_on_spec _ _ q c Hn) as Hf.
  unfold ensure_dir. rewrite (st_bind_ok _ _ w (exists_sync w p) w) by done. unfold exists_sync.
  case_bool_decide as Hex.
  - exists w. split; [done|]. split; [|done].
    destruct Hex as [[|c] Hp]; [done|]. by destruct (Hf p c (reflexivity p)).
  - unfold mkdirSync_recursive. pose proof (mkdir_go_no_file (w_fs w) [] p ltac:(done)) as Hok.
    pose proof (mkdir_go_outside (w_fs w) [] p) as Hout.
    destruct (mkdir_go (w_fs w) [] p) as [o fs2] eqn:E. simpl in Hok, Hout. subst o.
    eexists. split; [reflexivity|]. simpl. split; [|done].
    destruct (mkdir_go_ok (w_fs w) [] p fs2 (proj1 Hw)) as [_ Hd]; [by rewrite E|]. done.
Qed.

Lemma dest_exists nm name w :
  is_Some (w_fs w !! destpath (dest_paths nm name)) -> dest nm name w = (Ret (dest_paths nm name), w).
Proof. intros H. unfold dest. by rewrite (st_bind_ok _ _ w tt w) by (by apply ensure_dir_exists). Qed.

(** *** Every dependency has exactly one kind *)

(** [dep] is [{ esm: n }] or [{ cjs: n }], with or without a filename. *)
Definition one_kind (n : string) (dep : Dep) : Prop :=
  (dep_esm dep = Some n /\ dep_cjs dep = None) \/ (dep_cjs dep = Some n /\ dep_esm dep = None).

Lemma classify_one_kind env item :
  st_post (fun od => match od with Some dep => one_kind (item_name item) dep | None => True end)
    (classify env item).
Proof. unfold classify, one_kind. destruct item; cbn beta iota; post; simpl; auto. Qed.

(** Each classified dependency comes from one item of the list. *)
Lemma classify_all_items env items w deps w' :
  classify_all env items w = (Ret deps, w') ->
  Forall (fun dep => exists it, it ∈ items /\ one_kind (item_name it) dep) deps.
Proof.
  revert w deps w'. induction items as [|it items IH]; intros w deps w' H; simpl in H.
  - injection H as <- _. constructor.
  - apply st_bind_ret_inv in H as (od & w1 & H1 & H).
    apply st_bind_ret_inv in H as (ds & w2 & H2 & [= <- _]).
    pose proof (classify_one_kind env it _ _ _ H1) as Hk.
    assert (Hds : Forall (fun dep => exists it', it' ∈ it :: items /\ one_kind (item_name it') dep) ds)
      by (eapply Forall_impl; [exact (IH _ _ _ H2)|]; intros dep (it' & Hit & Hd); exists it'; set_solver).
    destruct od as [dep|]; [|exact Hds]. constructor; [|exact Hds].
    exists it. split; [set_solver | exact Hk].
Qed.

(** C30: the classification loop yields only dependencies named after
    an [include] item and carrying exactly one kind, [esm] or [cjs]: the
    data-model invariant every later step relies on. *)
Theorem classify_all_kinds env items w deps w' :
  classify_all env items w = (Ret deps, w') ->
  Forall (fun dep => exists n, n ∈ map item_name items /\ one_kind n dep) deps.
Proof.
  intros H. eapply Forall_impl; [exact (classify_all_items env items w deps w' H)|].
  intros dep (it & Hit & Hk). exists (item_name it). split; [by apply list_elem_of_fmap_2 | exact Hk].
Qed.

(** *** The file tree stays well formed *)

Lemma dest_wf nm name : st_keeps world_wf (dest nm name).
Proof. unfold dest. keeps. Qed.

#[export] Hint Resolve dest_wf : renderer.

Lemma classify_wf env item : st_keeps world_wf (classify env item).
Proof. unfold classify. keeps. Qed.

Lemma classify_all_wf env items : st_keeps world_wf (classify_all env items).
Proof. induction items; simpl; keeps. by apply classify_wf. Qed.

(** The classification writes no file. *)
Lemma console_log_fs fs msg : st_keeps (fun w => w_fs w = fs) (console_log msg).
Proof. by intros w. Qed.

#[export] Hint Resolve console_log_fs : renderer.

Lemma classify_fs env item fs : st_keeps (fun w => w_fs w = fs) (classify env item).
Proof. unfold classify. keeps. Qed.

Lemma classify_all_fs env items fs : st_keeps (fun w => w_fs w = fs) (classify_all env items).
Proof. induction items; simpl; keeps. by apply classify_fs. Qed.

Lemma cjsBundling_wf env name require requireId : st_keeps world_wf (cjsBundling env name require requireId).
Proof. unfold cjsBundling. keeps. Qed.

#[export] Hint Resolve classify_all_wf cjsBundling_wf : renderer.

Lemma esmBundling_sync_wf env name entry : st_keeps world_wf (esmBundling_sync env name entry).
Proof. unfold esmBundling_sync, esm_prefix. keeps. Qed.

Lemma esm_task_wf env t : st_keeps world_wf (esm_task env t).
Proof. unfold esm_task, detached, esm_continue, write_outputs. keeps. Qed.

#[export] Hint Resolve esmBundling_sync_wf esm_task_wf : renderer.

Lemma process_all_wf env deps : st_keeps world_wf (process_all env deps).
Proof. induction deps; simpl; keeps. unfold process_dep, resolve_filename. keeps. Qed.

Lemma config_hook_wf env include config : st_keeps world_wf (config_hook env include config).
Proof. unfold config_hook. keeps. by apply process_all_wf. Qed.

(** *** Classification *)

(** C6: A bare name whose manifest declares ["type": "module"] is routed to
    [esmBundling], whatever its entry file; nothing is written. *)
Theorem classify_manifest_module env name w content pkg :
  includes (builtins (env_builtinModules env)) name = false ->
  w_fs w !! path_join (path_join (env_node_modules env) name) "package.json" = Some (File content) ->
  json_parse content = Some pkg -> get_field pkg "type" = Ret (Some (JStr "module")) ->
  classify env (IncName name) w = (Ret (Some (mkDep (Some name) None None)), w).
Proof.
  intros Hb Hp Hj Ht. unfold classify. simpl. rewrite Hb.
  rewrite (st_bind_ok _ _ w true w) by (apply existsSync_some; rewrite Hp; eauto). cbn beta iota.
  rewrite (st_bind_ok _ _ w w w) by done.
  rewrite (st_bind_ok _ _ w pkg w) by (unfold st_lift, require_json, read_file; by rewrite Hp, Hj).
  rewrite (st_bind_ok _ _ w (Some (JStr "module")) w) by (unfold st_lift; by rewrite Ht).
  by rewrite decide_True.
Qed.

(** C10: Any other declared type, or none, routes a bare name with a manifest
    to [cjsBundling]. *)
Theorem classify_manifest_commonjs env name w content pkg ty :
  includes (builtins (env_builtinModules env)) name = false ->
  w_fs w !! path_join (path_join (env_node_modules env) name) "package.json" = Some (File content) ->
  json_parse content = Some pkg -> get_field pkg "type" = Ret ty -> ty <> Some (JStr "module") ->
  classify env (IncName name) w = (Ret (Some (mkDep None (Some name) None)), w).
Proof.
  intros Hb Hp Hj Ht Hty. unfold classify. simpl. rewrite Hb.
  rewrite (st_bind_ok _ _ w true w) by (apply existsSync_some; rewrite Hp; eauto). cbn beta iota.
  rewrite (st_bind_ok _ _ w w w) by done.
  rewrite (st_bind_ok _ _ w pkg w) by (unfold st_lift, require_json, read_file; by rewrite Hp, Hj).
  rewrite (st_bind_ok _ _ w ty w) by (unfold st_lift; by rewrite Ht).
  by rewrite decide_False.
Qed.

(** *** The aliases handed to Vite *)

Definition dep_name (dep : Dep) : option string := js_or (dep_cjs dep) (dep_esm dep).

(** The entry file of a dependency, from the classification or from
    [cjs_require.resolve(name)]. *)
Definition dep_entry (env : Env) (fs : gmap path node) (dep : Dep) : option path :=
  match dep_filename dep with
  | Some f => Some f
  | None => dep_name dep ≫= env_resolve env fs
  end.

(** The alias a dependency contributes: its name and its shim path,
    when its entry resolves and its name is not empty. *)
Definition dep_alias (env : Env) (fs : gmap path node) (dep : Dep) : option (string * path) :=
  match dep_entry env fs dep with
  | None => None
  | Some _ =>
      if truthy (dep_name dep) then
        let n := default "" (dep_name dep) in Some (n, destname (dest_paths (env_node_modules env) n))
      else None
  end.

(** Resolution does not depend on the files the pipeline writes. *)
Definition resolve_stable (env : Env) : Prop :=
  forall fs fs' s, env_resolve env fs s = env_resolve env fs' s.

Lemma dest_ret nm name w d w' : dest nm name w = (Ret d, w') -> d = dest_paths nm name.
Proof. unfold dest. intros (? & ? & _ & H)%st_bind_ret_inv. by injection H. Qed.

Lemma resolve_filename_ret env dep w fo w' :
  resolve_filename env dep w = (Ret fo, w') -> fo = dep_entry env (w_fs w) dep.
Proof.
  unfold resolve_filename, dep_entry, dep_name. destruct (dep_filename dep); [by intros [= <-]|].
  intros (w1 & ? & [= <- <-] & H)%st_bind_ret_inv.
  destruct (_ ≫= _) eqn:E; [by injection H|].
  apply st_bind_ret_inv in H as (? & ? & _ & [= <-]). done.
Qed.

Lemma process_dep_alias env dep w oa ot w' :
  process_dep env dep w = (Ret (oa, ot), w') -> oa = dep_alias env (w_fs w) dep.
Proof.
  unfold process_dep, dep_alias. intros (fo & w1 & Hf & H)%st_bind_ret_inv.
  apply resolve_filename_ret in Hf as ->. destruct (dep_entry env (w_fs w) dep); [|by injection H].
  apply st_bind_ret_inv in H as (task & w2 & _ & H). unfold dep_name.
  destruct (truthy (js_or _ _)); [|by injection H].
  apply st_bind_ret_inv in H as (d & w3 & Hd & [= <- _]). apply dest_ret in Hd as ->. done.
Qed.

Lemma process_all_aliases env deps w aliases tasks w' :
  resolve_stable env ->
  process_all env deps w = (Ret (aliases, tasks), w') -> aliases = omap (dep_alias env (w_fs w)) deps.
Proof.
  intros Hst. revert w aliases tasks w'. induction deps as [|dep deps IH]; intros w aliases tasks w'.
  - simpl. by intros [= <- _].
  - simpl. intros ([oa ot] & w1 & Hd & H)%st_bind_ret_inv.
    apply st_bind_ret_inv in H as ([al ts] & w2 & Hr & [= <- _]).
    apply process_dep_alias in Hd as ->. apply IH in Hr as ->.
    assert (Hsame : forall d, dep_alias env (w_fs w1) d = dep_alias env (w_fs w) d).
    { intros d. unfold dep_alias, dep_entry. destruct (dep_filename d); [done|].
      destruct (dep_name d) as [n|]; simpl; [by rewrite (Hst (w_fs w1) (w_fs w) n)|done]. }
    rewrite (list_omap_ext _ (dep_alias env (w_fs w)) deps deps)
      by (apply Forall2_same_length_lookup; split; [done|]; intros i x y Hx Hy;
          rewrite Hx in Hy; injection Hy as ->; apply Hsame).
    simpl. by destruct (dep_alias env (w_fs w) dep).
Qed.

(** C5: Batch emission: when the hook returns, Vite's configuration was
    changed by one [modifyAlias] and one [modifyOptimizeDeps], with one
    alias [{ find: name, replacement: shim }] and one exclusion per
    classified dependency whose entry resolved, in [include] order; a
    dependency that did not resolve contributes to neither. *)
Theorem config_hook_batch env include config w config' tasks w' :
  resolve_stable env -> include <> [] ->
  config_hook env include config w = (Ret (config', tasks), w') ->
  exists deps w1, classify_all env include w = (Ret deps, w1) /\
    let al := omap (dep_alias env (w_fs w1)) deps in
    config' = modifyOptimizeDeps (modifyAlias config (map alias_of al)) al.*1.
Proof.
  intros Hst Hne. unfold config_hook. rewrite decide_False by done.
  intros (deps & w1 & Hc & H)%st_bind_ret_inv. exists deps, w1. split; [done|].
  apply st_bind_ret_inv in H as ([al ts] & w2 & Hp & [= <- _]).
  by apply process_all_aliases in Hp as ->.
Qed.

Lemma classify_all_length env items w deps w' :
  classify_all env items w = (Ret deps, w') -> length deps <= length items.
Proof.
  revert w deps w'. induction items as [|it items IH]; intros w deps w' H; simpl in H.
  - by injection H as <- _.
  - apply st_bind_ret_inv in H as (od & w1 & _ & H).
    apply st_bind_ret_inv in H as (ds & w2 & H2 & [= <- _]).
    apply IH in H2. destruct od; simpl; lia.
Qed.

Lemma process_all_length env deps w al ts w' :
  process_all env deps w = (Ret (al, ts), w') -> length al <= length deps /\ length ts <= length deps.
Proof.
  revert w al ts w'. induction deps as [|dep deps IH]; intros w al ts w' H; simpl in H.
  - by injection H as <- <- _.
  - apply st_bind_ret_inv in H as ([oa ot] & w1 & _ & H).
    apply st_bind_ret_inv in H as ([al' ts'] & w2 & H2 & [= <- <- _]).
    apply IH in H2. rewrite !length_app. destruct oa, ot; simpl; lia.
Qed.

(** C35: bounds of the batch: when the hook returns on a non-empty
    [include], it has handed Vite at most one alias and one exclusion per
    item, and left at most one pending esbuild continuation per item. *)
Theorem config_hook_bounds env include config w config' tasks w' :
  include <> [] -> config_hook env include config w = (Ret (config', tasks), w') ->
  length tasks <= length include /\
  exists al, length al <= length include /\
    config' = modifyOptimizeDeps (modifyAlias config (map alias_of al)) al.*1.
Proof.
  intros Hne. unfold config_hook. rewrite decide_False by done.
  intros (deps & w1 & Hc & H)%st_bind_ret_inv.
  apply st_bind_ret_inv in H as ([al ts] & w2 & Hp & [= <- <- _]).
  apply classify_all_length in Hc. apply process_all_length in Hp as [Ha Ht].
  split; [lia|]. exists al. split; [lia | done].
Qed.

(** C23: A bare built-in name is skipped: the [builtins] plugin handles it. *)
Theorem classify_builtin env name w :
  includes (builtins (env_builtinModules env)) name = true ->
  classify env (IncName name) w = (Ret None, w).
Proof. intros Hb. unfold classify. simpl. by rewrite Hb. Qed.

(** C21: Without a [package.json], the name is resolved as a path under
    [node_modules]: an entry ending in [.mjs] makes an ES module, any
    other a CommonJS module, and the entry is kept as its filename. *)
Theorem classify_resolved env name w f :
  includes (builtins (env_builtinModules env)) name = false ->
  w_fs w !! path_join (path_join (env_node_modules env) name) "package.json" = None ->
  env_resolve env (w_fs w) (path_str (path_join (env_node_modules env) name)) = Some f ->
  classify env (IncName name) w =
  (Ret (Some (if decide (extname f = ".mjs") then mkDep (Some name) None (Some f)
              else mkDep None (Some name) (Some f))), w).
Proof.
  intros Hb Hp Hr. unfold classify. simpl. rewrite Hb.
  rewrite (st_bind_ok _ _ w false w) by (by apply existsSync_none). cbn beta iota.
  rewrite (st_bind_ok _ _ w w w) by done. rewrite Hr. by case_decide.
Qed.

(** C22: A name that is neither a package nor a resolvable path is dropped
    with the log line [Can not resolve path: <path>]. *)
Theorem classify_unresolved env name w :
  includes (builtins (env_builtinModules env)) name = false ->
  w_fs w !! path_join (path_join (env_node_modules env) name) "package.json" = None ->
  env_resolve env (w_fs w) (path_str (path_join (env_node_modules env) name)) = None ->
  classify env (IncName name) w =
  (Ret None, mkWorld (w_fs w) (w_now w)
     (w_log w ++ ["Can not resolve path: " +:+ path_str (path_join (env_node_modules env) name)])
     (w_unhandled w)).
Proof.
  intros Hb Hp Hr. unfold classify. simpl. rewrite Hb.
  rewrite (st_bind_ok _ _ w false w) by (by apply existsSync_none). cbn beta iota.
  rewrite (st_bind_ok _ _ w w w) by done. by rewrite Hr.
Qed.

(** *** [esmBundling] *)

(** C11: When the bundle [index.cjs] passes its cache check, [esmBundling]
    schedules nothing and writes nothing: the shim [index.js] is never
    checked, so a missing or stale shim stays as it is while its alias
    is still handed to Vite. *)
Theorem esmBundling_cached env name entry w :
  is_Some (w_fs w !! destpath (dest_paths (env_node_modules env) name)) ->
  checkHash (env_md5 env) (the_cache env) (destname_cjs (dest_paths (env_node_modules env) name)) w
    = (Ret true, w) ->
  esmBundling_sync env name entry w = (Ret None, w).
Proof.
  intros Hd Hc. unfold esmBundling_sync, esm_prefix, st_catch.
  rewrite (st_bind_ok _ _ w _ w (dest_exists _ _ w Hd)).
  by rewrite (st_bind_ok _ _ w true w Hc).
Qed.

(** C13: On a cache miss the synchronous part of [esmBundling] creates
    the output directory (when it is missing), leaves the rest of the
    call pending, and changes nothing else: no file, no log line, no
    rejection.  The cache check sees the files as they were: it reads
    only the bundle and the cache file, which [mkdir] does not create. *)
Theorem esmBundling_miss env name entry w :
  world_wf w ->
  no_file_on (w_fs w) (destpath (dest_paths (env_node_modules env) name)) = true ->
  ~ cacheFile (the_cache env) `prefix_of` destpath (dest_paths (env_node_modules env) name) ->
  checkHash_out (env_md5 env) (the_cache env) (destname_cjs (dest_paths (env_node_modules env) name)) (w_fs w)
    = Ret false ->
  exists w1,
    esmBundling_sync env name entry w = (Ret (Some (mkTask name entry (dest_paths (env_node_modules env) name))), w1) /\
    w_fs w1 !! destpath (dest_paths (env_node_modules env) name) = Some Dir /\
    (forall q, ~ q `prefix_of` destpath (dest_paths (env_node_modules env) name) -> w_fs w1 !! q = w_fs w !! q) /\
    w_now w1 = w_now w /\ w_log w1 = w_log w /\ w_unhandled w1 = w_unhandled w.
Proof.
  intros Hw Hn Hc Hmiss.
  destruct (ensure_dir_created _ w Hw Hn) as (w1 & He & Hd & Hfr & Hrest).
  exists w1. split; [|done].
  unfold esmBundling_sync, esm_prefix, st_catch, dest.
  rewrite (st_bind_ok _ _ w _ w1) by (by rewrite (st_bind_ok _ _ w tt w1 He)).
  rewrite (st_bind_ok _ _ w1 false w1); [done|].
  rewrite checkHash_out_eq, <- Hmiss, (checkHash_out_local _ _ _ (w_fs w1) (w_fs w)); [done| |by apply Hfr].
  apply Hfr. exact (prefix_snoc_not (destpath (dest_paths (env_node_modules env) name)) "index.cjs").
Qed.


(** C12: Without esbuild the pending continuation only records an unhandled
    rejection: no bundle, no shim, no cache entry, and the run is not
    failed (the hook has already returned). *)
Theorem esm_task_no_esbuild env t w :
  env_esbuild env = None ->
  esm_task env t w = (Ret tt, mkWorld (w_fs w) (w_now w) (w_log w) (w_unhandled w ++ [esbuild_missing])).
Proof. intros He. unfold esm_task, detached, esm_continue, st_catch. by rewrite He. Qed.

(** C14: A build that resolves with errors has its outputs written, but the
    bundle is neither recorded in the cache nor wrapped by a shim: the
    alias the hook already emitted points at a file that does not
    exist. *)
Theorem esm_task_build_errors env t w build outputs errors :
  env_esbuild env = Some build ->
  build (w_fs w) (esbuild_options env (task_entry t) (destname_cjs (task_dest t)))
    = BuildResolved outputs errors ->
  errors <> [] ->
  esm_task env t w = detached (write_outputs outputs) w.
Proof.
  intros Hb Hr He. unfold esm_task, detached, esm_continue. rewrite Hb. unfold st_catch.
  rewrite (st_bind_ok _ _ w w w) by done. rewrite Hr, decide_False by done.
  unfold st_bind. by destruct (write_outputs outputs w) as [[[]|e] w'].
Qed.

(** *** [cjsBundling] *)

(** A shim that passes its cache check is left alone. *)
Theorem cjsBundling_cached env name require requireId w :
  is_Some (w_fs w !! destpath (dest_paths (env_node_modules env) name)) ->
  checkHash (env_md5 env) (the_cache env) (destname (dest_paths (env_node_modules env) name)) w
    = (Ret true, w) ->
  cjsBundling env name require requireId w = (Ret tt, w).
Proof.
  intros Hd Hc. unfold cjsBundling.
  rewrite (st_bind_ok _ _ w _ w (dest_exists _ _ w Hd)).
  by rewrite (st_bind_ok _ _ w true w Hc).
Qed.

Lemma destname_snoc nm name :
  destname (dest_paths nm name) = destpath (dest_paths nm name) ++ ["index.js"].
Proof. reflexivity. Qed.

Lemma cacheFile_snoc env :
  cacheFile (the_cache env) = path_join (env_node_modules env) CACHE_DIR ++ ["_metadata.json"].
Proof. reflexivity. Qed.

Lemma cache_root_snoc nm :
  path_join nm CACHE_DIR = (nm ++ ["@sillot"]) ++ ["vite-electron-renderer"].
Proof. reflexivity. Qed.

Lemma destname_not_root nm name : destname (dest_paths nm name) <> path_join nm CACHE_DIR.
Proof. rewrite destname_snoc, cache_root_snoc. by intros [_ ?]%app_inj_tail. Qed.

Lemma destname_cjs_snoc nm name :
  destname_cjs (dest_paths nm name) = destpath (dest_paths nm name) ++ ["index.cjs"].
Proof. reflexivity. Qed.

Lemma destname_cjs_not_root nm name : destname_cjs (dest_paths nm name) <> path_join nm CACHE_DIR.
Proof. rewrite destname_cjs_snoc, cache_root_snoc. by intros [_ ?]%app_inj_tail. Qed.

Lemma destname_cjs_not_cacheFile env name :
  destname_cjs (dest_paths (env_node_modules env) name) <> cacheFile (the_cache env).
Proof. rewrite destname_cjs_snoc, cacheFile_snoc. by intros [_ ?]%app_inj_tail. Qed.

Lemma destname_cjs_not_destname nm name : destname_cjs (dest_paths nm name) <> destname (dest_paths nm name).
Proof. rewrite destname_cjs_snoc, destname_snoc. by intros [_ ?]%app_inj_tail. Qed.

(** The two artifacts of a dependency have distinct cache keys. *)
Lemma destname_cjs_key nm name :
  path_str (destname_cjs (dest_paths nm name)) <> path_str (destname (dest_paths nm name)).
Proof. rewrite destname_cjs_snoc, destname_snoc. by apply path_str_snoc_ne. Qed.

Lemma destpath_not_destname_cjs nm name : destpath (dest_paths nm name) <> destname_cjs (dest_paths nm name).
Proof. rewrite destname_cjs_snoc. intros H. apply (f_equal length) in H. rewrite length_app in H. simpl in H. lia. Qed.

Lemma root_not_cacheFile env : path_join (env_node_modules env) CACHE_DIR <> cacheFile (the_cache env).
Proof. rewrite cacheFile_snoc. intros H. apply (f_equal length) in H. rewrite length_app in H. simpl in H. lia. Qed.

(** *** Where the artifacts land *)

Lemma push_segs_prefix base segs :
  Forall (fun s => s <> "..") segs -> base `prefix_of` push_segs base segs.
Proof.
  revert base. induction segs as [|s segs IH]; intros base Hs; simpl; [done|].
  apply Forall_cons in Hs as [Hs Hsegs].
  case_decide; [by apply IH|]. rewrite decide_False by done.
  transitivity (base ++ [s]); [by eexists|]. by apply IH.
Qed.

(** C31: when the name has no [..] segment, the output directory and
    both artifacts of a dependency lie under the cache root
    [node_modules/@sillot/vite-electron-renderer]. *)
Theorem dest_contained nm name :
  Forall (fun s => s <> "..") (split_segs name) ->
  path_join nm CACHE_DIR `prefix_of` destpath (dest_paths nm name) /\
  path_join nm CACHE_DIR `prefix_of` destname (dest_paths nm name) /\
  path_join nm CACHE_DIR `prefix_of` destname_cjs (dest_paths nm name).
Proof.
  intros Hs. pose proof (push_segs_prefix (path_join nm CACHE_DIR) _ Hs) as Hp.
  split; [exact Hp|]. rewrite destname_snoc, destname_cjs_snoc.
  split; (etransitivity; [exact Hp|]); by eexists.
Qed.

Lemma destname_not_cacheFile env name :
  destname (dest_paths (env_node_modules env) name) <> cacheFile (the_cache env).
Proof. rewrite destname_snoc, cacheFile_snoc. by intros [_ ?]%app_inj_tail. Qed.

Lemma destpath_not_destname nm name : destpath (dest_paths nm name) <> destname (dest_paths nm name).
Proof. rewrite destname_snoc. intros H. apply (f_equal length) in H. rewrite length_app in H. simpl in H. lia. Qed.

(** The miss path of [cjsBundling], under the hypotheses its theorem
    shares: the output directory and the cache root exist, the record is
    readable, the shim fails its check and the module's keys load. *)
Section CjsMiss.
Context (env : Env) (name require : string) (requireId : path) (w : world) (keys : list string).
Local Notation d := (dest_paths (env_node_modules env) name).
Local Notation c := (the_cache env).
Local Notation code := (shim_code env require keys).
Hypothesis Hd : w_fs w !! destpath d = Some Dir.
Hypothesis Hroot : w_fs w !! path_join (env_node_modules env) CACHE_DIR = Some Dir.
Hypothesis Hdc : destpath d <> cacheFile c.
Hypothesis Hnd : w_fs w !! destname d <> Some Dir.
Hypothesis Hcnd : w_fs w !! cacheFile c <> Some Dir.
Hypothesis Hok : cache_ok (w_fs w) c.
Hypothesis Hchk : checkHash (env_md5 env) c (destname d) w = (Ret false, w).
Hypothesis Hx : env_exports env (w_fs w) requireId = Ret keys.

(** The world once the shim is written, then once it is recorded and
    logged. *)
Definition cjs_w1 : world := set_fs w (<[destname d := File code]> (w_fs w)).
Definition cjs_after : world :=
  mkWorld (recorded_fs (env_md5 env) c cjs_w1 (destname d) code) (w_now w)
    (w_log w ++ ["Pre-bundling: " +:+ name]) (w_unhandled w).

Lemma cjs_w1_facts :
  removelast (cacheFile c) = path_join (env_node_modules env) CACHE_DIR /\ cacheFile c <> [] /\
  w_fs cjs_w1 !! destname d = Some (File code) /\ cache_ok (w_fs cjs_w1) c /\
  w_fs cjs_w1 !! removelast (cacheFile c) = Some Dir /\ w_fs cjs_w1 !! cacheFile c <> Some Dir.
Proof.
  pose proof (destname_not_cacheFile env name). pose proof (destname_not_root (env_node_modules env) name).
  assert (Hpar : removelast (cacheFile c) = path_join (env_node_modules env) CACHE_DIR)
    by (rewrite cacheFile_snoc; apply removelast_snoc).
  split; [done|]. split; [rewrite cacheFile_snoc; by intros [_ ?]%app_eq_nil|].
  split; [apply lookup_insert_eq|]. split; [by apply cache_ok_insert_ne|].
  unfold cjs_w1, set_fs; cbn [w_fs]. rewrite Hpar, !lookup_insert_ne by congruence. done.
Qed.

Lemma cjs_after_frame q : q <> cacheFile c -> q <> destname d -> w_fs cjs_after !! q = w_fs w !! q.
Proof. intros. unfold cjs_after, recorded_fs, cjs_w1, set_fs; cbn [w_fs]. by rewrite !lookup_insert_ne by congruence. Qed.

Lemma cjs_after_valid : checkHash (env_md5 env) c (destname d) cjs_after = (Ret true, cjs_after).
Proof.
  pose proof (destname_not_cacheFile env name).
  destruct cjs_w1_facts as (_ & Hc0 & Hp1 & Hok1 & Hpar1 & Hcnd1).
  destruct (writeCache_eval (env_md5 env) c (destname d) cjs_w1 code) as (_ & Hok2 & _); [done..|].
  rewrite checkHash_eval by exact Hok2. unfold cjs_after at 1 2; cbn [w_fs].
  by rewrite (recorded_valid (env_md5 env) c (destname d) cjs_w1 code).
Qed.

Lemma cjsBundling_miss_eval : cjsBundling env name require requireId w = (Ret tt, cjs_after).
Proof.
  pose proof (destname_not_cacheFile env name).
  destruct cjs_w1_facts as (_ & Hc0 & Hp1 & Hok1 & Hpar1 & Hcnd1).
  destruct (writeCache_eval (env_md5 env) c (destname d) cjs_w1 code) as (Hw & _); [done..|].
  unfold cjsBundling.
  rewrite (st_bind_ok _ _ w d w) by (apply dest_exists; eexists; exact Hd).
  rewrite (st_bind_ok _ _ w false w Hchk). cbn iota beta.
  rewrite (st_bind_ok _ _ w w w) by done.
  rewrite (st_bind_ok _ _ w keys w) by (unfold st_lift; by rewrite Hx).
  rewrite (st_bind_ok _ _ w tt w) by (apply ensure_dir_exists; eexists; exact Hd).
  rewrite (st_bind_ok _ _ w tt cjs_w1) by (unfold writeFileSync; rewrite write_file_succeeds;
    [done | rewrite destname_snoc; by intros [_ ?]%app_eq_nil
    | by rewrite destname_snoc, removelast_snoc | done]).
  by rewrite (st_bind_ok _ _ cjs_w1 tt _ Hw).
Qed.

Lemma cjs_after_shim : w_fs cjs_after !! destname d = Some (File code).
Proof.
  pose proof (destname_not_cacheFile env name). unfold cjs_after, recorded_fs; cbn [w_fs].
  rewrite lookup_insert_ne by congruence. apply lookup_insert_eq.
Qed.

(** Another artifact that was valid stays valid: the shim is another
    file and [writeCache] keeps the other entries. *)
Lemma cjs_after_keeps_valid q :
  path_str q <> path_str (destname d) -> q <> destname d -> q <> cacheFile c ->
  checkHash (env_md5 env) c q w = (Ret true, w) ->
  checkHash (env_md5 env) c q cjs_after = (Ret true, cjs_after).
Proof.
  intros Hs Hq Hqc Hv. pose proof (destname_not_cacheFile env name).
  destruct cjs_w1_facts as (_ & Hc0 & Hp1 & Hok1 & Hpar1 & Hcnd1).
  destruct (writeCache_eval (env_md5 env) c (destname d) cjs_w1 code) as (_ & Hok2 & Hst); [done..|].
  rewrite checkHash_eval in Hv by done. injection Hv as Hv.
  rewrite checkHash_eval by exact Hok2. do 2 f_equal. unfold valid_spec in *.
  rewrite cjs_after_frame by done. destruct (w_fs w !! q) as [[|content]|]; try done.
  apply bool_decide_eq_true in Hv. apply bool_decide_eq_true.
  unfold cjs_after at 1; cbn [w_fs]. rewrite (Hst (path_str q)), decide_False by done.
  unfold cjs_w1, set_fs; cbn [w_fs]. by rewrite cache_entries_insert_ne.
Qed.

(** C4: on a cache miss [cjsBundling] writes the shim [const _M_ =
    require("...")] followed by the re-exports of the module's keys,
    records its digest so that [checkHash] of it now succeeds, and a
    second call is a no-op: the step is idempotent. *)
Theorem cjsBundling_fresh :
  exists w',
    cjsBundling env name require requireId w = (Ret tt, w') /\
    w_fs w' !! destname d = Some (File code) /\
    checkHash (env_md5 env) c (destname d) w' = (Ret true, w') /\
    cjsBundling env name require requireId w' = (Ret tt, w').
Proof.
  pose proof (destname_not_cacheFile env name).
  pose proof (destpath_not_destname (env_node_modules env) name).
  exists cjs_after. split; [exact cjsBundling_miss_eval|]. split.
  - exact cjs_after_shim.
  - split; [exact cjs_after_valid|]. apply cjsBundling_cached; [|exact cjs_after_valid].
    rewrite cjs_after_frame by done. eexists. exact Hd.
Qed.
End CjsMiss.

(** The pending [esmBundling] continuation when esbuild succeeds: it
    writes [index.cjs], records it, and runs [cjsBundling] on it. *)
Section EsmSuccess.
Context (env : Env) (name : string) (entry : path) (w : world)
  (build : gmap path node -> list (string * json) -> BuildResult) (bundle : string) (keys : list string).
Local Notation d := (dest_paths (env_node_modules env) name).
Local Notation c := (the_cache env).
Hypothesis Hb : env_esbuild env = Some build.
Hypothesis Hr : build (w_fs w) (esbuild_options env entry (destname_cjs d)) = BuildResolved [(destname_cjs d, bundle)] [].
Hypothesis Hd : w_fs w !! destpath d = Some Dir.
Hypothesis Hroot : w_fs w !! path_join (env_node_modules env) CACHE_DIR = Some Dir.
Hypothesis Hdc : destpath d <> cacheFile c.
Hypothesis Hnj : w_fs w !! destname d <> Some Dir.
Hypothesis Hnc : w_fs w !! destname_cjs d <> Some Dir.
Hypothesis Hcnd : w_fs w !! cacheFile c <> Some Dir.
Hypothesis Hok : cache_ok (w_fs w) c.
Hypothesis Hx : forall fs, env_exports env fs (destname_cjs d) = Ret keys.

Definition esm_w1 : world := set_fs w (<[destname_cjs d := File bundle]> (w_fs w)).
Definition esm_w2 : world := set_fs esm_w1 (recorded_fs (env_md5 env) c esm_w1 (destname_cjs d) bundle).

Lemma esm_w2_facts :
  writeCache (env_md5 env) c (destname_cjs d) esm_w1 = (Ret tt, esm_w2) /\
  w_fs esm_w2 !! destpath d = Some Dir /\
  w_fs esm_w2 !! path_join (env_node_modules env) CACHE_DIR = Some Dir /\
  w_fs esm_w2 !! destname d <> Some Dir /\ w_fs esm_w2 !! cacheFile c <> Some Dir /\
  cache_ok (w_fs esm_w2) c /\ w_fs esm_w2 !! destname_cjs d = Some (File bundle) /\
  checkHash (env_md5 env) c (destname_cjs d) esm_w2 = (Ret true, esm_w2).
Proof.
  pose proof (destname_cjs_not_cacheFile env name). pose proof (destname_cjs_not_root (env_node_modules env) name).
  pose proof (destname_cjs_not_destname (env_node_modules env) name).
  pose proof (destpath_not_destname_cjs (env_node_modules env) name). pose proof (root_not_cacheFile env).
  pose proof (destname_not_cacheFile env name).
  assert (Hpar : removelast (cacheFile c) = path_join (env_node_modules env) CACHE_DIR)
    by (rewrite cacheFile_snoc; apply removelast_snoc).
  assert (Hc0 : cacheFile c <> []) by (rewrite cacheFile_snoc; by intros [_ ?]%app_eq_nil).
  assert (Hp1 : w_fs esm_w1 !! destname_cjs d = Some (File bundle)) by apply lookup_insert_eq.
  assert (Hok1 : cache_ok (w_fs esm_w1) c) by (by apply cache_ok_insert_ne).
  assert (Hpar1 : w_fs esm_w1 !! removelast (cacheFile c) = Some Dir)
    by (unfold esm_w1, set_fs; cbn [w_fs]; by rewrite Hpar, lookup_insert_ne by congruence).
  assert (Hcnd1 : w_fs esm_w1 !! cacheFile c <> Some Dir)
    by (unfold esm_w1, set_fs; cbn [w_fs]; by rewrite lookup_insert_ne by congruence).
  destruct (writeCache_eval (env_md5 env) c (destname_cjs d) esm_w1 bundle) as (Hw & Hok2 & _); [done..|].
  assert (Hfr : forall q, q <> cacheFile c -> q <> destname_cjs d -> w_fs esm_w2 !! q = w_fs w !! q)
    by (intros; unfold esm_w2, esm_w1, recorded_fs, set_fs; cbn [w_fs]; by rewrite !lookup_insert_ne by congruence).
  split; [exact Hw|]. rewrite !Hfr by congruence.
  do 3 (split; [done|]). split; [unfold esm_w2, recorded_fs, set_fs; cbn [w_fs]; by rewrite lookup_insert_eq|].
  split; [exact Hok2|]. split.
  - unfold esm_w2, recorded_fs, set_fs; cbn [w_fs]. by rewrite lookup_insert_ne by congruence.
  - rewrite checkHash_eval by exact Hok2. unfold esm_w2 at 1 2; cbn [w_fs set_fs].
    by rewrite (recorded_valid (env_md5 env) c (destname_cjs d) esm_w1 bundle).
Qed.

Lemma esm_continue_eval :
  esm_continue env (mkTask name entry d) w = cjsBundling env name (esm_require name) (destname_cjs d) esm_w2.
Proof.
  destruct esm_w2_facts as (Hw & _).
  assert (Hrl : removelast (destname_cjs d) = destpath d) by (rewrite destname_cjs_snoc; apply removelast_snoc).
  assert (Hw1 : write_outputs [(destname_cjs d, bundle)] w = (Ret tt, esm_w1)).
  { unfold write_outputs. cbn [st_iter]. rewrite Hrl.
    rewrite (st_bind_ok _ _ w tt esm_w1); [done|].
    rewrite (st_bind_ok _ _ w tt w) by (apply ensure_dir_exists; eexists; exact Hd).
    unfold writeFileSync. rewrite write_file_succeeds;
      [done | rewrite destname_cjs_snoc; by intros [_ ?]%app_eq_nil | by rewrite Hrl | done]. }
  unfold esm_continue. rewrite Hb. cbn [task_dest task_entry task_name].
  rewrite (st_bind_ok _ _ w w w) by done. rewrite Hr.
  rewrite (st_bind_ok _ _ w tt esm_w1 Hw1). rewrite decide_True by done.
  by rewrite (st_bind_ok _ _ esm_w1 tt esm_w2 Hw).
Qed.

(** C9: when esbuild succeeds, the continuation leaves the bundle
    [index.cjs] and the shim [index.js] on disk, both passing their
    cache check: the alias the hook emitted now points at an existing,
    recorded file. *)
Theorem esm_task_success :
  exists w',
    esm_task env (mkTask name entry d) w = (Ret tt, w') /\
    w_fs w' !! destname_cjs d = Some (File bundle) /\
    (exists code, w_fs w' !! destname d = Some (File code)) /\
    checkHash (env_md5 env) c (destname_cjs d) w' = (Ret true, w') /\
    checkHash (env_md5 env) c (destname d) w' = (Ret true, w').
Proof.
  destruct esm_w2_facts as (_ & H1 & H2 & H3 & H4 & H5 & H6 & H7).
  assert (Htask : forall w', cjsBundling env name (esm_require name) (destname_cjs d) esm_w2 = (Ret tt, w') ->
                  esm_task env (mkTask name entry d) w = (Ret tt, w'))
    by (intros w' Hc; unfold esm_task, detached, st_catch; by rewrite esm_continue_eval, Hc).
  pose proof (checkHash_eval (env_md5 env) c (destname d) esm_w2 H5) as Hch.
  destruct (valid_spec _ _ _ (destname d)) eqn:V.
  - exists esm_w2. split; [apply Htask, cjsBundling_cached; [eexists; exact H1 | exact Hch]|].
    split; [done|]. split; [by eapply valid_spec_file|]. done.
  - pose proof (destname_cjs_not_cacheFile env name). pose proof (destname_cjs_not_destname (env_node_modules env) name).
    pose proof (destname_cjs_key (env_node_modules env) name).
    exists (cjs_after env name (esm_require name) esm_w2 keys).
    split; [apply Htask; by apply cjsBundling_miss_eval|].
    split; [rewrite cjs_after_frame; done|]. split; [eexists; by apply cjs_after_shim|].
    split; [by apply cjs_after_keeps_valid | by apply cjs_after_valid].
Qed.
End EsmSuccess.

(** C15: The cache is keyed by the shim, not by the module it wraps: after
    the module's entry file changes, [cjsBundling] still hits the cache
    and leaves the old shim, whose exported names may be stale. *)
Theorem cjsBundling_entry_change env name require requireId w content :
  is_Some (w_fs w !! destpath (dest_paths (env_node_modules env) name)) ->
  cache_ok (w_fs w) (the_cache env) ->
  checkHash (env_md5 env) (the_cache env) (destname (dest_paths (env_node_modules env) name)) w
    = (Ret true, w) ->
  requireId <> destname (dest_paths (env_node_modules env) name) ->
  requireId <> cacheFile (the_cache env) ->
  cjsBundling env name require requireId (set_fs w (<[requireId := File content]> (w_fs w)))
    = (Ret tt, set_fs w (<[requireId := File content]> (w_fs w))).
Proof.
  intros Hd Hok Hc Hn1 Hn2. apply cjsBundling_cached.
  - simpl. apply lookup_insert_is_Some'. by right.
  - by rewrite checkHash_frame, Hc.
Qed.

(** *** Paths *)

Lemma split_segs_go_app cur a b :
  split_segs_go cur (a +:+ String "/" b) = split_segs_go cur a ++ split_segs b.
Proof.
  revert cur. induction a as [|c a IH]; intros cur; [reflexivity|].
  rewrite str_app_cons. simpl. case_decide; simpl; [f_equal; apply IH | apply IH].
Qed.

Lemma split_segs_app a b : split_segs (a +:+ String "/" b) = split_segs a ++ split_segs b.
Proof. apply split_segs_go_app. Qed.

(** C32: [path.join] resolves [..] in the dependency name: for every
    [node_modules] path and every package name [s], the name
    [../../s] puts the shim of [cjsBundling] on the file
    [node_modules/s/index.js], outside the cache root: the entry file
    of a package, which the shim overwrites. *)
Theorem dest_escapes nm s :
  seg_ok s -> s <> "." -> s <> ".." ->
  destname (dest_paths nm ("../../" +:+ s)) = nm ++ [s; "index.js"] /\
  ~ path_join nm CACHE_DIR `prefix_of` destname (dest_paths nm ("../../" +:+ s)).
Proof.
  intros [Hs0 Hs] Hdot Hdd.
  assert (Hsp : split_segs ("../../" +:+ s) = [".."; ".."; s]).
  { change ("../../" +:+ s) with (".." +:+ String "/" (".." +:+ String "/" s)).
    rewrite !split_segs_app. unfold split_segs at 3. by rewrite split_segs_go_noslash. }
  assert (H : destname (dest_paths nm ("../../" +:+ s)) = nm ++ [s; "index.js"]).
  { rewrite destname_snoc. unfold dest_paths, path_join at 1. cbn [destpath]. rewrite Hsp, cache_root_snoc.
    cbn [push_segs].
    repeat first [rewrite (decide_False (P:=(".." = "" \/ ".." = "."))) by (intros [?|?]; discriminate)
                 | rewrite (decide_True (P:=(".." = ".."))) by done
                 | rewrite (decide_False (P:=(s = "" \/ s = "."))) by naive_solver
                 | rewrite (decide_False (P:=(s = ".."))) by done].
    rewrite !removelast_snoc. by rewrite <- app_assoc. }
  split; [exact H|]. rewrite H, cache_root_snoc, <- !app_assoc. intros Hp.
  apply prefix_app_inv, prefix_cons_inv_2, prefix_cons_inv_1 in Hp. discriminate.
Qed.


(** ** Witnesses *)

(** [node_modules] at [/nm] with [lodash] (CommonJS), [uuid] (a module
    package) and no [ghost-pkg]. *)
Definition ex_uuid_pkg : string :=
  "{" +:+ String dq "type" +:+ String dq ":" +:+ String dq "module" +:+ String dq "}".

Definition ex_fs0 : gmap path node :=
  list_to_map [([], Dir); (["nm"], Dir); (["nm"; "lodash"], Dir);
    (["nm"; "lodash"; "package.json"], File "{}");
    (["nm"; "lodash"; "index.js"], File "module.exports = { a: 1 }");
    (["nm"; "uuid"], Dir); (["nm"; "uuid"; "package.json"], File ex_uuid_pkg);
    (["nm"; "uuid"; "index.mjs"], File "export const v4 = 1")].

Definition ex_w0 : world := mkWorld ex_fs0 100 [] [].

Definition ex_resolve (fs : gmap path node) (s : string) : option path :=
  if decide (s = "lodash") then Some ["nm"; "lodash"; "index.js"]
  else if decide (s = "uuid") then Some ["nm"; "uuid"; "index.mjs"] else None.

Definition ex_lib_esm (keys : list string) : string :=
  String.concat "" (map (fun k => "export const " +:+ k +:+ " = _M_." +:+ k +:+ ";" +:+ nl) keys).

Definition ex_env (esb : option (gmap path node -> list (string * json) -> BuildResult)) : Env :=
  mkEnv ["nm"] ["fs"; "path"; "_http_agent"] ex_resolve (fun _ _ => Ret ["a"; "b"]) ex_lib_esm
    (fun s => "md5:" +:+ s) esb [].

Definition ex_bundle : gmap path node -> list (string * json) -> BuildResult :=
  fun _ _ => BuildResolved [(["nm"; "@sillot"; "vite-electron-renderer"; "uuid"; "index.cjs"],
                             "module.exports = { v4: 1 }")] [].

Definition ex_include : list IncludeItem := [IncName "lodash"; IncName "ghost-pkg"; IncName "uuid"].

Definition ex_config : UserConfig := mkConfig None None None None.

Definition ex_run := config_hook (ex_env (Some ex_bundle)) ex_include ex_config ex_w0.

Definition run_config (r : outcome (UserConfig * list EsmTask) * world) : UserConfig :=
  match r.1 with Ret (c, _) => c | Exn _ => ex_config end.

Definition run_tasks (r : outcome (UserConfig * list EsmTask) * world) : list EsmTask :=
  match r.1 with Ret (_, ts) => ts | Exn _ => [] end.

Lemma classify_manifest_module_witness :
  includes (builtins (env_builtinModules (ex_env None))) "uuid" = false /\
  w_fs ex_w0 !! path_join (path_join (env_node_modules (ex_env None)) "uuid") "package.json"
    = Some (File ex_uuid_pkg) /\
  json_parse ex_uuid_pkg = Some (JObj [("type", JStr "module")]) /\
  get_field (JObj [("type", JStr "module")]) "type" = Ret (Some (JStr "module")) /\
  classify (ex_env None) (IncName "uuid") ex_w0 = (Ret (Some (mkDep (Some "uuid") None None)), ex_w0).
Proof.
  assert (H1 : includes (builtins (env_builtinModules (ex_env None))) "uuid" = false) by reflexivity.
  assert (H2 : w_fs ex_w0 !! path_join (path_join (env_node_modules (ex_env None)) "uuid") "package.json"
    = Some (File ex_uuid_pkg)) by reflexivity.
  assert (H3 : json_parse ex_uuid_pkg = Some (JObj [("type", JStr "module")])) by reflexivity.
  assert (H4 : get_field (JObj [("type", JStr "module")]) "type" = Ret (Some (JStr "module")))
    by reflexivity.
  repeat (split; [assumption|]). exact (classify_manifest_module _ _ _ _ _ H1 H2 H3 H4).
Defined.

Lemma classify_manifest_commonjs_witness :
  includes (builtins (env_builtinModules (ex_env None))) "lodash" = false /\
  w_fs ex_w0 !! path_join (path_join (env_node_modules (ex_env None)) "lodash") "package.json"
    = Some (File "{}") /\
  json_parse "{}" = Some (JObj []) /\ get_field (JObj []) "type" = Ret None /\
  None <> Some (JStr "module") /\
  classify (ex_env None) (IncName "lodash") ex_w0 = (Ret (Some (mkDep None (Some "lodash") None)), ex_w0).
Proof.
  assert (H1 : includes (builtins (env_builtinModules (ex_env None))) "lodash" = false) by reflexivity.
  assert (H2 : w_fs ex_w0 !! path_join (path_join (env_node_modules (ex_env None)) "lodash") "package.json"
    = Some (File "{}")) by reflexivity.
  assert (H3 : json_parse "{}" = Some (JObj [])) by reflexivity.
  assert (H4 : get_field (JObj []) "type" = Ret None) by reflexivity.
  assert (H5 : (None : option json) <> Some (JStr "module")) by discriminate.
  repeat (split; [assumption|]). exact (classify_manifest_commonjs _ _ _ _ _ _ H1 H2 H3 H4 H5).
Defined.

Lemma config_hook_batch_witness :
  resolve_stable (ex_env (Some ex_bundle)) /\ ex_include <> [] /\
  config_hook (ex_env (Some ex_bundle)) ex_include ex_config ex_w0
    = (Ret (run_config ex_run, run_tasks ex_run), ex_run.2) /\
  exists deps w1, classify_all (ex_env (Some ex_bundle)) ex_include ex_w0 = (Ret deps, w1) /\
    let al := omap (dep_alias (ex_env (Some ex_bundle)) (w_fs w1)) deps in
    run_config ex_run = modifyOptimizeDeps (modifyAlias ex_config (map alias_of al)) al.*1.
Proof.
  assert (H1 : resolve_stable (ex_env (Some ex_bundle))) by (intros fs fs' s; reflexivity).
  assert (H2 : ex_include <> []) by discriminate.
  assert (H3 : config_hook (ex_env (Some ex_bundle)) ex_include ex_config ex_w0
    = (Ret (run_config ex_run, run_tasks ex_run), ex_run.2)) by (vm_compute; reflexivity).
  repeat (split; [assumption|]). exact (config_hook_batch _ _ _ _ _ _ _ H1 H2 H3).
Defined.

Lemma config_hook_bounds_witness :
  ex_include <> [] /\
  config_hook (ex_env (Some ex_bundle)) ex_include ex_config ex_w0
    = (Ret (run_config ex_run, run_tasks ex_run), ex_run.2) /\
  length (run_tasks ex_run) <= length ex_include /\
  exists al, length al <= length ex_include /\
    run_config ex_run = modifyOptimizeDeps (modifyAlias ex_config (map alias_of al)) al.*1.
Proof.
  assert (H1 : ex_include <> []) by discriminate.
  assert (H2 : config_hook (ex_env (Some ex_bundle)) ex_include ex_config ex_w0
    = (Ret (run_config ex_run, run_tasks ex_run), ex_run.2)) by (vm_compute; reflexivity).
  split; [exact H1|]. split; [exact H2|]. exact (config_hook_bounds _ _ _ _ _ _ _ H1 H2).
Defined.

Definition ex_uuid_task : EsmTask :=
  mkTask "uuid" ["nm"; "uuid"; "index.mjs"] (dest_paths ["nm"] "uuid").

(** The world once the hook and the pending [uuid] continuation have run. *)
Definition ex_after : world := (esm_task (ex_env (Some ex_bundle)) ex_uuid_task ex_run.2).2.

(** The same world with the [uuid] shim deleted. *)
Definition ex_no_shim : world :=
  set_fs ex_after (delete (destname (dest_paths ["nm"] "uuid")) (w_fs ex_after)).

Lemma esmBundling_cached_witness :
  is_Some (w_fs ex_no_shim !! destpath (dest_paths ["nm"] "uuid")) /\
  checkHash (env_md5 (ex_env (Some ex_bundle))) (the_cache (ex_env (Some ex_bundle)))
    (destname_cjs (dest_paths ["nm"] "uuid")) ex_no_shim = (Ret true, ex_no_shim) /\
  esmBundling_sync (ex_env (Some ex_bundle)) "uuid" ["nm"; "uuid"; "index.mjs"] ex_no_shim
    = (Ret None, ex_no_shim).
Proof.
  assert (H1 : is_Some (w_fs ex_no_shim !! destpath (dest_paths ["nm"] "uuid"))) by by_decide.
  assert (H2 : checkHash (env_md5 (ex_env (Some ex_bundle))) (the_cache (ex_env (Some ex_bundle)))
    (destname_cjs (dest_paths ["nm"] "uuid")) ex_no_shim = (Ret true, ex_no_shim))
    by (vm_compute; reflexivity).
  repeat (split; [assumption|]). exact (esmBundling_cached (ex_env (Some ex_bundle)) _ _ _ H1 H2).
Defined.

Lemma esmBundling_miss_witness :
  world_wf ex_w0 /\
  no_file_on (w_fs ex_w0) (destpath (dest_paths ["nm"] "uuid")) = true /\
  w_fs ex_w0 !! destpath (dest_paths ["nm"] "uuid") = None /\
  exists w1,
    esmBundling_sync (ex_env (Some ex_bundle)) "uuid" ["nm"; "uuid"; "index.mjs"] ex_w0
      = (Ret (Some (mkTask "uuid" ["nm"; "uuid"; "index.mjs"] (dest_paths ["nm"] "uuid"))), w1) /\
    w_fs w1 !! destpath (dest_paths ["nm"] "uuid") = Some Dir /\
    (forall q, ~ q `prefix_of` destpath (dest_paths ["nm"] "uuid") -> w_fs w1 !! q = w_fs ex_w0 !! q) /\
    w_now w1 = w_now ex_w0 /\ w_log w1 = w_log ex_w0 /\ w_unhandled w1 = w_unhandled ex_w0.
Proof.
  assert (H1 : world_wf ex_w0) by decide_fs_wf.
  assert (H2 : no_file_on (w_fs ex_w0) (destpath (dest_paths ["nm"] "uuid")) = true) by (vm_compute; reflexivity).
  assert (H3 : ~ cacheFile (the_cache (ex_env (Some ex_bundle))) `prefix_of` destpath (dest_paths ["nm"] "uuid"))
    by by_decide.
  assert (H4 : checkHash_out (env_md5 (ex_env (Some ex_bundle))) (the_cache (ex_env (Some ex_bundle)))
    (destname_cjs (dest_paths ["nm"] "uuid")) (w_fs ex_w0) = Ret false) by (vm_compute; reflexivity).
  split; [exact H1|]. split; [exact H2|]. split; [vm_compute; reflexivity|].
  exact (esmBundling_miss (ex_env (Some ex_bundle)) "uuid" ["nm"; "uuid"; "index.mjs"] ex_w0 H1 H2 H3 H4).
Defined.

Lemma esm_task_no_esbuild_witness :
  env_esbuild (ex_env None) = None /\
  esm_task (ex_env None) ex_uuid_task ex_w0 =
  (Ret tt, mkWorld (w_fs ex_w0) (w_now ex_w0) (w_log ex_w0) (w_unhandled ex_w0 ++ [esbuild_missing])).
Proof.
  assert (H : env_esbuild (ex_env None) = None) by reflexivity.
  split; [exact H | exact (esm_task_no_esbuild (ex_env None) ex_uuid_task ex_w0 H)].
Defined.

(** ** Error paths of the hook *)

(** C28: An explicit [type] is obeyed before the built-in check: a built-in
    module named with [{ name, type: 'commonjs' }] is pre-bundled. *)
Theorem classify_explicit_type env name ty w :
  ty = "commonjs" \/ ty = "module" ->
  classify env (IncObj name (Some ty)) w =
  (Ret (Some (if decide (ty = "module") then mkDep (Some name) None None
              else mkDep None (Some name) None)), w).
Proof.
  intros [-> | ->]; reflexivity.
Qed.

(** A [package.json] that is not JSON makes [cjs_require] throw a
    [SyntaxError] out of the classification loop. *)
Theorem classify_bad_manifest env name w content :
  includes (builtins (env_builtinModules env)) name = false ->
  w_fs w !! path_join (path_join (env_node_modules env) name) "package.json" = Some (File content) ->
  json_parse content = None ->
  classify env (IncName name) w =
  (Exn (SyntaxError (path_str (path_join (path_join (env_node_modules env) name) "package.json"))), w).
Proof.
  intros Hb Hp Hj. unfold classify. simpl. rewrite Hb.
  rewrite (st_bind_ok _ _ w true w) by (apply existsSync_some; rewrite Hp; eauto). cbn beta iota.
  rewrite (st_bind_ok _ _ w w w) by done.
  unfold st_bind at 1, st_lift, require_json, read_file. by rewrite Hp, Hj.
Qed.

Lemma classify_all_exn env it items w e w1 :
  classify env it w = (Exn e, w1) -> classify_all env (it :: items) w = (Exn e, w1).
Proof. intros H. simpl. by apply st_bind_exn. Qed.

(** The classification of [l1 ++ l2] continues after [l1] with [l2]. *)
Lemma classify_all_app_ret env l1 l2 w ds w1 :
  classify_all env l1 w = (Ret ds, w1) ->
  classify_all env (l1 ++ l2) w = st_bind (classify_all env l2) (fun d2 => st_ret (ds ++ d2)) w1.
Proof.
  revert w ds. induction l1 as [|it l1 IH]; intros w ds H; simpl in H.
  - injection H as <- <-. simpl. by rewrite st_bind_ret_r.
  - apply st_bind_ret_inv in H as (od & wa & Ha & H).
    apply st_bind_ret_inv in H as (ds0 & wb & Hb & [= <- <-]).
    simpl. rewrite (st_bind_ok _ _ _ _ _ Ha). unfold st_bind at 1. rewrite (IH wa ds0 Hb).
    unfold st_bind. destruct (classify_all env l2 wb) as [[d2|e] wc]; [|done].
    by destruct od.
Qed.

Lemma classify_all_app_inv env l1 l2 w ds w' :
  classify_all env (l1 ++ l2) w = (Ret ds, w') ->
  exists d1 w1 d2, classify_all env l1 w = (Ret d1, w1) /\ classify_all env l2 w1 = (Ret d2, w') /\
    ds = d1 ++ d2.
Proof.
  revert w ds. induction l1 as [|it l1 IH]; intros w ds H; simpl in H; [by exists [], w, ds|].
  apply st_bind_ret_inv in H as (od & wa & Ha & H).
  apply st_bind_ret_inv in H as (ds0 & wb & Hb & [= <- <-]).
  destruct (IH wa ds0 Hb) as (d1 & w1 & d2 & H1 & H2 & ->).
  exists (match od with Some d => d :: d1 | None => d1 end), w1, d2. split; [|split; [done|]].
  - simpl. rewrite (st_bind_ok _ _ _ _ _ Ha). unfold st_bind. by rewrite H1.
  - by destruct od.
Qed.

(** *** The classification reads only the manifests *)

(** The [package.json] the classification of [item] reads. *)
Definition manifest (env : Env) (item : IncludeItem) : path :=
  path_join (path_join (env_node_modules env) (item_name item)) "package.json".

Lemma classify_local env item w w' :
  resolve_stable env -> w_fs w' !! manifest env item = w_fs w !! manifest env item ->
  (classify env item w').1 = (classify env item w).1.
Proof.
  intros Hst Hm. unfold manifest in Hm. unfold classify.
  destruct item as [n|n t]; cbn beta iota zeta; cbn [item_name] in Hm;
  repeat (case_decide; [reflexivity|]); (destruct (includes _ _); [reflexivity|]);
  unfold st_bind, existsSync, exists_sync, st_get, st_lift, require_json, read_file; cbn beta iota;
  rewrite Hm; (destruct (bool_decide _); cbn beta iota; [rewrite Hm | rewrite (Hst (w_fs w') (w_fs w))]);
  repeat (case_match; try reflexivity).
Qed.

Lemma classify_all_local env items w w' :
  resolve_stable env ->
  (forall it, it ∈ items -> w_fs w' !! manifest env it = w_fs w !! manifest env it) ->
  (classify_all env items w').1 = (classify_all env items w).1.
Proof.
  intros Hst. revert w w'. induction items as [|it items IH]; intros w w' Hm; [done|]. simpl.
  pose proof (classify_local env it w w' Hst (Hm it ltac:(set_solver))) as H1.
  pose proof (classify_fs env it (w_fs w) w eq_refl) as S1. pose proof (classify_fs env it (w_fs w') w' eq_refl) as S2.
  unfold st_bind at 1 3. destruct (classify env it w) as [[o|e] s1], (classify env it w') as [[o'|e'] s2];
    simpl in *; try congruence.
  injection H1 as ->. unfold st_bind.
  pose proof (IH s1 s2 ltac:(intros it' Hit; rewrite S1, S2; apply Hm; set_solver)) as H2.
  destruct (classify_all env items s1) as [[|] ?], (classify_all env items s2) as [[|] ?]; simpl in *; by simplify_eq.
Qed.

(** *** Repeated items *)

(** C34: nothing removes repeated items from [include]: listing the
    items twice classifies and bundles every dependency twice, and hands
    Vite the aliases and exclusions of one listing, twice over (the
    exclusions are pushed again because [modifyOptimizeDeps] filters
    only against the list before the push).  Hypothesis: resolution
    does not depend on the files written. *)
Theorem config_hook_repeated_name env include config w config' ts w' :
  resolve_stable env -> include <> [] ->
  config_hook env (include ++ include) config w = (Ret (config', ts), w') ->
  exists deps w1, classify_all env include w = (Ret deps, w1) /\
    let al := omap (dep_alias env (w_fs w1)) deps in
    config' = modifyOptimizeDeps (modifyAlias config (map alias_of (al ++ al))) (al ++ al).*1.
Proof.
  intros Hst Hne. unfold config_hook. rewrite decide_False by (by destruct include).
  intros (ds & w2 & Hc & H)%st_bind_ret_inv.
  apply st_bind_ret_inv in H as ([al ts'] & w3 & Hp & [= <- _ _]).
  destruct (classify_all_app_inv _ _ _ _ _ _ Hc) as (d1 & w1 & d2 & H1 & H2 & ->).
  exists d1, w1. split; [done|].
  pose proof (classify_all_fs env include (w_fs w) w eq_refl) as S1.
  pose proof (classify_all_fs env include (w_fs w1) w1 eq_refl) as S2.
  rewrite H1 in S1. rewrite H2 in S2. simpl in S1, S2.
  pose proof (classify_all_local env include w w1 Hst ltac:(intros; by rewrite S1)) as Hl.
  rewrite H1, H2 in Hl. injection Hl as ->.
  apply process_all_aliases in Hp as ->; [|done]. rewrite omap_app, S2. done.
Qed.

(** C24: a [package.json] that is not JSON aborts the whole hook,
    wherever its item is in [include]: when the items before it are
    classified without error, the hook throws the [SyntaxError] of that
    manifest, so Vite receives no alias and no exclusion at all, not
    even for the dependencies already classified, and no file is
    written. *)
Theorem config_hook_bad_manifest env pre name post config w content ds w1 :
  classify_all env pre w = (Ret ds, w1) ->
  includes (builtins (env_builtinModules env)) name = false ->
  w_fs w !! path_join (path_join (env_node_modules env) name) "package.json" = Some (File content) ->
  json_parse content = None ->
  config_hook env (pre ++ IncName name :: post) config w =
  (Exn (SyntaxError (path_str (path_join (path_join (env_node_modules env) name) "package.json"))), w1) /\
  w_fs w1 = w_fs w.
Proof.
  intros Hpre Hb Hp Hj.
  assert (Hf : w_fs w1 = w_fs w) by (pose proof (classify_all_fs env pre (w_fs w) w eq_refl) as Hf; by rewrite Hpre in Hf).
  split; [|exact Hf]. unfold config_hook. rewrite decide_False by (by destruct pre).
  apply st_bind_exn. rewrite (classify_all_app_ret _ _ _ _ _ _ Hpre).
  apply st_bind_exn, classify_all_exn. apply (classify_bad_manifest _ _ _ content); [done | by rewrite Hf | done].
Qed.

Lemma fold_obj_set_other (opts base : list (string * json)) k :
  k ∉ opts.*1 ->
  obj_get (fold_left (fun acc kv => obj_set acc kv.1 kv.2) opts base) k = obj_get base k.
Proof.
  revert base. induction opts as [|[k' v'] opts IH]; intros base Hk; [done|].
  rewrite fmap_cons, not_elem_of_cons in Hk. simpl. rewrite IH by tauto.
  apply obj_get_set_ne. tauto.
Qed.

Lemma fold_obj_set_get (opts base : list (string * json)) k v :
  keys_nodup opts -> obj_get opts k = Some v ->
  obj_get (fold_left (fun acc kv => obj_set acc kv.1 kv.2) opts base) k = Some v.
Proof.
  unfold keys_nodup. revert base. induction opts as [|[k' v'] opts IH]; intros base Hnd Hk; [done|].
  rewrite fmap_cons in Hnd. apply NoDup_cons in Hnd as [Hk' Hnd]. simpl in *.
  case_decide; [subst; injection Hk as <-|by apply IH].
  rewrite fold_obj_set_other by done. apply obj_get_set_eq.
Qed.

(** C27: [...buildOptions] is spread after the forced settings, so a user
    option replaces them: a [format] given in [buildOptions] is the one
    esbuild receives, although the shim requires a CommonJS bundle. *)
Theorem esbuild_options_override env entry outfile k v :
  keys_nodup (env_buildOptions env) -> obj_get (env_buildOptions env) k = Some v ->
  obj_get (esbuild_options env entry outfile) k = Some v.
Proof. intros. by apply fold_obj_set_get. Qed.

Lemma classify_explicit_type_witness :
  ("commonjs" = "commonjs" \/ "commonjs" = "module") /\
  classify (ex_env None) (IncObj "fs" (Some "commonjs")) ex_w0 =
  (Ret (Some (if decide ("commonjs" = "module") then mkDep (Some "fs") None None
              else mkDep None (Some "fs") None)), ex_w0).
Proof.
  assert (H : "commonjs" = "commonjs" \/ "commonjs" = "module") by (left; reflexivity).
  split; [exact H | exact (classify_explicit_type (ex_env None) "fs" "commonjs" ex_w0 H)].
Defined.

(** A dependency whose manifest is truncated. *)
Definition ex_bad_w : world :=
  set_fs ex_w0 (<[["nm"; "bad"; "package.json"] := File "{"]> ex_fs0).

Definition ex_bad_manifest : path := path_join (path_join ["nm"] "bad") "package.json".

Definition ex_pre : list IncludeItem := [IncName "lodash"; IncName "uuid"].

Definition ex_pre_deps : list Dep :=
  match (classify_all (ex_env None) ex_pre ex_bad_w).1 with Ret ds => ds | Exn _ => [] end.

Lemma config_hook_bad_manifest_witness :
  classify_all (ex_env None) ex_pre ex_bad_w = (Ret ex_pre_deps, (classify_all (ex_env None) ex_pre ex_bad_w).2) /\
  ex_pre_deps <> [] /\
  includes (builtins (env_builtinModules (ex_env None))) "bad" = false /\
  w_fs ex_bad_w !! ex_bad_manifest = Some (File "{") /\ json_parse "{" = None /\
  config_hook (ex_env None) (ex_pre ++ IncName "bad" :: ex_include) ex_config ex_bad_w =
  (Exn (SyntaxError (path_str ex_bad_manifest)), (classify_all (ex_env None) ex_pre ex_bad_w).2) /\
  w_fs (classify_all (ex_env None) ex_pre ex_bad_w).2 = w_fs ex_bad_w.
Proof.
  assert (H0 : classify_all (ex_env None) ex_pre ex_bad_w
    = (Ret ex_pre_deps, (classify_all (ex_env None) ex_pre ex_bad_w).2)) by (vm_compute; reflexivity).
  assert (H1 : includes (builtins (env_builtinModules (ex_env None))) "bad" = false) by (vm_compute; reflexivity).
  assert (H2 : w_fs ex_bad_w !! ex_bad_manifest = Some (File "{")) by (vm_compute; reflexivity).
  assert (H3 : json_parse "{" = None) by (vm_compute; reflexivity).
  split; [exact H0|]. split; [vm_compute; discriminate|].
  split; [exact H1|]. split; [exact H2|]. split; [exact H3|].
  exact (config_hook_bad_manifest (ex_env None) ex_pre "bad" ex_include ex_config ex_bad_w "{" _ _ H0 H1 H2 H3).
Defined.

Lemma classify_bad_manifest_witness :
  includes (builtins (env_builtinModules (ex_env None))) "bad" = false /\
  w_fs ex_bad_w !! ex_bad_manifest = Some (File "{") /\ json_parse "{" = None /\
  classify (ex_env None) (IncName "bad") ex_bad_w =
  (Exn (SyntaxError (path_str ex_bad_manifest)), ex_bad_w).
Proof.
  assert (H1 : includes (builtins (env_builtinModules (ex_env None))) "bad" = false) by (vm_compute; reflexivity).
  assert (H2 : w_fs ex_bad_w !! ex_bad_manifest = Some (File "{")) by (vm_compute; reflexivity).
  assert (H3 : json_parse "{" = None) by (vm_compute; reflexivity).
  split; [exact H1|]. split; [exact H2|]. split; [exact H3|].
  exact (classify_bad_manifest (ex_env None) "bad" ex_bad_w "{" H1 H2 H3).
Defined.

(** [buildOptions: { format: 'esm' }]. *)
Definition ex_esm_env : Env :=
  mkEnv ["nm"] ["fs"] ex_resolve (fun _ _ => Ret []) ex_lib_esm (fun s => s) None
    [("format", JStr "esm")].

Lemma esbuild_options_override_witness :
  keys_nodup (env_buildOptions ex_esm_env) /\
  obj_get (env_buildOptions ex_esm_env) "format" = Some (JStr "esm") /\
  obj_get (esbuild_options ex_esm_env ["e"] ["o"]) "format" = Some (JStr "esm").
Proof.
  assert (H1 : keys_nodup (env_buildOptions ex_esm_env)) by (unfold keys_nodup; by_decide).
  assert (H2 : obj_get (env_buildOptions ex_esm_env) "format" = Some (JStr "esm")) by reflexivity.
  split; [exact H1|]. split; [exact H2|].
  exact (esbuild_options_override ex_esm_env ["e"] ["o"] "format" (JStr "esm") H1 H2).
Defined.

(** Before the first run: the cache directory and the dependency's
    output directory exist, nothing is recorded yet. *)
Definition ex_cjs_w : world :=
  set_fs ex_w0 (<[["nm"; "@sillot"] := Dir]> (<[["nm"; "@sillot"; "vite-electron-renderer"] := Dir]>
    (<[["nm"; "@sillot"; "vite-electron-renderer"; "lodash"] := Dir]> ex_fs0))).

Lemma cjsBundling_fresh_witness :
  exists w',
    cjsBundling (ex_env (Some ex_bundle)) "lodash" "lodash" ["nm"; "lodash"; "index.js"] ex_cjs_w
      = (Ret tt, w') /\
    w_fs w' !! destname (dest_paths ["nm"] "lodash")
      = Some (File (shim_code (ex_env (Some ex_bundle)) "lodash" ["a"; "b"])) /\
    checkHash (env_md5 (ex_env (Some ex_bundle))) (the_cache (ex_env (Some ex_bundle)))
      (destname (dest_paths ["nm"] "lodash")) w' = (Ret true, w') /\
    cjsBundling (ex_env (Some ex_bundle)) "lodash" "lodash" ["nm"; "lodash"; "index.js"] w'
      = (Ret tt, w').
Proof.
  apply (cjsBundling_fresh (ex_env (Some ex_bundle)) "lodash" "lodash" ["nm"; "lodash"; "index.js"]
           ex_cjs_w ["a"; "b"]);
    [vm_compute; reflexivity | vm_compute; reflexivity | vm_compute; discriminate
    | vm_compute; discriminate | vm_compute; discriminate
    | exists (JObj []); split; [reflexivity | split; [discriminate | constructor]]
    | vm_compute; reflexivity | reflexivity].
Defined.


Lemma classify_builtin_witness :
  includes (builtins (env_builtinModules (ex_env None))) "fs" = true /\
  classify (ex_env None) (IncName "fs") ex_w0 = (Ret None, ex_w0).
Proof.
  assert (H : includes (builtins (env_builtinModules (ex_env None))) "fs" = true)
    by (vm_compute; reflexivity).
  split; [exact H | exact (classify_builtin _ _ ex_w0 H)].
Defined.

(** A dependency given as a directory path with an [.mjs] entry. *)
Definition ex_dir_env : Env :=
  mkEnv ["nm"] ["fs"]
    (fun _ s => if decide (s = path_str ["nm"; "pkg-dir"]) then Some ["nm"; "pkg-dir"; "main.mjs"] else None)
    (fun _ _ => Ret []) ex_lib_esm (fun s => s) None [].

Lemma classify_resolved_witness :
  classify ex_dir_env (IncName "pkg-dir") ex_w0 =
  (Ret (Some (if decide (extname ["nm"; "pkg-dir"; "main.mjs"] = ".mjs")
              then mkDep (Some "pkg-dir") None (Some ["nm"; "pkg-dir"; "main.mjs"])
              else mkDep None (Some "pkg-dir") (Some ["nm"; "pkg-dir"; "main.mjs"]))), ex_w0).
Proof.
  apply classify_resolved; vm_compute; reflexivity.
Defined.

Lemma classify_unresolved_witness :
  classify (ex_env None) (IncName "ghost-pkg") ex_w0 =
  (Ret None, mkWorld (w_fs ex_w0) (w_now ex_w0)
     (w_log ex_w0 ++ ["Can not resolve path: " +:+ path_str (path_join ["nm"] "ghost-pkg")])
     (w_unhandled ex_w0)).
Proof.
  apply classify_unresolved; vm_compute; reflexivity.
Defined.

(** esbuild reports an error. *)
Definition ex_failing_build : gmap path node -> list (string * json) -> BuildResult :=
  fun _ _ => BuildResolved [] ["Could not resolve 'uuid-internal'"].

Lemma esm_task_build_errors_witness :
  esm_task (ex_env (Some ex_failing_build)) ex_uuid_task ex_w0 = detached (write_outputs []) ex_w0.
Proof.
  apply (esm_task_build_errors _ _ _ ex_failing_build [] ["Could not resolve 'uuid-internal'"]);
    [reflexivity | reflexivity | discriminate].
Defined.


(** The [lodash] entry file is rewritten after the first run. *)
Lemma cjsBundling_entry_change_witness :
  cjsBundling (ex_env (Some ex_bundle)) "lodash" "lodash" ["nm"; "lodash"; "index.js"]
    (set_fs ex_after (<[["nm"; "lodash"; "index.js"] := File "module.exports = { a: 1, b: 2 }"]> (w_fs ex_after)))
  = (Ret tt, set_fs ex_after (<[["nm"; "lodash"; "index.js"] := File "module.exports = { a: 1, b: 2 }"]>
                               (w_fs ex_after))).
Proof.
  apply cjsBundling_entry_change.
  - by_decide.
  - apply cache_okb_sound. vm_compute. reflexivity.
  - vm_compute. reflexivity.
  - vm_compute. discriminate.
  - vm_compute. discriminate.
Defined.

Lemma esm_task_success_witness :
  exists w',
    esm_task (ex_env (Some ex_bundle)) (mkTask "uuid" ["nm"; "uuid"; "index.mjs"] (dest_paths ["nm"] "uuid"))
      ex_run.2 = (Ret tt, w') /\
    w_fs w' !! destname_cjs (dest_paths ["nm"] "uuid") = Some (File "module.exports = { v4: 1 }") /\
    (exists code, w_fs w' !! destname (dest_paths ["nm"] "uuid") = Some (File code)) /\
    checkHash (env_md5 (ex_env (Some ex_bundle))) (the_cache (ex_env (Some ex_bundle)))
      (destname_cjs (dest_paths ["nm"] "uuid")) w' = (Ret true, w') /\
    checkHash (env_md5 (ex_env (Some ex_bundle))) (the_cache (ex_env (Some ex_bundle)))
      (destname (dest_paths ["nm"] "uuid")) w' = (Ret true, w').
Proof.
  apply (esm_task_success (ex_env (Some ex_bundle)) "uuid" ["nm"; "uuid"; "index.mjs"] ex_run.2
           ex_bundle "module.exports = { v4: 1 }" ["a"; "b"]);
    [reflexivity | vm_compute; reflexivity | vm_compute; reflexivity | vm_compute; reflexivity
    | vm_compute; discriminate | vm_compute; discriminate | vm_compute; discriminate
    | vm_compute; discriminate | apply cache_okb_sound; vm_compute; reflexivity | reflexivity].
Defined.

(** The dependencies classified from [["lodash"; "ghost-pkg"; "uuid"]]. *)
Definition ex_deps : list Dep :=
  match (classify_all (ex_env (Some ex_bundle)) ex_include ex_w0).1 with Ret ds => ds | Exn _ => [] end.

Lemma classify_all_kinds_witness :
  classify_all (ex_env (Some ex_bundle)) ex_include ex_w0
    = (Ret ex_deps, (classify_all (ex_env (Some ex_bundle)) ex_include ex_w0).2) /\
  Forall (fun dep => exists n, n ∈ map item_name ex_include /\ one_kind n dep) ex_deps.
Proof.
  assert (H : classify_all (ex_env (Some ex_bundle)) ex_include ex_w0
    = (Ret ex_deps, (classify_all (ex_env (Some ex_bundle)) ex_include ex_w0).2))
    by (vm_compute; reflexivity).
  split; [exact H | exact (classify_all_kinds _ _ _ _ _ H)].
Defined.


Lemma dest_contained_witness :
  Forall (fun s => s <> "..") (split_segs "uuid") /\
  path_join ["nm"] CACHE_DIR `prefix_of` destpath (dest_paths ["nm"] "uuid") /\
  path_join ["nm"] CACHE_DIR `prefix_of` destname (dest_paths ["nm"] "uuid") /\
  path_join ["nm"] CACHE_DIR `prefix_of` destname_cjs (dest_paths ["nm"] "uuid").
Proof.
  assert (H : Forall (fun s => s <> "..") (split_segs "uuid")) by (apply Forall_singleton; discriminate).
  split; [exact H | exact (dest_contained ["nm"] "uuid" H)].
Defined.

Lemma dest_escapes_witness :
  seg_ok "lodash" /\ "lodash" <> "." /\ "lodash" <> ".." /\
  destname (dest_paths ["nm"] ("../../" +:+ "lodash")) = ["nm"] ++ ["lodash"; "index.js"] /\
  ~ path_join ["nm"] CACHE_DIR `prefix_of` destname (dest_paths ["nm"] ("../../" +:+ "lodash")).
Proof.
  assert (H1 : seg_ok "lodash") by (split; [discriminate | reflexivity]).
  assert (H2 : "lodash" <> ".") by discriminate.
  assert (H3 : "lodash" <> "..") by discriminate.
  split; [exact H1|]. split; [exact H2|]. split; [exact H3|].
  exact (dest_escapes ["nm"] "lodash" H1 H2 H3).
Defined.

Lemma ex_resolve_stable : resolve_stable (ex_env (Some ex_bundle)).
Proof. by intros fs fs' s. Qed.

Lemma config_hook_repeated_name_witness :
  config_hook (ex_env (Some ex_bundle)) ([IncName "lodash"] ++ [IncName "lodash"]) ex_config ex_w0
    = (Ret (run_config (config_hook (ex_env (Some ex_bundle)) [IncName "lodash"; IncName "lodash"] ex_config ex_w0),
            run_tasks (config_hook (ex_env (Some ex_bundle)) [IncName "lodash"; IncName "lodash"] ex_config ex_w0)),
       (config_hook (ex_env (Some ex_bundle)) [IncName "lodash"; IncName "lodash"] ex_config ex_w0).2) /\
  exists deps w1, classify_all (ex_env (Some ex_bundle)) [IncName "lodash"] ex_w0 = (Ret deps, w1) /\
    let al := omap (dep_alias (ex_env (Some ex_bundle)) (w_fs w1)) deps in
    run_config (config_hook (ex_env (Some ex_bundle)) [IncName "lodash"; IncName "lodash"] ex_config ex_w0)
    = modifyOptimizeDeps (modifyAlias ex_config (map alias_of (al ++ al))) (al ++ al).*1.
Proof.
  assert (H : config_hook (ex_env (Some ex_bundle)) ([IncName "lodash"] ++ [IncName "lodash"]) ex_config ex_w0
    = (Ret (run_config (config_hook (ex_env (Some ex_bundle)) [IncName "lodash"; IncName "lodash"] ex_config ex_w0),
            run_tasks (config_hook (ex_env (Some ex_bundle)) [IncName "lodash"; IncName "lodash"] ex_config ex_w0)),
       (config_hook (ex_env (Some ex_bundle)) [IncName "lodash"; IncName "lodash"] ex_config ex_w0).2))
    by (vm_compute; reflexivity).
  split; [exact H|].
  exact (config_hook_repeated_name _ [IncName "lodash"] _ _ _ _ _ ex_resolve_stable ltac:(discriminate) H).
Defined.
