(* ===== verification/Rerun.v ===== *)
(** * Rerun: running the hook twice

    Spec section 8 (idempotence): a second run of the plugin over the
    files the first one left does no work again.  All the synchronous
    writes of the [config] hook happen in the dependency loop
    [process_all] (optimizer.ts lines 107-141):
    - every operation of the loop only adds files or overwrites the shim
      and the cache file it owns ([fs_sub], [fs_grows]);
    - after a loop that returns, every processed dependency is done
      ([dep_done]): its directory exists and, for a CommonJS one, its
      shim is valid for [checkHash].  A later [writeCache] of another
      shim keeps its record, because normalised paths have distinct path
      strings ([Node.path_str_inj]);
    - on such a file system, [process_all] writes nothing and returns the
      same aliases ([process_all_idempotent]);
    - the loop changes nothing outside the cache directory and the
      directories above it ([out_same], [process_all_out]), and the
      classification reads only the [package.json] of each item
      ([manifest], [classify_all_local]), so a second [config_hook]
      classifies the same dependencies ([config_hook_idempotent]).
    The second run starts from any world with the same files: the clock
    may have moved, so a rebuild, which records a new timestamp, would be
    seen. *)

From S2P Require Import Prelude Json Node Cache BuildConfig Optimizer.
Local Open Scope list_scope.

(** ** The file map only grows *)

(** Every entry is kept, with its contents. *)
Definition fs_sub (w w' : world) : Prop := w_fs w ⊆ w_fs w'.

#[export] Instance fs_sub_preorder : PreOrder fs_sub.
Proof. split; unfold fs_sub; [intros w; done | intros w1 w2 w3 H1 H2; by etrans]. Qed.

(** The file map is unchanged. *)
Definition fs_same (w w' : world) : Prop := w_fs w' = w_fs w.

#[export] Instance fs_same_preorder : PreOrder fs_same.
Proof. split; unfold fs_same; [done | intros w1 w2 w3 H1 H2; congruence]. Qed.

(** Every entry is kept, possibly with new contents. *)
Definition fs_grows (fs fs' : gmap path node) : Prop := forall p, is_Some (fs !! p) -> is_Some (fs' !! p).

Lemma fs_grows_sub fs fs' : fs ⊆ fs' -> fs_grows fs fs'.
Proof. intros H p [x Hx]. exists x. by eapply lookup_weaken. Qed.

Lemma fs_grows_trans fs1 fs2 fs3 : fs_grows fs1 fs2 -> fs_grows fs2 fs3 -> fs_grows fs1 fs3.
Proof. intros H1 H2 p Hp. auto. Qed.

Lemma fs_grows_insert fs p x : fs_grows fs (<[p := x]> fs).
Proof. intros q Hq. apply lookup_insert_is_Some'. by right. Qed.

Lemma mkdir_go_sub fs cur rest : fs ⊆ (mkdir_go fs cur rest).2.
Proof. apply map_subseteq_spec. intros q x Hq. rewrite mkdir_go_frame; [done | by eexists]. Qed.

Lemma mkdirSync_recursive_sub p : st_rel fs_sub (mkdirSync_recursive p).
Proof.
  intros w. unfold mkdirSync_recursive, fs_sub.
  pose proof (mkdir_go_sub (w_fs w) [] p) as Hs. pose proof (mkdir_go_ret_snd (w_fs w) [] p) as Hr.
  destruct (mkdir_go (w_fs w) [] p) as [[fs|e] fs2]; simpl in *; [by rewrite (Hr fs) | done].
Qed.

Lemma console_log_sub msg : st_rel fs_sub (console_log msg).
Proof. intros w. unfold fs_sub. simpl. done. Qed.

Lemma unhandled_rejection_sub e : st_rel fs_sub (unhandled_rejection e).
Proof. intros w. unfold fs_sub. simpl. done. Qed.

#[export] Hint Resolve mkdirSync_recursive_sub console_log_sub unhandled_rejection_sub : renderer.

Lemma ensure_dir_sub p : st_rel fs_sub (ensure_dir p).
Proof. unfold ensure_dir. rel. Qed.

#[export] Hint Resolve ensure_dir_sub : renderer.

Lemma dest_sub nm name : st_rel fs_sub (dest nm name).
Proof. unfold dest. rel. Qed.

#[export] Hint Resolve dest_sub : renderer.

Lemma esmBundling_sync_sub env name entry : st_rel fs_sub (esmBundling_sync env name entry).
Proof. unfold esmBundling_sync, esm_prefix. rel. Qed.

Lemma resolve_filename_sub env dep : st_rel fs_sub (resolve_filename env dep).
Proof. unfold resolve_filename. rel. Qed.

(** A [true] answer of [checkHash] survives any growth that keeps the
    artifact and the cache file. *)
Lemma checkHash_out_sub md5_hex c q fs fs' :
  fs ⊆ fs' -> checkHash_out md5_hex c q fs = Ret true -> checkHash_out md5_hex c q fs' = Ret true.
Proof.
  intros Hs H. destruct (checkHash_out_true_files _ _ _ _ H) as [[s1 H1] [s2 H2]].
  rewrite <- H. apply checkHash_out_local; [rewrite H1 | rewrite H2]; by eapply lookup_weaken.
Qed.

(** A directory that [ensure_dir] returned from exists. *)
Lemma ensure_dir_ret_exists p w w' :
  world_wf w -> ensure_dir p w = (Ret tt, w') -> is_Some (w_fs w' !! p).
Proof.
  intros Hw. unfold ensure_dir. intros (ex & w1 & Hex & H)%st_bind_ret_inv.
  injection Hex as <- <-. unfold exists_sync in H. case_bool_decide as Hp; [by injection H as <-|].
  unfold mkdirSync_recursive in H.
  destruct (mkdir_go (w_fs w) [] p) as [[fs|e] fs2] eqn:E; [injection H as <- | done].
  destruct (mkdir_go_ok (w_fs w) [] p fs (proj1 Hw)) as [_ Hd]; [by rewrite E|]. simpl. by eexists.
Qed.

Lemma dest_ret_exists nm name w d w' :
  world_wf w -> dest nm name w = (Ret d, w') -> is_Some (w_fs w' !! destpath (dest_paths nm name)).
Proof.
  intros Hw. unfold dest. intros ([] & w1 & He & [= _ <-])%st_bind_ret_inv. by eapply ensure_dir_ret_exists.
Qed.


(** ** What one [cjsBundling] leaves behind *)

Section Loop.
Context (env : Env).
Local Notation nm := (env_node_modules env).
Local Notation md5 := (env_md5 env).
Local Notation cache := (the_cache env).

(** [checkHash(q)] answers [true]. *)
Local Notation valid q fs := (checkHash_out md5 cache q fs = Ret true).

(** A [cjsBundling(name)] that returns leaves its shim valid, keeps every
    other valid artifact valid and removes no file, whether it found the
    shim cached or wrote it again. *)
Lemma cjsBundling_ret name req rid w w' :
  cjsBundling env name req rid w = (Ret tt, w') ->
  fs_grows (w_fs w) (w_fs w') /\ valid (destname (dest_paths nm name)) (w_fs w') /\
  forall q, q <> cacheFile cache -> path_str q <> path_str (destname (dest_paths nm name)) ->
    valid q (w_fs w) -> valid q (w_fs w').
Proof.
  unfold cjsBundling. intros (d & w1 & Hd & H)%st_bind_ret_inv.
  pose proof (dest_sub nm name w) as Hs1. rewrite Hd in Hs1. simpl in Hs1. apply dest_ret in Hd as ->.
  apply st_bind_ret_inv in H as (valid & w2 & Hc & H). rewrite checkHash_out_eq in Hc. injection Hc as Hv <-.
  destruct valid.
  { injection H as <-. split; [by apply fs_grows_sub|]. split; [done|]. intros q _ _. by apply checkHash_out_sub. }
  apply st_bind_ret_inv in H as (w2 & w3 & [= <- <-] & H).
  apply st_bind_ret_inv in H as (keys & w3 & Hk & H). unfold st_lift in Hk.
  destruct (env_exports _ _ _); [injection Hk as _ <- | done].
  apply st_bind_ret_inv in H as ([] & w4 & He & H).
  pose proof (ensure_dir_sub (destpath (dest_paths nm name)) w1) as Hs4. rewrite He in Hs4. simpl in Hs4.
  apply st_bind_ret_inv in H as ([] & w5 & Hw & H). unfold writeFileSync in Hw.
  destruct (write_file _ _ _) as [fs5|] eqn:Hwf; [injection Hw as <-|done].
  apply st_bind_ret_inv in H as ([] & w6 & Hc & [= <-]).
  destruct (writeCache_ret _ _ _ _ _ Hc) as (opt & content & Hopt & Hp & ->). simpl.
  pose proof (destname_not_cacheFile env name) as Hnc.
  split; [|split].
  - apply (fs_grows_trans _ (w_fs w1)); [by apply fs_grows_sub|].
    apply (fs_grows_trans _ (w_fs w4)); [by apply fs_grows_sub|].
    apply write_file_ok in Hwf as (_ & _ & _ & ->). intros q Hq. unfold recorded_fs. simpl.
    rewrite !lookup_insert_is_Some'. auto.
  - by eapply recorded_checkHash_self.
  - intros q Hq Hqs Hvq.
    assert (H4 : valid q (w_fs w4)) by (apply (checkHash_out_sub _ _ _ (w_fs w)); [by etrans | done]).
    eapply recorded_checkHash_other; [done..|]. simpl.
    rewrite <- H4. apply checkHash_out_local; apply (write_file_frame _ _ _ _ _ Hwf);
      [intros Heq; apply Hqs; by rewrite Heq | congruence].
Qed.

(** ** What one dependency leaves behind *)

(** The name [process_dep] gives the dependency's directory and alias. *)
Definition shim_name (dep : Dep) : string := default "" (dep_name dep).

Definition shim_of (dep : Dep) : path := destname (dest_paths nm (shim_name dep)).

(** A dependency is done in [fs]: if its entry resolves and its name is
    not empty, its directory exists and, for a CommonJS one, its shim is
    valid for [checkHash]. *)
Definition dep_done (fs : gmap path node) (dep : Dep) : Prop :=
  is_Some (dep_entry env fs dep) -> truthy (dep_name dep) = true ->
  is_Some (fs !! destpath (dest_paths nm (shim_name dep))) /\
  (truthy (dep_cjs dep) = true -> valid (shim_of dep) fs).

Lemma dep_name_cjs dep : truthy (dep_cjs dep) = true -> dep_name dep = dep_cjs dep.
Proof. unfold dep_name, js_or. by intros ->. Qed.

Lemma resolve_filename_wf dep : st_keeps world_wf (resolve_filename env dep).
Proof. unfold resolve_filename. keeps. Qed.

Lemma process_dep_wf dep : st_keeps world_wf (process_dep env dep).
Proof. unfold process_dep. keeps. by apply resolve_filename_wf. Qed.

Hypothesis Hst : resolve_stable env.

Lemma dep_entry_stable fs fs' dep : dep_entry env fs dep = dep_entry env fs' dep.
Proof. unfold dep_entry. destruct (dep_filename dep); [done|]. destruct (dep_name dep); simpl; [apply Hst|done]. Qed.

(** The bundling step of [process_dep] (lines 117-127). *)
Lemma process_dep_task dep f w1 task w2 :
  world_wf w1 ->
  (if truthy (dep_cjs dep) then
     (let c := default "" (dep_cjs dep) in cjsBundling env c c f ;;; st_ret None)%st
   else if truthy (dep_esm dep) then esmBundling_sync env (default "" (dep_esm dep)) f
   else st_ret None) w1 = (Ret task, w2) ->
  fs_grows (w_fs w1) (w_fs w2) /\ world_wf w2 /\
  (truthy (dep_cjs dep) = true -> valid (shim_of dep) (w_fs w2)) /\
  forall q, q <> cacheFile cache -> (q = shim_of dep \/ path_str q <> path_str (shim_of dep)) ->
    valid q (w_fs w1) -> valid q (w_fs w2).
Proof.
  intros Hw1 Ht. destruct (truthy (dep_cjs dep)) eqn:Hc.
  - apply st_bind_ret_inv in Ht as ([] & w3 & Hcj & [= _ <-]).
    pose proof (cjsBundling_wf env (default "" (dep_cjs dep)) (default "" (dep_cjs dep)) f w1 Hw1) as Hw2.
    rewrite Hcj in Hw2.
    destruct (cjsBundling_ret _ _ _ _ _ Hcj) as (G & V & K).
    unfold shim_of, shim_name. rewrite (dep_name_cjs dep Hc).
    split; [done|]. split; [done|]. split; [done|]. intros q Hq [->|Hs] Hv; [done | by apply K].
  - assert (Hs : fs_sub w1 w2 /\ world_wf w2).
    { destruct (truthy (dep_esm dep)); [|by injection Ht as _ <-].
      pose proof (esmBundling_sync_sub env (default "" (dep_esm dep)) f w1) as Hs.
      pose proof (esmBundling_sync_wf env (default "" (dep_esm dep)) f w1 Hw1) as Hw.
      rewrite Ht in Hs, Hw. done. }
    destruct Hs as [Hs Hw2]. split; [by apply fs_grows_sub|]. split; [done|]. split; [done|].
    intros q _ _. by apply checkHash_out_sub.
Qed.

(** A [process_dep] that returns leaves its dependency done, removes no
    file, and keeps valid every artifact whose path string differs from
    that of its own shim. *)
Lemma process_dep_ret dep w r w' :
  world_wf w -> process_dep env dep w = (Ret r, w') ->
  fs_grows (w_fs w) (w_fs w') /\ dep_done (w_fs w') dep /\
  forall q, q <> cacheFile cache -> (q = shim_of dep \/ path_str q <> path_str (shim_of dep)) ->
    valid q (w_fs w) -> valid q (w_fs w').
Proof.
  intros Hw. unfold process_dep. intros (fo & w1 & Hf & H)%st_bind_ret_inv.
  pose proof (resolve_filename_sub env dep w) as Hs1. pose proof (resolve_filename_wf dep w Hw) as Hw1.
  rewrite Hf in Hs1, Hw1. simpl in Hs1, Hw1. apply resolve_filename_ret in Hf.
  destruct fo as [f|].
  2:{ injection H as _ <-. split; [by apply fs_grows_sub|]. split.
      - intros Hs. rewrite (dep_entry_stable _ (w_fs w)), <- Hf in Hs. by destruct Hs.
      - intros q _ _. by apply checkHash_out_sub. }
  apply st_bind_ret_inv in H as (task & w2 & Ht & H).
  destruct (process_dep_task dep f w1 task w2 Hw1 Ht) as (G2 & Hw2 & V2 & K2).
  change (js_or (dep_cjs dep) (dep_esm dep)) with (dep_name dep) in H.
  destruct (truthy (dep_name dep)) eqn:Hn.
  - apply st_bind_ret_inv in H as (d & w3 & Hd & [= _ <-]).
    pose proof (dest_sub nm (shim_name dep) w2) as Hs3. pose proof (dest_ret_exists _ _ _ _ _ Hw2 Hd) as Hex.
    unfold shim_name in Hs3. rewrite Hd in Hs3. simpl in Hs3.
    split; [|split].
    + apply (fs_grows_trans _ (w_fs w1)); [by apply fs_grows_sub|].
      apply (fs_grows_trans _ (w_fs w2)); [done | by apply fs_grows_sub].
    + intros _ _. split; [done|]. intros Hc. apply (checkHash_out_sub _ _ _ (w_fs w2)); auto.
    + intros q Hq Hqs Hv. apply (checkHash_out_sub _ _ _ (w_fs w2)); [done|].
      apply K2; [done..|]. by apply (checkHash_out_sub _ _ _ (w_fs w)).
  - injection H as _ <-. split; [|split].
    + apply (fs_grows_trans _ (w_fs w1)); [by apply fs_grows_sub | done].
    + intros _ Hn'. congruence.
    + intros q Hq Hqs Hv. apply K2; [done..|]. by apply (checkHash_out_sub _ _ _ (w_fs w)).
Qed.

(** ** The first run: every dependency is done *)

Hypothesis Hnm : Forall seg_ok nm.

(** Two shims are the same file or have different path strings. *)
Lemma shim_sep dep dep' : shim_of dep = shim_of dep' \/ path_str (shim_of dep) <> path_str (shim_of dep').
Proof.
  destruct (decide (shim_of dep = shim_of dep')) as [|Hne]; [by left|right].
  intros H. apply Hne, path_str_inj; [..|done]; by repeat apply path_join_ok.
Qed.

(** A later [process_dep] keeps a done dependency done. *)
Lemma dep_done_after dep dep' w r w' :
  world_wf w -> process_dep env dep' w = (Ret r, w') -> dep_done (w_fs w) dep -> dep_done (w_fs w') dep.
Proof.
  intros Hw Hp Hd He Hn. destruct (process_dep_ret dep' w r w' Hw Hp) as (G & _ & K).
  rewrite (dep_entry_stable _ (w_fs w)) in He. destruct (Hd He Hn) as [Hex Hv].
  split; [by apply G|]. intros Hc. apply K; [apply destname_not_cacheFile | apply shim_sep | by apply Hv].
Qed.

Lemma process_all_cons_inv dep deps w r w' :
  process_all env (dep :: deps) w = (Ret r, w') ->
  exists r1 w1 r2, process_dep env dep w = (Ret r1, w1) /\ process_all env deps w1 = (Ret r2, w').
Proof.
  simpl. intros ([oa ot] & w1 & Hd & H)%st_bind_ret_inv.
  apply st_bind_ret_inv in H as ([al ts] & w2 & Hr & [= _ <-]). eauto.
Qed.

Lemma process_all_keeps_done deps w r w' dep :
  world_wf w -> process_all env deps w = (Ret r, w') -> dep_done (w_fs w) dep -> dep_done (w_fs w') dep.
Proof.
  revert w r. induction deps as [|dep' deps IH]; intros w r Hw H Hd; [simpl in H; by injection H as _ <-|].
  destruct (process_all_cons_inv _ _ _ _ _ H) as (r1 & w1 & r2 & H1 & H2).
  pose proof (process_dep_wf dep' w Hw) as Hw1. rewrite H1 in Hw1.
  eapply IH; [exact Hw1 | exact H2 |]. exact (dep_done_after dep dep' w r1 w1 Hw H1 Hd).
Qed.

(** After a successful [process_all], every dependency is done. *)
Lemma process_all_done deps w r w' :
  world_wf w -> process_all env deps w = (Ret r, w') -> Forall (dep_done (w_fs w')) deps.
Proof.
  revert w r. induction deps as [|dep deps IH]; intros w r Hw H; [done|].
  destruct (process_all_cons_inv _ _ _ _ _ H) as (r1 & w1 & r2 & H1 & H2).
  pose proof (process_dep_wf dep w Hw) as Hw1. rewrite H1 in Hw1.
  constructor; [|by eapply IH].
  eapply process_all_keeps_done; [exact Hw1 | exact H2 |]. apply (process_dep_ret dep w r1 w1 Hw H1).
Qed.

(** ** The second run: nothing left to do *)

Lemma dep_name_esm dep : truthy (dep_cjs dep) = false -> dep_name dep = dep_esm dep.
Proof. unfold dep_name, js_or. by intros ->. Qed.

Lemma resolve_filename_eval dep w :
  exists w1, resolve_filename env dep w = (Ret (dep_entry env (w_fs w) dep), w1) /\ w_fs w1 = w_fs w.
Proof.
  unfold resolve_filename, dep_entry, dep_name. destruct (dep_filename dep); [by eexists|].
  unfold st_bind at 1, st_get. destruct (_ ≫= _) eqn:E; by eexists.
Qed.

(** Where the directory exists, the synchronous part of [esmBundling]
    writes nothing (it may only record an unhandled rejection). *)
Lemma esmBundling_sync_cached name f w :
  is_Some (w_fs w !! destpath (dest_paths nm name)) ->
  exists ot w', esmBundling_sync env name f w = (Ret ot, w') /\ w_fs w' = w_fs w.
Proof.
  intros Hex. unfold esmBundling_sync, esm_prefix, st_catch.
  rewrite (st_bind_ok _ _ w _ w (dest_exists _ _ _ Hex)). cbv beta.
  destruct (checkHash_out md5 cache (destname_cjs (dest_paths nm name)) (w_fs w)) as [b|e] eqn:Ec.
  - rewrite (st_bind_ok _ _ w b w) by (rewrite checkHash_out_eq; exact (f_equal (fun o => (o, w)) Ec)).
    destruct b; by eexists _, _.
  - rewrite (st_bind_exn _ _ w e w) by (rewrite checkHash_out_eq; exact (f_equal (fun o => (o, w)) Ec)).
    by eexists _, _.
Qed.

(** On a file system where [dep] is done, [process_dep] returns its
    alias and writes nothing. *)
Lemma process_dep_rerun dep w :
  dep_done (w_fs w) dep ->
  exists ot w', process_dep env dep w = (Ret (dep_alias env (w_fs w) dep, ot), w') /\ w_fs w' = w_fs w.
Proof.
  intros Hd. destruct (resolve_filename_eval dep w) as (w1 & Hr & Hf1).
  unfold process_dep. rewrite (st_bind_ok _ _ _ _ _ Hr). unfold dep_alias.
  destruct (dep_entry env (w_fs w) dep) as [f|] eqn:He; [|by eexists _, _].
  change (js_or (dep_cjs dep) (dep_esm dep)) with (dep_name dep).
  destruct (truthy (dep_name dep)) eqn:Hn.
  - destruct (Hd ltac:(rewrite He; eauto) Hn) as [Hex Hv]. rewrite <- Hf1 in Hex, Hv.
    assert (Ht : exists task w2, (if truthy (dep_cjs dep) then
        (let c := default "" (dep_cjs dep) in cjsBundling env c c f ;;; st_ret None)%st
      else if truthy (dep_esm dep) then esmBundling_sync env (default "" (dep_esm dep)) f
      else st_ret None) w1 = (Ret task, w2) /\ w_fs w2 = w_fs w1).
    { unfold shim_of, shim_name in Hex, Hv. destruct (truthy (dep_cjs dep)) eqn:Hc.
      - rewrite (dep_name_cjs dep Hc) in Hex, Hv. specialize (Hv eq_refl).
        cbv zeta. rewrite (st_bind_ok _ _ w1 tt w1) by (apply cjsBundling_cached; [done | by rewrite checkHash_out_eq, Hv]).
        by eexists _, _.
      - rewrite (dep_name_esm dep Hc) in Hex. destruct (truthy (dep_esm dep)); [|by eexists _, _].
        by apply esmBundling_sync_cached. }
    destruct Ht as (task & w2 & Ht & Hf2). rewrite (st_bind_ok _ _ _ _ _ Ht).
    rewrite <- Hf2 in Hex. unfold shim_name in Hex.
    rewrite (st_bind_ok _ _ w2 _ w2 (dest_exists _ _ _ Hex)). eexists _, _. split; [done|congruence].
  - assert (Hc : truthy (dep_cjs dep) = false).
    { destruct (truthy (dep_cjs dep)) eqn:Hc; [|done]. rewrite (dep_name_cjs dep Hc) in Hn. congruence. }
    rewrite (dep_name_esm dep Hc) in Hn. rewrite Hc, Hn. by eexists _, _.
Qed.

Lemma dep_done_fs fs fs' dep : fs = fs' -> dep_done fs dep -> dep_done fs' dep.
Proof. by intros ->. Qed.

Lemma process_all_rerun deps w :
  Forall (dep_done (w_fs w)) deps ->
  exists ts w', process_all env deps w = (Ret (omap (dep_alias env (w_fs w)) deps, ts), w') /\
    w_fs w' = w_fs w.
Proof.
  revert w. induction deps as [|dep deps IH]; intros w Hall; [by eexists _, _|].
  apply Forall_cons in Hall as [Hd Hall].
  destruct (process_dep_rerun dep w Hd) as (ot & w1 & H1 & Hf1).
  destruct (IH w1) as (ts & w2 & H2 & Hf2); [rewrite Hf1; exact Hall|].
  simpl. rewrite (st_bind_ok _ _ _ _ _ H1). cbv beta iota. rewrite (st_bind_ok _ _ _ _ _ H2).
  rewrite Hf1 in H2. eexists _, _. split; [rewrite Hf1; by destruct (dep_alias _ _ dep)|]. simpl. congruence.
Qed.
End Loop.

Lemma dep_alias_stable env fs fs' dep :
  resolve_stable env -> dep_alias env fs dep = dep_alias env fs' dep.
Proof. intros Hst. unfold dep_alias. by rewrite (dep_entry_stable env Hst fs fs'). Qed.

(** The second run, from any world with the file map the first run
    left. *)
Lemma process_all_second_run env deps w al ts w1 w1' :
  resolve_stable env -> Forall seg_ok (env_node_modules env) -> world_wf w ->
  process_all env deps w = (Ret (al, ts), w1) -> w_fs w1' = w_fs w1 ->
  exists ts' w2, process_all env deps w1' = (Ret (al, ts'), w2) /\ w_fs w2 = w_fs w1.
Proof.
  intros Hst Hnm Hw H Hf. pose proof (process_all_done env Hst Hnm deps w _ w1 Hw H) as Hdone.
  rewrite <- Hf in Hdone. apply process_all_aliases in H as ->; [|done].
  rewrite (list_omap_ext _ (dep_alias env (w_fs w1')) deps deps).
  - rewrite <- Hf. exact (process_all_rerun env deps w1' Hdone).
  - apply Forall2_same_length_lookup. split; [done|]. intros i x y Hx Hy.
    rewrite Hx in Hy. injection Hy as ->. by apply dep_alias_stable.
Qed.

(** C8: idempotence of the dependency loop (spec section 8): after a
    [process_all] that returns, running it again over the same
    dependencies, at any later time (any world with the same files),
    writes no file and returns the same aliases.  Every CommonJS shim of
    the first run is found valid by [checkHash] and is not rebuilt (a
    rebuild would record a new timestamp), every directory exists, and
    the module bundles are only checked.  Hypotheses: resolution does not
    depend on the written files, and the [node_modules] path is
    normalised. *)
Theorem process_all_idempotent env deps w al ts w1 w1' :
  resolve_stable env -> Forall seg_ok (env_node_modules env) -> world_wf w ->
  process_all env deps w = (Ret (al, ts), w1) -> fs_same w1 w1' ->
  exists ts' w2, process_all env deps w1' = (Ret (al, ts'), w2) /\ fs_same w1 w2.
Proof. intros Hst Hnm Hw H Hf. exact (process_all_second_run env deps w al ts w1 w1' Hst Hnm Hw H Hf). Qed.

(** ** The loop writes only inside the cache directory

    With names free of ['..'], [process_all] only changes the cache
    directory [root], what is under it, and the directories above it
    that [mkdirSync(recursive)] creates. *)

(** [name] has no ['..'] segment. *)
Definition nodot (name : string) : Prop := Forall (fun s => s <> "..") (split_segs name).

Definition names_ok (dep : Dep) : Prop :=
  nodot (default "" (dep_cjs dep)) /\ nodot (default "" (dep_esm dep)).

(** Entries neither under [root] nor above it are untouched. *)
Definition out_same (root : path) (w w' : world) : Prop :=
  forall p, ~ root `prefix_of` p -> ~ p `prefix_of` root -> w_fs w' !! p = w_fs w !! p.

#[export] Instance out_same_preorder root : PreOrder (out_same root).
Proof.
  split; [by intros w p|]. intros w1 w2 w3 H1 H2 p Hp1 Hp2. by rewrite H2, H1.
Qed.

Lemma dest_under nm name : nodot name -> path_join nm CACHE_DIR `prefix_of` destpath (dest_paths nm name).
Proof. intros Hn. apply push_segs_prefix, Hn. Qed.

Lemma destname_under nm name : nodot name -> path_join nm CACHE_DIR `prefix_of` destname (dest_paths nm name).
Proof. intros Hn. rewrite destname_snoc. by apply prefix_app_r, dest_under. Qed.

Lemma cacheFile_under env : path_join (env_node_modules env) CACHE_DIR `prefix_of` cacheFile (the_cache env).
Proof. rewrite cacheFile_snoc. by eexists. Qed.

Lemma nodot_js_or a b : nodot (default "" a) -> nodot (default "" b) -> nodot (default "" (js_or a b)).
Proof. unfold js_or. by destruct (truthy a). Qed.

#[export] Hint Resolve dest_under destname_under cacheFile_under nodot_js_or : renderer.

Lemma outside_prefix (root p q : path) : root `prefix_of` p -> ~ root `prefix_of` q -> ~ q `prefix_of` root -> ~ q `prefix_of` p.
Proof. intros Hr H1 H2 Hq. by destruct (prefix_weak_total q root p Hq Hr). Qed.

Lemma mkdirSync_out root p : root `prefix_of` p -> st_rel (out_same root) (mkdirSync_recursive p).
Proof.
  intros Hr w q H1 H2. unfold mkdirSync_recursive.
  pose proof (mkdir_go_outside (w_fs w) [] p q (outside_prefix _ _ _ Hr H1 H2)) as Hm.
  pose proof (mkdir_go_ret_snd (w_fs w) [] p) as Hs.
  destruct (mkdir_go (w_fs w) [] p) as [[fs|e] fs2]; simpl in *; [by rewrite (Hs fs) | done].
Qed.

Lemma writeFileSync_out root p c : root `prefix_of` p -> st_rel (out_same root) (writeFileSync p c).
Proof.
  intros Hr w q H1 H2. unfold writeFileSync. destruct (write_file _ _ _) eqn:E; [|done].
  simpl. apply (write_file_frame _ _ _ _ _ E). by intros ->.
Qed.

Lemma console_log_out root msg : st_rel (out_same root) (console_log msg).
Proof. by intros w q. Qed.

Lemma unhandled_rejection_out root e : st_rel (out_same root) (unhandled_rejection e).
Proof. by intros w q. Qed.

#[export] Hint Resolve mkdirSync_out writeFileSync_out console_log_out unhandled_rejection_out : renderer.

Lemma ensure_dir_out root p : root `prefix_of` p -> st_rel (out_same root) (ensure_dir p).
Proof. intros Hr. unfold ensure_dir. rel. Qed.

Lemma writeCache_out root md5_hex c p : root `prefix_of` cacheFile c -> st_rel (out_same root) (writeCache md5_hex c p).
Proof. intros Hr. unfold writeCache. rel. Qed.

#[export] Hint Resolve ensure_dir_out writeCache_out : renderer.

Lemma dest_out nm name : nodot name -> st_rel (out_same (path_join nm CACHE_DIR)) (dest nm name).
Proof. intros Hn. unfold dest. rel. Qed.

#[export] Hint Resolve dest_out : renderer.

Lemma cjsBundling_out env name req rid :
  nodot name -> st_rel (out_same (path_join (env_node_modules env) CACHE_DIR)) (cjsBundling env name req rid).
Proof.
  intros Hn. unfold cjsBundling.
  apply (st_rel_bind_post _ (fun d => d = dest_paths (env_node_modules env) name)); [by apply dest_out| |].
  - intros w d w'. apply dest_ret.
  - intros d ->. rel.
Qed.

Lemma esmBundling_sync_out env name f :
  nodot name -> st_rel (out_same (path_join (env_node_modules env) CACHE_DIR)) (esmBundling_sync env name f).
Proof. intros Hn. unfold esmBundling_sync, esm_prefix. rel. Qed.

#[export] Hint Resolve cjsBundling_out esmBundling_sync_out : renderer.

Lemma process_dep_out env dep :
  names_ok dep -> st_rel (out_same (path_join (env_node_modules env) CACHE_DIR)) (process_dep env dep).
Proof. intros [Hc He]. unfold process_dep, resolve_filename. rel. Qed.

Lemma process_all_out env deps :
  Forall names_ok deps -> st_rel (out_same (path_join (env_node_modules env) CACHE_DIR)) (process_all env deps).
Proof.
  induction deps as [|dep deps IH]; intros Hall; simpl; [rel|].
  apply Forall_cons in Hall as [Hd Hall].
  apply st_rel_bind; [apply _ | by apply process_dep_out |]. intros [oa ot].
  apply st_rel_bind; [apply _ | by apply IH |]. intros [al ts]. rel.
Qed.

(** ** The classification reads only the manifests *)

Lemma classify_same env item : st_rel fs_same (classify env item).
Proof. intros w. exact (classify_fs env item (w_fs w) w eq_refl). Qed.

Lemma classify_all_same env items : st_rel fs_same (classify_all env items).
Proof. intros w. exact (classify_all_fs env items (w_fs w) w eq_refl). Qed.

(** A manifest is never a directory above the cache directory. *)
Lemma manifest_not_above env item :
  nodot (item_name item) -> ~ manifest env item `prefix_of` path_join (env_node_modules env) CACHE_DIR.
Proof.
  intros Hn Hp. unfold manifest in Hp.
  destruct (push_segs_prefix (env_node_modules env) _ Hn) as [t Ht].
  change (push_segs (env_node_modules env) (split_segs (item_name item)))
    with (path_join (env_node_modules env) (item_name item)) in Ht.
  assert (Hm : forall x, path_join x "package.json" = x ++ ["package.json"]) by reflexivity.
  rewrite Hm, Ht, cache_root_snoc, <- !app_assoc in Hp. apply prefix_app_inv in Hp.
  destruct t as [|a [|b t]]; simpl in Hp.
  - by apply prefix_cons_inv_1 in Hp.
  - by apply prefix_cons_inv_2, prefix_cons_inv_1 in Hp.
  - apply prefix_length in Hp. simpl in Hp. rewrite length_app in Hp. simpl in Hp. lia.
Qed.

Lemma one_kind_names_ok n dep : nodot n -> one_kind n dep -> names_ok dep.
Proof.
  assert (H0 : nodot "") by (apply Forall_singleton; discriminate).
  unfold one_kind, names_ok. intros Hn [[-> ->] | [-> ->]]; simpl; auto.
Qed.

(** C7: idempotence of the [config] hook (spec section 8): a second
    run of the hook with the same [include] and configuration, on the
    world the first run left, writes no file and hands Vite the same
    configuration.  The first run changes no manifest the classification
    reads (it writes only in the cache directory and the directories
    above it), so the second run classifies the same dependencies and
    finds every shim cached.  Hypotheses: resolution does not depend on
    the written files, the [node_modules] path is normalised, and no
    [include] name has a ['..'] segment or a manifest inside the cache
    directory. *)
Theorem config_hook_idempotent env include config w c1 ts1 w1 w1' :
  resolve_stable env -> Forall seg_ok (env_node_modules env) -> world_wf w ->
  Forall (fun it => nodot (item_name it) /\
                    ~ path_join (env_node_modules env) CACHE_DIR `prefix_of` manifest env it) include ->
  config_hook env include config w = (Ret (c1, ts1), w1) -> fs_same w1 w1' ->
  exists ts2 w2, config_hook env include config w1' = (Ret (c1, ts2), w2) /\ fs_same w1 w2.
Proof.
  intros Hst Hnm Hw Hitems H Hf. rewrite Forall_forall in Hitems. unfold fs_same in Hf |- *. unfold config_hook in *.
  destruct (decide (include = [])) as [->|Hne].
  { cbv [st_ret] in H. injection H as <- <- <-. by eexists _, _. }
  apply st_bind_ret_inv in H as (deps & wa & Hc & H).
  apply st_bind_ret_inv in H as ([al ts] & wb & Hp & H). cbv [st_ret] in H. injection H as <- <- <-.
  pose proof (classify_all_same env include w) as Sa. pose proof (classify_all_wf env include w Hw) as Hwa.
  rewrite Hc in Sa, Hwa. unfold fs_same in Sa. simpl in Sa, Hwa.
  assert (Hn : Forall names_ok deps).
  { eapply Forall_impl; [exact (classify_all_items _ _ _ _ _ Hc)|]. intros dep (it & Hit & Hk).
    exact (one_kind_names_ok _ _ (proj1 (Hitems it Hit)) Hk). }
  pose proof (process_all_out env deps Hn wa) as Ho. rewrite Hp in Ho. simpl in Ho.
  assert (Hm : forall it, it ∈ include -> w_fs w1' !! manifest env it = w_fs w !! manifest env it).
  { intros it Hit. destruct (Hitems it Hit) as [Hd Hr]. rewrite Hf, <- Sa.
    apply Ho; [exact Hr | by apply manifest_not_above]. }
  pose proof (classify_all_local env include w w1' Hst Hm) as Hc2. rewrite Hc in Hc2.
  pose proof (classify_all_same env include w1') as Sc.
  destruct (classify_all env include w1') as [o wc] eqn:Ec. simpl in Hc2, Sc. subst o.
  unfold fs_same in Sc. rewrite Hf in Sc.
  destruct (process_all_second_run env deps wa al ts wb wc Hst Hnm Hwa Hp Sc) as (ts' & w2 & Hp2 & Hf2).
  exists ts', w2. rewrite (st_bind_ok _ _ _ _ _ Ec), (st_bind_ok _ _ _ _ _ Hp2). done.
Qed.

(** ** Witnesses *)

Definition ex_pa := process_all (ex_env (Some ex_bundle)) ex_deps ex_w0.

Definition ex_pa_aliases : list (string * path) := match ex_pa.1 with Ret (al, _) => al | Exn _ => [] end.

Definition ex_pa_tasks : list EsmTask := match ex_pa.1 with Ret (_, ts) => ts | Exn _ => [] end.

(** The same files, a second later, with a fresh console. *)
Definition later (w : world) : world := mkWorld (w_fs w) (w_now w + 1000) [] [].

Lemma process_all_idempotent_witness :
  ex_pa = (Ret (ex_pa_aliases, ex_pa_tasks), ex_pa.2) /\ ex_pa_aliases <> [] /\
  exists ts' w2, process_all (ex_env (Some ex_bundle)) ex_deps (later ex_pa.2) = (Ret (ex_pa_aliases, ts'), w2) /\
    w_fs w2 = w_fs ex_pa.2.
Proof.
  assert (H : ex_pa = (Ret (ex_pa_aliases, ex_pa_tasks), ex_pa.2)) by (vm_compute; reflexivity).
  assert (Hnm : Forall seg_ok (env_node_modules (ex_env (Some ex_bundle))))
    by (apply Forall_singleton; split; [discriminate | reflexivity]).
  assert (Hw : world_wf ex_w0) by decide_fs_wf.
  split; [exact H|]. split; [vm_compute; discriminate|].
  exact (process_all_idempotent _ _ _ _ _ _ (later ex_pa.2) ex_resolve_stable Hnm Hw H eq_refl).
Defined.

Lemma config_hook_idempotent_witness :
  Forall (fun it => nodot (item_name it) /\
    ~ path_join ["nm"] CACHE_DIR `prefix_of` manifest (ex_env (Some ex_bundle)) it) ex_include /\
  config_hook (ex_env (Some ex_bundle)) ex_include ex_config ex_w0
    = (Ret (run_config ex_run, run_tasks ex_run), ex_run.2) /\
  exists ts2 w2, config_hook (ex_env (Some ex_bundle)) ex_include ex_config (later ex_run.2)
    = (Ret (run_config ex_run, ts2), w2) /\ w_fs w2 = w_fs ex_run.2.
Proof.
  assert (Hi : Forall (fun it => nodot (item_name it) /\
    ~ path_join ["nm"] CACHE_DIR `prefix_of` manifest (ex_env (Some ex_bundle)) it) ex_include) by by_decide.
  assert (H : config_hook (ex_env (Some ex_bundle)) ex_include ex_config ex_w0
    = (Ret (run_config ex_run, run_tasks ex_run), ex_run.2)) by (vm_compute; reflexivity).
  assert (Hnm : Forall seg_ok (env_node_modules (ex_env (Some ex_bundle))))
    by (apply Forall_singleton; split; [discriminate | reflexivity]).
  assert (Hw : world_wf ex_w0) by decide_fs_wf.
  split; [exact Hi|]. split; [exact H|].
  exact (config_hook_idempotent _ _ _ _ _ _ _ (later ex_run.2) ex_resolve_stable Hnm Hw Hi H eq_refl).
Defined.

